(** * Projection and edge computation engine of the sports-betting dashboard

  A shallow embedding of the engine's Python sources:
  - [utils/ev.py]                           (module [Ev]),
  - [services/projections.py]               (module [Projections]),
  - [workers/build_prop_feed_snapshots.py]  (module [PropFeed]),
  - [workers/build_projection_snapshots.py] (module [ProjectionSnapshots]).

  Conventions of the embedding.
  - Python floats and ints that hold statistics, lines and probabilities
    are exact rationals ([Q]); integer counts and American odds are [Z].
    Where a property depends on how two computed floats compare, the
    computation is repeated on binary64 numbers, rounded as the
    interpreter rounds (modules [Py64], [Ev64] and [PropFeed64]).
  - A JSON null, a missing dictionary entry and Python's [None] are
    [None : option _]; truthiness is written out where the source tests it.
  - The hosted relational store is a record of tables ([Store]); a table
    is [None] when querying it raises, so that every [try/except] of the
    source has its branch.  Calendar dates are day ordinals ([Z]); the
    source only orders and subtracts them.  Observation timestamps stay
    strings, because the source compares them as strings.
  - Python dictionaries are stdpp finite maps; a dictionary is iterated
    in the order of [map_to_list], and no property stated below depends
    on that order. *)

From Stdlib Require Import ZArith QArith Qround Qcanon Lqa Lia Floats.
From Stdlib Require Import String Ascii.
From stdpp Require Import gmap strings list sorting.

Local Open Scope string_scope.

(** ** Python primitives used by the sources *)

Module Py.

(** [x < y] on numbers, as a boolean. *)
Definition Qltb (x y : Q) : bool := negb (Qle_bool y x).

(** [max(a, b)] and [min(a, b)]: the first argument wins a tie. *)
Definition max (a b : Q) : Q := if Qltb a b then b else a.
Definition min (a b : Q) : Q := if Qltb b a then b else a.

(** Truthiness of an optional string ([None] and [""] are falsy). *)
Definition truthy_str (s : option string) : bool :=
  match s with
  | Some s => negb (String.eqb s "")
  | None => false
  end.

(** Truthiness of an optional integer ([None] and [0] are falsy). *)
Definition truthy_int (z : option Z) : bool :=
  match z with
  | Some z => negb (Z.eqb z 0)
  | None => false
  end.

(** [x or 0] on an optional number. *)
Definition or_zero (x : option Q) : Q :=
  match x with
  | Some v => v
  | None => 0
  end.

(** [a > b] on strings: lexicographic on character codes. *)
Definition str_gt (a b : string) : bool := String.ltb b a.

(** [s or ""] on an optional string. *)
Definition or_empty (s : option string) : string :=
  match s with
  | Some s => s
  | None => ""
  end.

(** [str.lower()] on ASCII letters. *)
Definition lower_ascii (c : ascii) : ascii :=
  let n := nat_of_ascii c in
  if (65 <=? n)%nat && (n <=? 90)%nat then ascii_of_nat (n + 32) else c.

Fixpoint lower (s : string) : string :=
  match s with
  | EmptyString => EmptyString
  | String c s' => String (lower_ascii c) (lower s')
  end.

(** Rounding to the nearest integer, ties to even, as [round] does. *)
Definition round_half_even (x : Q) : Z :=
  let f := Qfloor x in
  let r := (x - inject_Z f)%Q in
  if Qltb r (1 # 2) then f
  else if Qltb (1 # 2) r then (f + 1)%Z
  else if Z.even f then f else (f + 1)%Z.

(** [round(x, ndigits)]. *)
Definition round (x : Q) (ndigits : nat) : Q :=
  let scale := (10 ^ Z.of_nat ndigits)%Z in
  (inject_Z (round_half_even (x * inject_Z scale)) / inject_Z scale)%Q.

(** [sum(values)] and [len(values)] on numbers. *)
Definition sum (l : list Q) : Q := foldl Qplus 0%Q l.
Definition len {A} (l : list A) : Z := Z.of_nat (length l).

End Py.

(** ** Rows of the external record sources

  Each row type lives in a module of its own, so that the columns keep
  the names they have in the source. *)

(** One row of [player_game_stats]. *)
Module Stat.
Record t := {
  player_id : string;
  opponent : option string;
  home : option bool;
  date : Z;
  points : option Q;
  rebounds : option Q;
  assists : option Q;
  three_pointers_made : option Q;
  steals : option Q;
  blocks : option Q;
  turnovers : option Q;
  headshots : option Q;
  first_kills : option Q;
  passing_yards : option Q;
  rushing_yards : option Q;
  receptions : option Q;
  receiving_yards : option Q;
  passing_touchdowns : option Q;
  rushing_touchdowns : option Q
}.
End Stat.

(** One row of [player_prop_odds]; [id] is its primary key. *)
Module Quote.
Record t := {
  id : string;
  player_id : option string;
  game_id : option string;
  prop_type : option string;
  line : option Q;
  over_price : option Z;
  under_price : option Z;
  book : option string;
  created_at : option string
}.
End Quote.

(** One row of [player_injuries]. *)
Module Injury.
Record t := {
  player_id : string;
  status : option string;
  severity : option string;
  impact_percentage : option Q;
  reported_date : Z;
  injury_type : option string;
  notes : option string
}.
End Injury.

(** One row of [games]. *)
Module Game.
Record t := {
  id : string;
  home_team : option string;
  away_team : option string;
  start_time : option Z
}.
End Game.

(** One row of [players]. *)
Module Player.
Record t := {
  id : string;
  name : option string;
  team : option string;
  position : option string;
  sport : option string
}.
End Player.

(** The store the projection service queries.  [None]: the query raises. *)
Record Store := {
player_game_stats : option (list Stat.t);
player_injuries : option (list Injury.t);
player_prop_odds : option (list Quote.t);
games : option (list Game.t)
}.

(** ** [utils/ev.py] *)

Module Ev.

Local Open Scope Q_scope.

Definition american_to_prob (odds : Z) : Q :=
  if (odds <? 0)%Z
  then inject_Z (- odds) / (inject_Z (- odds) + 100)
  else 100 / (inject_Z odds + 100).

Definition ev (true_prob : Q) (american_odds : Z) : Q :=
  let payout :=
    if (0 <? american_odds)%Z
    then inject_Z american_odds / 100
    else 100 / inject_Z (- american_odds) in
  (true_prob * payout) - (1 - true_prob).

End Ev.

(** ** [services/projections.py] *)

Module Projections.

Local Open Scope Q_scope.

(** *** Query combinators of the store interface *)

(** [.order(col, desc=True)] on a date column. *)
Definition desc_by {A} (col : A -> Z) : relation A :=
  fun a b => (col b <= col a)%Z.

#[global] Instance desc_by_dec {A} (col : A -> Z) : RelDecision (desc_by col) :=
  fun a b => decide (col b <= col a)%Z.

Definition order_desc {A} (col : A -> Z) (rows : list A) : list A :=
  merge_sort (desc_by col) rows.

(** [.order("created_at", desc=True)] on the timestamp column; a null
    timestamp sorts as the empty string. *)
Definition created_desc : relation Quote.t :=
  fun a b =>
    String.le (Py.or_empty (Quote.created_at b)) (Py.or_empty (Quote.created_at a)).

#[global] Instance created_desc_dec : RelDecision created_desc :=
  fun a b =>
    decide (String.le (Py.or_empty (Quote.created_at b))
                      (Py.or_empty (Quote.created_at a))).

Definition order_created_desc (rows : list Quote.t) : list Quote.t :=
  merge_sort created_desc rows.

(** [.limit(n)] *)
Definition limit {A} (n : nat) (rows : list A) : list A := take n rows.

(** *** Stat extractor *)

Definition get_prop_value_from_stat (stat : Stat.t) (prop_type : string)
  : option Q :=
  if String.eqb prop_type "points" then Stat.points stat
  else if String.eqb prop_type "rebounds" then Stat.rebounds stat
  else if String.eqb prop_type "assists" then Stat.assists stat
  else if String.eqb prop_type "pra" then
    Some (Py.or_zero (Stat.points stat) + Py.or_zero (Stat.rebounds stat)
          + Py.or_zero (Stat.assists stat))
  else if String.eqb prop_type "threes" then Stat.three_pointers_made stat
  else if String.eqb prop_type "steals" then Stat.steals stat
  else if String.eqb prop_type "blocks" then Stat.blocks stat
  else if String.eqb prop_type "turnovers" then Stat.turnovers stat
  else if String.eqb prop_type "kills" then Stat.points stat
  else if String.eqb prop_type "deaths" then Stat.rebounds stat
  else if String.eqb prop_type "headshots" then Stat.headshots stat
  else if String.eqb prop_type "first_kills" then Stat.first_kills stat
  else if String.eqb prop_type "pass_yds" then Stat.passing_yards stat
  else if String.eqb prop_type "rush_yds" then Stat.rushing_yards stat
  else if String.eqb prop_type "receptions" then Stat.receptions stat
  else if String.eqb prop_type "reception_yds" then Stat.receiving_yards stat
  else if String.eqb prop_type "pass_tds" then Stat.passing_touchdowns stat
  else if String.eqb prop_type "rush_tds" then Stat.rushing_touchdowns stat
  else None.

(** *** Loaders: each catches the query's exception and returns [[]] *)

Definition load_player_recent_stats
    (db : Store) (player_id prop_type : string) (games : nat)
  : list Stat.t :=
  match player_game_stats db with
  | Some rows =>
      limit games
        (order_desc Stat.date
           (filter (fun s => Stat.player_id s = player_id) rows))
  | None => []
  end.

Definition load_matchup_stats
    (db : Store) (player_id opponent_team prop_type : string)
  : list Stat.t :=
  match player_game_stats db with
  | Some rows =>
      limit 10
        (order_desc Stat.date
           (filter (fun s => Stat.player_id s = player_id
                             /\ Stat.opponent s = Some opponent_team) rows))
  | None => []
  end.

Definition load_home_away_stats
    (db : Store) (player_id prop_type : string) (home : bool)
  : list Stat.t :=
  match player_game_stats db with
  | Some rows =>
      limit 15
        (order_desc Stat.date
           (filter (fun s => Stat.player_id s = player_id
                             /\ Stat.home s = Some home) rows))
  | None => []
  end.

(** *** Weighted average calculator *)

(** [enumerate(stats)] *)
Definition enumerate {A} (l : list A) : list (nat * A) :=
  imap (fun i x => (i, x)) l.

(** One iteration of the loop: the accumulator is
    [(total_weighted_value, total_weight)]. *)
Definition weighted_step
    (n : nat) (prop_type : string) (recency_weight : Q)
    (acc : Q * Q) (ix : nat * Stat.t) : Q * Q :=
  match get_prop_value_from_stat (snd ix) prop_type with
  | Some value =>
      let weight := 1 + inject_Z (Z.of_nat n - Z.of_nat (fst ix)) * recency_weight in
      (fst acc + value * weight, snd acc + weight)
  | None => acc
  end.

Definition calculate_weighted_average
    (stats : list Stat.t) (prop_type : string) (recency_weight : Q)
  : option Q :=
  match stats with
  | [] => None
  | _ =>
      let totals :=
        foldl (weighted_step (length stats) prop_type recency_weight)
              (0, 0) (enumerate stats) in
      if Qeq_bool (snd totals) 0 then None
      else Some (fst totals / snd totals)
  end.

(** Truthiness of an optional average ([None] and [0] are falsy). *)
Definition truthy_avg (a : option Q) : bool :=
  match a with
  | Some v => negb (Qeq_bool v 0)
  | None => false
  end.

(** *** Adjustment calculators *)

Definition calculate_opponent_adjustment
    (db : Store) (player_id opponent_team prop_type : string) : Q :=
  let all_stats := load_player_recent_stats db player_id prop_type 20 in
  let overall_avg := calculate_weighted_average all_stats prop_type (1 # 10) in
  if negb (truthy_avg overall_avg) then 1
  else
    let matchup_stats := load_matchup_stats db player_id opponent_team prop_type in
    let matchup_avg := calculate_weighted_average matchup_stats prop_type (1 # 10) in
    if negb (truthy_avg matchup_avg) then 1
    else Py.or_zero matchup_avg / Py.or_zero overall_avg.

Definition calculate_home_away_adjustment
    (db : Store) (player_id prop_type : string) (is_home : bool) : Q :=
  let home_stats := load_home_away_stats db player_id prop_type true in
  let away_stats := load_home_away_stats db player_id prop_type false in
  let home_avg := calculate_weighted_average home_stats prop_type (1 # 10) in
  let away_avg := calculate_weighted_average away_stats prop_type (1 # 10) in
  if negb (truthy_avg home_avg) || negb (truthy_avg away_avg) then 1
  else
    let overall_avg := (Py.or_zero home_avg + Py.or_zero away_avg) / 2 in
    if Qeq_bool overall_avg 0 then 1
    else if is_home then Py.or_zero home_avg / overall_avg
    else Py.or_zero away_avg / overall_avg.

(** The dictionary [get_injury_status] returns. *)
Record InjuryStatus := {
  status : string;
  severity : option string;
  impact_multiplier : Q;
  injury_type : option string;
  notes : option string
}.

Definition healthy : InjuryStatus :=
  {| status := "healthy"; severity := None; impact_multiplier := 1;
     injury_type := None; notes := None |}.

(** The query of [get_injury_status]: the most recent active record. *)
Definition active_injuries (rows : list Injury.t) (player_id : string)
  : list Injury.t :=
  limit 1
    (order_desc Injury.reported_date
       (filter (fun r => Injury.player_id r = player_id
                         /\ Injury.status r = Some "active") rows)).

(** Severity heuristics applied when [impact_percentage] is not set. *)
Definition severity_default (severity : string) (impact_pct : Q) : Q :=
  if String.eqb severity "out" then 100
  else if String.eqb severity "doubtful" then 50
  else if String.eqb severity "questionable" then 25
  else if String.eqb severity "probable" then 10
  else impact_pct.

Definition get_injury_status (db : Store) (player_id : string) : InjuryStatus :=
  match player_injuries db with
  | None => healthy                       (* the query raises: [except] *)
  | Some rows =>
      match active_injuries rows player_id with
      | [] => healthy
      | injury :: _ =>
          match Injury.severity injury with
          | None => healthy               (* [None.lower()] raises: [except] *)
          | Some sev =>
              let severity := Py.lower sev in
              let impact_pct := Py.or_zero (Injury.impact_percentage injury) in
              let impact_pct :=
                if Qeq_bool impact_pct 0
                then severity_default severity impact_pct
                else impact_pct in
              let impact_multiplier := 1 - (impact_pct / 100) in
              let impact_multiplier := Py.max 0 (Py.min 1 impact_multiplier) in
              {| status := if String.eqb severity "" then "injured" else severity;
                 severity := Some severity;
                 impact_multiplier := impact_multiplier;
                 injury_type := Injury.injury_type injury;
                 notes := Injury.notes injury |}
          end
      end
  end.

Definition get_bovada_line (db : Store) (player_id game_id prop_type : string)
  : option Q :=
  match player_prop_odds db with
  | None => None
  | Some rows =>
      match
        limit 1
          (order_created_desc
             (filter (fun q => Quote.player_id q = Some player_id
                               /\ Quote.game_id q = Some game_id
                               /\ Quote.prop_type q = Some prop_type
                               /\ Quote.book q = Some "Bovada") rows))
      with
      | q :: _ => Quote.line q
      | [] => None
      end
  end.

(** The value [calculate_opponent_defense_rating] reads from a fetched
    row; the query selects the columns points, rebounds and assists only. *)
Definition defense_value (game : Stat.t) (prop_type : string) : option Q :=
  if String.eqb prop_type "points" then Stat.points game
  else if String.eqb prop_type "rebounds" then Stat.rebounds game
  else if String.eqb prop_type "assists" then Stat.assists game
  else if String.eqb prop_type "pra" then
    Some (Py.or_zero (Stat.points game) + Py.or_zero (Stat.rebounds game)
          + Py.or_zero (Stat.assists game))
  else None.

(** The query of [calculate_opponent_defense_rating]: the last 100 rows
    against this opponent, across all players. *)
Definition opponent_games (rows : list Stat.t) (opponent_team : string)
  : list Stat.t :=
  limit 100
    (order_desc Stat.date
       (filter (fun s => Stat.opponent s = Some opponent_team) rows)).

(** The loop collecting [prop_values]: only positive values count. *)
Fixpoint qualifying_values (games : list Stat.t) (prop_type : string)
  : list Q :=
  match games with
  | [] => []
  | game :: rest =>
      match defense_value game prop_type with
      | Some value =>
          if Py.Qltb 0 value
          then value :: qualifying_values rest prop_type
          else qualifying_values rest prop_type
      | None => qualifying_values rest prop_type
      end
  end.

(** [league_averages.get(prop_type, 10.0)] *)
Definition league_averages (prop_type : string) : Q :=
  if String.eqb prop_type "points" then 12
  else if String.eqb prop_type "rebounds" then 5
  else if String.eqb prop_type "assists" then 7 # 2
  else if String.eqb prop_type "pra" then 41 # 2
  else if String.eqb prop_type "threes" then 9 # 5
  else 10.

Definition calculate_opponent_defense_rating
    (db : Store) (opponent_team prop_type : string) : Q :=
  match player_game_stats db with
  | None => 1                              (* the query raises: [except] *)
  | Some rows =>
      let opponent_games := opponent_games rows opponent_team in
      if (length opponent_games <? 10)%nat then 1
      else
        let prop_values := qualifying_values opponent_games prop_type in
        if (length prop_values <? 5)%nat then 1
        else
          let avg_allowed := Py.sum prop_values / inject_Z (Py.len prop_values) in
          let league_avg := league_averages prop_type in
          if Py.Qltb 0 league_avg then
            let defense_rating := avg_allowed / league_avg in
            Py.max (17 # 20) (Py.min (23 # 20) defense_rating)
          else 1
  end.

Definition get_player_rest_days (db : Store) (player_id : string) (game_date : Z)
  : Z :=
  match player_game_stats db with
  | None => 2%Z
  | Some rows =>
      match
        limit 1
          (order_desc Stat.date
             (filter (fun s => Stat.player_id s = player_id
                               /\ (Stat.date s < game_date)%Z) rows))
      with
      | [] => 2%Z
      | last_game :: _ => Z.max 0 (game_date - Stat.date last_game)
      end
  end.

Definition calculate_rest_adjustment (rest_days : Z) : Q :=
  if (rest_days =? 0)%Z then 19 # 20
  else if (rest_days =? 1)%Z then 49 # 50
  else if (3 <=? rest_days)%Z then 51 # 50
  else 1.

Definition calculate_pace_adjustment (game_id prop_type : string) : Q := 1.

(** *** Projection builder *)

(** The [factors] dictionary of a projection. *)
Module Factors.
Record t := {
    baseline : Q;
    baseline_source : string;
    player_avg : Q;
    defense_adjustment : Q;
    matchup_adjustment : Q;
    home_away_adjustment : Q;
    injury_adjustment : Q;
    rest_adjustment : Q;
    pace_adjustment : Q;
    rest_days : option Z
  }.
End Factors.

(** The dictionary [calculate_projection] returns.  A key the dictionary
    does not hold is [None]; the empty [factors] dictionary is [None]. *)
Module Projection.
Record t := {
    projected_line : option Q;
    confidence : Q;
    factors : option Factors.t;
    sample_size : Z;
    injury_status : option string;
    baseline_source : option string;
    bovada_line : option Q
  }.
End Projection.

(** The result returned when no baseline is available. *)
Definition null_projection : Projection.t :=
  {| Projection.projected_line := None;
     Projection.confidence := 0;
     Projection.factors := None;
     Projection.sample_size := 0;
     Projection.injury_status := None;
     Projection.baseline_source := None;
     Projection.bovada_line := None |}.

(** The rest-days block: the game row, its start time, the rest days. *)
Definition rest_of_game (db : Store) (player_id : string) (game_id : option string)
  : option (Z * Q) :=
  if Py.truthy_str game_id then
    match games db with
    | None => None                         (* [except: pass] *)
    | Some rows =>
        match limit 1 (filter (fun g => Some (Game.id g) = game_id) rows) with
        | g :: _ =>
            match Game.start_time g with
            | Some game_time =>
                let rest_days := get_player_rest_days db player_id game_time in
                Some (rest_days, calculate_rest_adjustment rest_days)
            | None => None
            end
        | [] => None
        end
    end
  else None.

(** The Bovada line used as baseline: the one supplied, or else the one
  fetched when a game is given. *)
Definition resolve_bovada_line
  (db : Store) (player_id prop_type : string)
  (game_id : option string) (bovada_line : option Q) : option Q :=
match bovada_line with
| None =>
    if Py.truthy_str game_id
    then get_bovada_line db player_id (Py.or_empty game_id) prop_type
    else None
| Some _ => bovada_line
end.

(** The player's recent average: recency weight 0.15. *)
Definition player_average (recent_stats : list Stat.t) (prop_type : string)
: option Q :=
match recent_stats with
| [] => None
| _ => calculate_weighted_average recent_stats prop_type (3 # 20)
end.

(** Baseline selection: the Bovada line if available, otherwise the player
  average, otherwise nothing. *)
Definition select_baseline (bovada_line player_avg : option Q)
: option (Q * string) :=
match bovada_line, player_avg with
| Some b, _ => Some (b, "bovada")
| None, Some a => Some (a, "player_avg")
| None, None => None
end.

Section WithSquareRoot.

  (** [x ** 0.5] on floats has no rational counterpart: it is a parameter. *)
Variable pow_half : Q -> Q.

  (** Confidence from sample size and consistency. *)
Definition confidence_of (recent_stats : list Stat.t) (prop_type : string) : Q :=
    let sample_size := Py.len recent_stats in
    let confidence := Py.min 1 (inject_Z sample_size / 15) in
    if (5 <=? sample_size)%Z then
      let values :=
        omap (fun s => get_prop_value_from_stat s prop_type)
             (take 10 recent_stats) in
      if (3 <=? Py.len values)%Z then
        let avg := Py.sum values / inject_Z (Py.len values) in
        let variance :=
          Py.sum (map (fun v => (v - avg) ^ 2) values)
          / inject_Z (Py.len values) in
        let std_dev := pow_half variance in
        if Py.Qltb 0 avg then
          let cv := std_dev / avg in
          confidence * Py.max (1 # 2) (1 - cv * (1 # 2))
        else confidence
      else confidence
    else confidence.

Definition calculate_projection
      (db : Store) (player_id prop_type : string)
      (opponent_team : option string) (is_home : bool)
      (game_id : option string) (bovada_line : option Q)
    : Projection.t :=
    let bovada_line :=
  resolve_bovada_line db player_id prop_type game_id bovada_line in
let recent_stats := load_player_recent_stats db player_id prop_type 15 in
let player_avg := player_average recent_stats prop_type in
match select_baseline bovada_line player_avg with
    | None => null_projection
    | Some (baseline, baseline_source) =>
        let base_projection := baseline in
        let defense_adj :=
          if Py.truthy_str opponent_team
          then Some (calculate_opponent_defense_rating
                       db (Py.or_empty opponent_team) prop_type)
          else None in
        let base_projection :=
          match defense_adj with
          | Some a => base_projection * a
          | None => base_projection
          end in
        let matchup_adj :=
          if Py.truthy_str opponent_team
          then Some (calculate_opponent_adjustment
                       db player_id (Py.or_empty opponent_team) prop_type)
          else None in
        let base_projection :=
          match matchup_adj with
          | Some a => base_projection * a
          | None => base_projection
          end in
        let home_away_adj :=
          calculate_home_away_adjustment db player_id prop_type is_home in
        let base_projection := base_projection * home_away_adj in
        let injury_status := get_injury_status db player_id in
        let base_projection := base_projection * impact_multiplier injury_status in
        let rest := rest_of_game db player_id game_id in
        let base_projection :=
          match rest with
          | Some (_, rest_adj) => base_projection * rest_adj
          | None => base_projection
          end in
        let pace_adj :=
          if Py.truthy_str game_id
          then Some (calculate_pace_adjustment (Py.or_empty game_id) prop_type)
          else None in
        let base_projection :=
          match pace_adj with
          | Some a => base_projection * a
          | None => base_projection
          end in
        let factors :=
          {| Factors.baseline := baseline;
             Factors.baseline_source := baseline_source;
             Factors.player_avg := Py.or_zero player_avg;
             Factors.defense_adjustment := default 1 defense_adj;
             Factors.matchup_adjustment := default 1 matchup_adj;
             Factors.home_away_adjustment := home_away_adj;
             Factors.injury_adjustment := impact_multiplier injury_status;
             Factors.rest_adjustment := default 1 (snd <$> rest);
             Factors.pace_adjustment := default 1 pace_adj;
             Factors.rest_days := fst <$> rest |} in
        {| Projection.projected_line := Some (Py.round base_projection 1);
           Projection.confidence :=
             Py.round (confidence_of recent_stats prop_type) 2;
           Projection.factors := Some factors;
           Projection.sample_size := Py.len recent_stats;
           Projection.injury_status := Some (status injury_status);
           Projection.baseline_source := Some baseline_source;
           Projection.bovada_line := bovada_line |}
    end.

End WithSquareRoot.

End Projections.

(** ** The store's upsert-on-conflict interface *)

Module Storage.

(** Upsert of one row: a stored row with the same conflict key is
    overwritten in place, otherwise the row is inserted. *)
Fixpoint upsert_row {A K} `{EqDecision K}
    (on_conflict : A -> K) (row : A) (table : list A) : list A :=
  match table with
  | [] => [row]
  | r :: rest =>
      if decide (on_conflict r = on_conflict row) then row :: rest
      else r :: upsert_row on_conflict row rest
  end.

(** [table.upsert(chunk, on_conflict=...)] *)
Definition upsert {A K} `{EqDecision K}
    (on_conflict : A -> K) (chunk : list A) (table : list A) : list A :=
  foldl (fun t row => upsert_row on_conflict row t) table chunk.

(** [rows[idx : idx + size] for idx in range(0, len(rows), size)];
    [fuel] bounds the number of chunks. *)
Fixpoint chunked {A} (fuel size : nat) (rows : list A) : list (list A) :=
  match fuel, rows with
  | _, [] => []
  | O, _ => []
  | S fuel', _ => take size rows :: chunked fuel' size (drop size rows)
  end.

(** The upsert loop of both builders: chunks of 100 rows. *)
Definition upsert_chunks {A K} `{EqDecision K}
    (on_conflict : A -> K) (rows : list A) (table : list A) : list A :=
  foldl (fun t chunk => upsert on_conflict chunk t) table
        (chunked (length rows) 100 rows).

End Storage.

(** The command-line arguments of both workers. *)
Module Args.
Record t := {
  sport : option string;
  hours : Z;
  limit : Z;
  verbose : bool
}.
End Args.

(** ** [workers/build_projection_snapshots.py] *)

Module ProjectionSnapshots.

Import Projections.

Definition Key : Type := string * string * string.

(** One iteration of the loop of [_dedupe_props]; the accumulator is
    [(latest, bovada_lines)]. *)
Definition dedupe_step
    (acc : gmap Key Quote.t * gmap Key Q) (prop : Quote.t)
  : gmap Key Quote.t * gmap Key Q :=
  let '(latest, bovada_lines) := acc in
  if Py.truthy_str (Quote.player_id prop)
     && Py.truthy_str (Quote.game_id prop)
     && Py.truthy_str (Quote.prop_type prop)
  then
    let key : Key :=
      (Py.or_empty (Quote.player_id prop),
       Py.or_empty (Quote.game_id prop),
       Py.or_empty (Quote.prop_type prop)) in
    let created_at := Py.or_empty (Quote.created_at prop) in
    let latest :=
      match latest !! key with
      | None => <[key := prop]> latest
      | Some old =>
          if Py.str_gt created_at (Py.or_empty (Quote.created_at old))
          then <[key := prop]> latest
          else latest
      end in
    let bovada_lines :=
      match Quote.book prop, Quote.line prop with
      | Some b, Some l =>
          if String.eqb b "Bovada" then <[key := l]> bovada_lines
          else bovada_lines
      | _, _ => bovada_lines
      end in
    (latest, bovada_lines)
  else acc.

Definition _dedupe_props (props : list Quote.t)
  : gmap Key Quote.t * gmap Key Q :=
  foldl dedupe_step (∅, ∅) props.

Definition _resolve_matchup (player_team : option string) (game : option Game.t)
  : option string * option bool :=
  match game with
  | None => (None, None)
  | Some game =>
      let home_team := Game.home_team game in
      let away_team := Game.away_team game in
      let '(opponent, is_home) :=
        if Py.truthy_str player_team then
          if decide (player_team = home_team) then (away_team, Some true)
          else if decide (player_team = away_team) then (home_team, Some false)
          else (None, None)
        else (None, None) in
      match opponent with
      | Some _ => (opponent, is_home)
      | None =>
          let opponent :=
            if Py.truthy_str away_team then away_team else home_team in
          (opponent, Some (bool_decide (opponent = away_team)))
      end
  end.

(** One row of [player_projection_snapshots]. *)
Module Snapshot.
Record t := {
    player_id : string;
    game_id : string;
    sport : option string;
    prop_type : string;
    opponent : option string;
    is_home : option bool;
    projected_line : Q;
    confidence : Q;
    baseline_source : option string;
    bovada_line : option Q;
    factors : option Factors.t;
    sample_size : Z;
    injury_status : option string;
    rest_days : option Z;
    source_prop_id : string;
    snapshot_version : string;
    snapshot_at : string;
    created_at : string;
    updated_at : string
  }.

  (** The conflict key of the upsert: ["player_id,game_id,prop_type"]. *)
Definition key (s : t) : Key := (player_id s, game_id s, prop_type s).
End Snapshot.

(** The sport filter on the fetched quotes. *)
Definition sport_matches
    (sport : string) (players_map : gmap string Player.t) (prop : Quote.t)
  : bool :=
  let player_sport :=
    match Quote.player_id prop with
    | Some pid =>
        match players_map !! pid with
        | Some player => Player.sport player
        | None => None
        end
    | None => None
    end in
  if String.eqb sport "Esports" then
    match player_sport with
    | Some s => bool_decide (s ∈ ["CS2"; "LoL"; "Dota2"; "Valorant"])
    | None => false
    end
  else bool_decide (player_sport = Some sport).

(** The [if args.sport:] block. *)
Definition filter_by_sport
  (args : Args.t) (players_map : gmap string Player.t) (props : list Quote.t)
: list Quote.t :=
if Py.truthy_str (Args.sport args)
then List.filter (sport_matches (Py.or_empty (Args.sport args)) players_map) props
else props.

Section WithSquareRoot.

Variable pow_half : Q -> Q.

  (** The body of the loop over [latest_props.items()]: the snapshot of
      one key, or [None] when the loop continues without a row. *)
Definition snapshot_of
      (db : Store) (players_map : gmap string Player.t)
      (games_map : gmap string Game.t) (bovada_lines : gmap Key Q)
      (now_iso : string) (item : Key * Quote.t)
    : option Snapshot.t :=
    let '((player_id, game_id, prop_type) as key, prop) := item in
    match players_map !! player_id, games_map !! game_id with
    | Some player, Some game =>
        let '(opponent, is_home) :=
          _resolve_matchup (Player.team player) (Some game) in
        let projection :=
          calculate_projection pow_half db player_id prop_type opponent
            (default true is_home) (Some game_id) (bovada_lines !! key) in
        match Projection.projected_line projection with
        | None => None
        | Some projected_line =>
            Some
              {| Snapshot.player_id := player_id;
                 Snapshot.game_id := game_id;
                 Snapshot.sport := Player.sport player;
                 Snapshot.prop_type := prop_type;
                 Snapshot.opponent := opponent;
                 Snapshot.is_home := is_home;
                 Snapshot.projected_line := projected_line;
                 Snapshot.confidence := Projection.confidence projection;
                 Snapshot.baseline_source :=
                   Projection.baseline_source projection;
                 Snapshot.bovada_line := Projection.bovada_line projection;
                 Snapshot.factors := Projection.factors projection;
                 Snapshot.sample_size := Projection.sample_size projection;
                 Snapshot.injury_status := Projection.injury_status projection;
                 Snapshot.rest_days :=
                   match Projection.factors projection with
                   | Some factors => Factors.rest_days factors
                   | None => None
                   end;
                 Snapshot.source_prop_id := Quote.id prop;
                 Snapshot.snapshot_version := "v1";
                 Snapshot.snapshot_at := now_iso;
                 Snapshot.created_at := now_iso;
                 Snapshot.updated_at := now_iso |}
        end
    | _, _ => None
    end.

  (** The rows [build_snapshots] collects in [snapshots_to_upsert], from
      the fetched quotes and the hydrated player and game maps. *)
Definition snapshots_to_upsert
      (args : Args.t) (db : Store) (props : list Quote.t)
      (players_map : gmap string Player.t) (games_map : gmap string Game.t)
      (now_iso : string)
    : list Snapshot.t :=
    let props := filter_by_sport args players_map props in
    let '(latest_props, bovada_lines) := _dedupe_props props in
    omap (snapshot_of db players_map games_map bovada_lines now_iso)
         (map_to_list latest_props).

  (** [build_snapshots]: the table [player_projection_snapshots] after
      the run. *)
Definition build_snapshots
      (args : Args.t) (db : Store) (props : list Quote.t)
      (players_map : gmap string Player.t) (games_map : gmap string Game.t)
      (now_iso : string) (table : list Snapshot.t)
    : list Snapshot.t :=
    Storage.upsert_chunks Snapshot.key
      (snapshots_to_upsert args db props players_map games_map now_iso) table.

End WithSquareRoot.

End ProjectionSnapshots.

(** ** [workers/build_prop_feed_snapshots.py] *)

Module PropFeed.

Import Projections.

Local Open Scope Q_scope.

(** The key of [_dedupe_props]:
    [(player_id, game_id, prop_type, float(line), book)]. *)
Definition Key : Type := string * string * string * Qc * string.

(** The key of a quote, or [None] when the loop skips the quote. *)
Definition key_of (prop : Quote.t) : option Key :=
  match Quote.line prop with
  | Some line =>
      if Py.truthy_str (Quote.player_id prop)
         && Py.truthy_str (Quote.game_id prop)
         && Py.truthy_str (Quote.prop_type prop)
         && Py.truthy_str (Quote.book prop)
      then Some (Py.or_empty (Quote.player_id prop),
                 Py.or_empty (Quote.game_id prop),
                 Py.or_empty (Quote.prop_type prop),
                 Q2Qc line,
                 Py.or_empty (Quote.book prop))
      else None
  | None => None
  end.

(** One iteration of the loop of [_dedupe_props]. *)
Definition dedupe_step (latest : gmap Key Quote.t) (prop : Quote.t)
  : gmap Key Quote.t :=
  match key_of prop with
  | None => latest
  | Some key =>
      let created_at := Py.or_empty (Quote.created_at prop) in
      match latest !! key with
      | None => <[key := prop]> latest
      | Some old =>
          if Py.str_gt created_at (Py.or_empty (Quote.created_at old))
          then <[key := prop]> latest
          else latest
      end
  end.

(** The dictionary [latest] when the loop ends. *)
Definition latest_of (props : list Quote.t) : gmap Key Quote.t :=
  foldl dedupe_step ∅ props.

Definition _dedupe_props (props : list Quote.t) : list Quote.t :=
  snd <$> map_to_list (latest_of props).

Definition _resolve_matchup (player_team : option string) (game : option Game.t)
  : option string * option bool :=
  match game with
  | None => (None, None)
  | Some game =>
      let home_team := Game.home_team game in
      let away_team := Game.away_team game in
      let '(opponent, is_home) :=
        if Py.truthy_str player_team then
          if decide (player_team = home_team) then (away_team, Some true)
          else if decide (player_team = away_team) then (home_team, Some false)
          else (None, None)
        else (None, None) in
      match opponent with
      | Some _ => (opponent, is_home)
      | None =>
          let opponent :=
            if Py.truthy_str away_team then away_team else home_team in
          (opponent, Some (bool_decide (opponent = away_team)))
      end
  end.

(** [get_prop_value_from_stat(stat, prop.get("prop_type"))]: no branch of
    the extractor matches [None]. *)
Definition prop_value (stat : Stat.t) (prop_type : option string) : option Q :=
  match prop_type with
  | Some prop_type => get_prop_value_from_stat stat prop_type
  | None => None
  end.

Definition _build_sparkline_values
    (stats : list Stat.t) (prop_type : option string) (limit : nat) : list Q :=
  omap (fun stat => prop_value stat prop_type) (reverse (take limit stats)).

Module MatchupStats.
Record t := { avg_vs_opponent : Q; games : Z }.
End MatchupStats.

Definition _calculate_matchup_stats
    (stats : list Stat.t) (opponent prop_type : option string)
  : option MatchupStats.t :=
  if Py.truthy_str opponent then
    let values :=
      omap (fun stat => prop_value stat prop_type)
           (filter (fun stat => Stat.opponent stat = opponent) stats) in
    match values with
    | [] => None
    | _ =>
        Some {| MatchupStats.avg_vs_opponent :=
                  Py.sum values / inject_Z (Py.len values);
                MatchupStats.games := Py.len values |}
    end
  else None.

(** The [edge_data] dictionary. *)
Module Edge.
Record t := { edge : Q; side : string; prob : Q; odds : option Z }.
End Edge.

(** The [hit_rate] dictionary. *)
Module HitRate.
Record t := {
    total_games : Z;
    over_pct : Q;
    under_pct : Q;
    pushes : Z;
    over_count : Z;
    under_count : Z
  }.
End HitRate.

(** [sum(1 for v in prop_values if v > line)] and its mirror. *)
Definition hits_over (line : Q) (prop_values : list Q) : Z :=
  Py.len (List.filter (fun v => Py.Qltb line v) prop_values).

Definition hits_under (line : Q) (prop_values : list Q) : Z :=
  Py.len (List.filter (fun v => Py.Qltb v line) prop_values).

Definition smoothing : Q := 1 # 10.

(** The smoothed over and under probabilities, before and after the
    normalisation of the pair. *)
Definition smoothed_prob (hits total_games : Z) : Q :=
  (inject_Z hits + smoothing) / (inject_Z total_games + smoothing * 2).

Definition win_probabilities (hits_over hits_under total_games : Z) : Q * Q :=
  let over_prob := smoothed_prob hits_over total_games in
  let under_prob := smoothed_prob hits_under total_games in
  let total_prob := over_prob + under_prob in
  if Py.Qltb 0 total_prob
  then (over_prob / total_prob, under_prob / total_prob)
  else (over_prob, under_prob).

(** [ev(prob, int(price)) if price else None] *)
Definition side_ev (prob : Q) (price : option Z) : option Q :=
  match price with
  | Some p => if Py.truthy_int price then Some (Ev.ev prob p) else None
  | None => None
  end.

(** The loop collecting [prop_values]: the values that are not [None]. *)
Definition extracted_values (stats : list Stat.t) (prop_type : option string)
  : list Q :=
  omap (fun stat => prop_value stat prop_type) stats.

Definition _calculate_edge_and_hitrate (prop : Quote.t) (stats : list Stat.t)
  : option Edge.t * option HitRate.t :=
  match stats, Quote.line prop with
  | [], _ => (None, None)
  | _, None => (None, None)
  | _, Some line =>
      let prop_type := Quote.prop_type prop in
      let prop_values := extracted_values stats prop_type in
      match prop_values with
      | [] => (None, None)
      | _ =>
          let total_games := Py.len prop_values in
          let hits_over := hits_over line prop_values in
          let hits_under := hits_under line prop_values in
          let pushes := (total_games - hits_over - hits_under)%Z in
          let '(over_prob, under_prob) :=
            win_probabilities hits_over hits_under total_games in
          let over_price := Quote.over_price prop in
          let under_price := Quote.under_price prop in
          let over_ev := side_ev over_prob over_price in
          let under_ev := side_ev under_prob under_price in
          let over_edge o :=
            {| Edge.edge := o; Edge.side := "over";
               Edge.prob := over_prob; Edge.odds := over_price |} in
          let under_edge u :=
            {| Edge.edge := u; Edge.side := "under";
               Edge.prob := under_prob; Edge.odds := under_price |} in
          let edge_data :=
            match over_ev, under_ev with
            | Some o, None => Some (over_edge o)
            | Some o, Some u =>
                if Qle_bool u o then Some (over_edge o) else Some (under_edge u)
            | None, Some u => Some (under_edge u)
            | None, None => None
            end in
          let hit_rate :=
            {| HitRate.total_games := total_games;
               HitRate.over_pct :=
                 Py.round (inject_Z hits_over / inject_Z total_games * 100) 1;
               HitRate.under_pct :=
                 Py.round (inject_Z hits_under / inject_Z total_games * 100) 1;
               HitRate.pushes := pushes;
               HitRate.over_count := hits_over;
               HitRate.under_count := hits_under |} in
          (edge_data, Some hit_rate)
      end
  end.

(** [services/line_helpers.py]: the heuristic DFS line. *)
Definition adjust_for_dfs_line (book_line : Q) (prop_type : string) : Q :=
  let adjustment :=
    if String.eqb prop_type "points" then 3 # 2
    else if String.eqb prop_type "rebounds" then 1
    else if String.eqb prop_type "assists" then 1
    else if String.eqb prop_type "pra" then 5 # 2
    else if String.eqb prop_type "threes" then 1 # 2
    else 1 in
  let dfs_line := book_line + adjustment in
  inject_Z (Py.round_half_even (dfs_line * 2)) / 2.

(** The [metadata.projection_snapshot] dictionary of a row. *)
Module ProjectionMeta.
Record t := {
    injury_status : option string;
    rest_days : option Z;
    factors : option Factors.t
  }.
End ProjectionMeta.

(** The [metadata] dictionary of a row. *)
Module Metadata.
Record t := {
    edge : option Edge.t;
    hit_rate : option HitRate.t;
    sparkline_values : list Q;
    matchup_stats : option MatchupStats.t;
    player_position : option string;
    projection_snapshot : option ProjectionMeta.t
  }.
End Metadata.

(** One row of [prop_feed_snapshots]. *)
Module Row.
Record t := {
    prop_id : string;
    player_id : string;
    game_id : string;
    sport : option string;
    player_name : option string;
    team : option string;
    opponent : option string;
    is_home : option bool;
    prop_type : string;
    line : option Q;
    over_price : option Z;
    under_price : option Z;
    book : option string;
    projection_line : option Q;
    projection_confidence : option Q;
    projection_baseline : option string;
    projection_bovada_line : option Q;
    edge : option Q;
    edge_side : option string;
    edge_prob : option Q;
    ev_odds : option Z;
    hitrate_over_pct : option Q;
    hitrate_under_pct : option Q;
    hitrate_games : option Z;
    dfs_line : option Q;
    snapshot_at : string;
    source_prop_created_at : option string;
    metadata : Metadata.t;
    created_at : string;
    updated_at : string
  }.

  (** The (player, game, prop-category, line, book) key of a row, when
      its line and book are present. *)
Definition natural_key (r : t) : option Key :=
    match line r, book r with
    | Some l, Some b => Some (player_id r, game_id r, prop_type r, Q2Qc l, b)
    | _, _ => None
    end.
End Row.

(** The reference data [services/data_cache.py] and
    [services/line_helpers.py] hand to one run of the builder. *)
Record Hydrated := {
  players_map : gmap string Player.t;
  games_map : gmap string Game.t;
  stats_map : gmap string (list Stat.t);
  projection_map : gmap ProjectionSnapshots.Key ProjectionSnapshots.Snapshot.t;
  get_scraped_dfs_line : string -> string -> string -> string -> option Q
}.

(** The body of the loop over the deduplicated quotes: the row of one
    quote, or [None] when the loop continues without a row. *)
Definition row_of (h : Hydrated) (now_iso : string) (prop : Quote.t)
  : option Row.t :=
  if Py.truthy_str (Quote.player_id prop)
     && Py.truthy_str (Quote.game_id prop)
     && Py.truthy_str (Quote.prop_type prop)
  then
    let player_id := Py.or_empty (Quote.player_id prop) in
    let game_id := Py.or_empty (Quote.game_id prop) in
    let prop_type := Py.or_empty (Quote.prop_type prop) in
    match players_map h !! player_id, games_map h !! game_id with
    | Some player, Some game =>
        let stats := default [] (stats_map h !! player_id) in
        let '(edge_data, hit_rate) := _calculate_edge_and_hitrate prop stats in
        let '(opponent, is_home) :=
          _resolve_matchup (Player.team player) (Some game) in
        let projection := projection_map h !! (player_id, game_id, prop_type) in
        let dfs_line :=
          match Quote.line prop with
          | None => None
          | Some line =>
              match get_scraped_dfs_line h player_id game_id prop_type "prizepicks" with
              | Some l => Some l
              | None =>
                  match get_scraped_dfs_line h player_id game_id prop_type "underdog" with
                  | Some l => Some l
                  | None => Some (adjust_for_dfs_line line prop_type)
                  end
              end
          end in
        Some
          {| Row.prop_id := Quote.id prop;
             Row.player_id := player_id;
             Row.game_id := game_id;
             Row.sport := Player.sport player;
             Row.player_name := Player.name player;
             Row.team := Player.team player;
             Row.opponent := opponent;
             Row.is_home := is_home;
             Row.prop_type := prop_type;
             Row.line := Quote.line prop;
             Row.over_price := Quote.over_price prop;
             Row.under_price := Quote.under_price prop;
             Row.book := Quote.book prop;
             Row.projection_line :=
               ProjectionSnapshots.Snapshot.projected_line <$> projection;
             Row.projection_confidence :=
               ProjectionSnapshots.Snapshot.confidence <$> projection;
             Row.projection_baseline :=
               match projection with
               | Some p => ProjectionSnapshots.Snapshot.baseline_source p
               | None => None
               end;
             Row.projection_bovada_line :=
               match projection with
               | Some p => ProjectionSnapshots.Snapshot.bovada_line p
               | None => None
               end;
             Row.edge := Edge.edge <$> edge_data;
             Row.edge_side := Edge.side <$> edge_data;
             Row.edge_prob := Edge.prob <$> edge_data;
             Row.ev_odds :=
               match edge_data with
               | Some e => Edge.odds e
               | None => None
               end;
             Row.hitrate_over_pct := HitRate.over_pct <$> hit_rate;
             Row.hitrate_under_pct := HitRate.under_pct <$> hit_rate;
             Row.hitrate_games := HitRate.total_games <$> hit_rate;
             Row.dfs_line := dfs_line;
             Row.snapshot_at := now_iso;
             Row.source_prop_created_at := Quote.created_at prop;
             Row.metadata :=
               {| Metadata.edge := edge_data;
                  Metadata.hit_rate := hit_rate;
                  Metadata.sparkline_values :=
                    _build_sparkline_values stats (Quote.prop_type prop) 10;
                  Metadata.matchup_stats :=
                    _calculate_matchup_stats stats opponent (Quote.prop_type prop);
                  Metadata.player_position := Player.position player;
                  Metadata.projection_snapshot :=
                    match projection with
                    | Some p =>
                        Some
                          {| ProjectionMeta.injury_status :=
                               ProjectionSnapshots.Snapshot.injury_status p;
                             ProjectionMeta.rest_days :=
                               ProjectionSnapshots.Snapshot.rest_days p;
                             ProjectionMeta.factors :=
                               ProjectionSnapshots.Snapshot.factors p |}
                    | None => None
                    end |};
             Row.created_at := now_iso;
             Row.updated_at := now_iso |}
    | _, _ => None
    end
  else None.

(** The rows [build_snapshots] collects, from the fetched quotes. *)
Definition rows_of
    (args : Args.t) (props : list Quote.t) (h : Hydrated) (now_iso : string)
  : list Row.t :=
  let props := ProjectionSnapshots.filter_by_sport args (players_map h) props in
  let props := _dedupe_props props in
  omap (row_of h now_iso) props.

(** [build_snapshots]: the table [prop_feed_snapshots] after the run;
    the upsert is issued with [on_conflict="prop_id"]. *)
Definition build_snapshots
    (args : Args.t) (props : list Quote.t) (h : Hydrated) (now_iso : string)
    (table : list Row.t)
  : list Row.t :=
  Storage.upsert_chunks Row.prop_id (rows_of args props h now_iso) table.

End PropFeed.

(** ** Binary64 arithmetic

  The interpreter computes probabilities and expected values in binary64
  floating point: every operation returns the representable number
  nearest to the exact result, ties to even.  The modules above compute
  with exact rationals.  The modules below repeat the expected value and
  the edge and hit-rate calculator on the kernel's binary64 numbers, for
  the properties that depend on how two computed numbers compare. *)

Module Py64.

(** An integer as a number with an exact binary representation. *)
Definition exact_int (z : Z) : spec_float :=
  match z with
  | Z0 => S754_zero false
  | Zpos p => S754_finite false p 0
  | Zneg p => S754_finite true p 0
  end.

(** The binary64 number nearest to the quotient of the integers [a] and
    [b], ties to even ([b] is not zero). *)
Definition nearest (a b : Z) : float :=
  SF2Prim (SFdiv prec emax (exact_int a) (exact_int b)).

(** [float(z)] on an integer, and the conversion of an integer operand of
    a float operation. *)
Definition float_of_int (z : Z) : float := nearest z 1.

(** [a / b] on two integers: the true division rounds the exact quotient. *)
Definition true_div (a b : Z) : float := nearest a b.

(** [float(x)] on a number of a decoded JSON document, integer or decimal:
    the binary64 number nearest to the number the document writes. *)
Definition to_float (x : Q) : float := nearest (Qnum x) (Zpos (Qden x)).

(** [round(x, ndigits)] on a float: the decimal with [ndigits] places
    nearest to the exact value of [x], ties to even, converted back to
    binary64 with the sign of [x]; zeros, infinities and NaN are returned
    unchanged. *)
Definition round (x : float) (ndigits : nat) : float :=
  match Prim2SF x with
  | S754_finite s m e =>
      let y := to_float (Py.round (inject_Z (Zpos m) * 2 ^ e)%Q ndigits) in
      if s then (- y)%float else y
  | _ => x
  end.

End Py64.

(** *** [utils/ev.py] in binary64 *)

Module Ev64.

Definition ev (true_prob : float) (american_odds : Z) : float :=
  let payout :=
    if (0 <? american_odds)%Z
    then Py64.true_div american_odds 100
    else Py64.true_div 100 (- american_odds) in
  ((true_prob * payout) - (1 - true_prob))%float.

End Ev64.

(** *** [_calculate_edge_and_hitrate] in binary64 *)

Module PropFeed64.

(** The [edge_data] dictionary. *)
Module Edge.
Record t := { edge : float; side : string; prob : float; odds : option Z }.
End Edge.

(** The [hit_rate] dictionary. *)
Module HitRate.
Record t := {
    total_games : Z;
    over_pct : float;
    under_pct : float;
    pushes : Z;
    over_count : Z;
    under_count : Z
  }.
End HitRate.

(** The loop collecting [prop_values]: [float(value)] of every value that
    is not [None]. *)
Definition extracted_values (stats : list Stat.t) (prop_type : option string)
  : list float :=
  Py64.to_float <$> PropFeed.extracted_values stats prop_type.

(** [sum(1 for v in prop_values if v > line)] and its mirror. *)
Definition hits_over (line : float) (prop_values : list float) : Z :=
  Py.len (List.filter (fun v => (line <? v)%float) prop_values).

Definition hits_under (line : float) (prop_values : list float) : Z :=
  Py.len (List.filter (fun v => (v <? line)%float) prop_values).

Definition smoothing : float := Py64.to_float (1 # 10).

Definition smoothed_prob (hits total_games : Z) : float :=
  ((Py64.float_of_int hits + smoothing)
   / (Py64.float_of_int total_games + smoothing * 2))%float.

Definition win_probabilities (hits_over hits_under total_games : Z)
  : float * float :=
  let over_prob := smoothed_prob hits_over total_games in
  let under_prob := smoothed_prob hits_under total_games in
  let total_prob := (over_prob + under_prob)%float in
  if (0 <? total_prob)%float
  then ((over_prob / total_prob)%float, (under_prob / total_prob)%float)
  else (over_prob, under_prob).

(** [ev(prob, int(price)) if price else None] *)
Definition side_ev (prob : float) (price : option Z) : option float :=
  match price with
  | Some p => if Py.truthy_int price then Some (Ev64.ev prob p) else None
  | None => None
  end.

Definition _calculate_edge_and_hitrate (prop : Quote.t) (stats : list Stat.t)
  : option Edge.t * option HitRate.t :=
  match stats, Quote.line prop with
  | [], _ => (None, None)
  | _, None => (None, None)
  | _, Some line =>
      let prop_type := Quote.prop_type prop in
      let line := Py64.to_float line in
      let prop_values := extracted_values stats prop_type in
      match prop_values with
      | [] => (None, None)
      | _ =>
          let total_games := Py.len prop_values in
          let hits_over := hits_over line prop_values in
          let hits_under := hits_under line prop_values in
          let pushes := (total_games - hits_over - hits_under)%Z in
          let '(over_prob, under_prob) :=
            win_probabilities hits_over hits_under total_games in
          let over_price := Quote.over_price prop in
          let under_price := Quote.under_price prop in
          let over_ev := side_ev over_prob over_price in
          let under_ev := side_ev under_prob under_price in
          let over_edge o :=
            {| Edge.edge := o; Edge.side := "over";
               Edge.prob := over_prob; Edge.odds := over_price |} in
          let under_edge u :=
            {| Edge.edge := u; Edge.side := "under";
               Edge.prob := under_prob; Edge.odds := under_price |} in
          let edge_data :=
            match over_ev, under_ev with
            | Some o, None => Some (over_edge o)
            | Some o, Some u =>
                if (u <=? o)%float then Some (over_edge o)
                else Some (under_edge u)
            | None, Some u => Some (under_edge u)
            | None, None => None
            end in
          let hit_rate :=
            {| HitRate.total_games := total_games;
               HitRate.over_pct :=
                 Py64.round (Py64.true_div hits_over total_games * 100)%float 1;
               HitRate.under_pct :=
                 Py64.round (Py64.true_div hits_under total_games * 100)%float 1;
               HitRate.pushes := pushes;
               HitRate.over_count := hits_over;
               HitRate.under_count := hits_under |} in
          (edge_data, Some hit_rate)
      end
  end.

End PropFeed64.

(** ** The specification's formulas

  These definitions follow the words of the specification; the theorems
  compare them with the functions translated from the source. *)

Module Spec.

Local Open Scope Q_scope.
Local Open Scope list_scope.

(** The sum of a list of numbers. *)
Fixpoint Qsum (l : list Q) : Q :=
  match l with
  | [] => 0
  | x :: l' => x + Qsum l'
  end.

(** Weight of the value at position [i] (from the front, most recent
    first) among [n] records: [1 + (n - i) * recency_weight]. *)
Definition weight (n i : nat) (recency_weight : Q) : Q :=
  1 + inject_Z (Z.of_nat n - Z.of_nat i) * recency_weight.

(** The values that can be extracted from indexed records, each with the
    position of its record. *)
Definition extracted (prop_type : string) (records : list (nat * Stat.t))
  : list (nat * Q) :=
  omap (fun ix =>
          match Projections.get_prop_value_from_stat (snd ix) prop_type with
          | Some v => Some (fst ix, v)
          | None => None
          end) records.

(** [sum(v_i * w_i) / sum(w_i)] over the extracted values. *)
Definition weighted_average
    (stats : list Stat.t) (prop_type : string) (recency_weight : Q) : Q :=
  let n := length stats in
  let values := extracted prop_type (Projections.enumerate stats) in
  Qsum (map (fun iv => snd iv * weight n (fst iv) recency_weight) values)
  / Qsum (map (fun iv => weight n (fst iv) recency_weight) values).

(** [x] clamped to the interval from [lo] to [hi]. *)
Definition clamp (lo hi x : Q) : Q :=
if Py.Qltb x lo then lo else if Py.Qltb hi x then hi else x.

(** The severity heuristics: out=100, doubtful=50, questionable=25,
  probable=10, and no impact for any other severity. *)
Definition severity_impact (severity : string) : Q :=
if String.eqb severity "out" then 100
else if String.eqb severity "doubtful" then 50
else if String.eqb severity "questionable" then 25
else if String.eqb severity "probable" then 10
else 0.

(** The impact percentage of an injury record: its explicit percentage
  when one is set (present and not zero), the heuristic of its severity,
  in lower case, otherwise. *)
Definition impact_percentage (injury : Injury.t) : Q :=
let heuristic :=
  severity_impact (Py.lower (Py.or_empty (Injury.severity injury))) in
match Injury.impact_percentage injury with
| Some p => if Qeq_bool p 0 then heuristic else p
| None => heuristic
end.

(** The player has no active injury record in the store. *)
Definition no_active_injury (db : Store) (player_id : string) : Prop :=
forall rows, player_injuries db = Some rows ->
  forall r, r ∈ rows ->
    ~ (Injury.player_id r = player_id /\ Injury.status r = Some "active").

(** The timestamp a quote is compared by: a missing one is the empty
  string. *)
Definition timestamp (q : Quote.t) : string := Py.or_empty (Quote.created_at q).

(** [p] is the quote of [props] with key [key] whose timestamp is
  lexicographically greatest; among several greatest ones, the first. *)
Definition greatest_for (key : PropFeed.Key) (props : list Quote.t) (p : Quote.t)
: Prop :=
exists before after,
  props = before ++ p :: after
  /\ PropFeed.key_of p = Some key
  /\ (forall q, q ∈ before -> PropFeed.key_of q = Some key ->
        strict String.le (timestamp q) (timestamp p))
  /\ (forall q, q ∈ after -> PropFeed.key_of q = Some key ->
        String.le (timestamp q) (timestamp p)).

(** The state of the dictionary [latest] of the prop feed deduplication
  after the quotes [props]. *)
Definition dedupe_invariant
  (props : list Quote.t) (latest : gmap PropFeed.Key Quote.t) : Prop :=
forall key,
  match latest !! key with
  | Some p => greatest_for key props p
  | None => forall q, q ∈ props -> PropFeed.key_of q <> Some key
  end.

(** The number of values above the line, and the number below it. *)
Fixpoint games_over (line : Q) (values : list Q) : Z :=
  match values with
  | [] => 0
  | v :: values' =>
      ((if Qlt_le_dec line v then 1 else 0) + games_over line values')%Z
  end.

Fixpoint games_under (line : Q) (values : list Q) : Z :=
  match values with
  | [] => 0
  | v :: values' =>
      ((if Qlt_le_dec v line then 1 else 0) + games_under line values')%Z
  end.

(** The (player, game, prop-category, line, book) key of a quote: the
    quote has one when it names a player, a game, a prop category and a
    book, none of them empty, and has a line. *)
Definition feed_key_of (q : Quote.t)
  : option (string * string * string * Qc * string) :=
  match Quote.player_id q, Quote.game_id q, Quote.prop_type q,
        Quote.line q, Quote.book q with
  | Some player, Some game, Some category, Some line, Some book =>
      if decide (player <> "" /\ game <> "" /\ category <> "" /\ book <> "")
      then Some (player, game, category, Q2Qc line, book)
      else None
  | _, _, _, _, _ => None
  end.

(** The store holds no game log of the player. *)
Definition no_game_log (db : Store) (player_id : string) : Prop :=
  forall rows, player_game_stats db = Some rows ->
    forall s, s ∈ rows -> Stat.player_id s <> player_id.

(** The Bovada line a quote stands for in the projection snapshot builder:
    the line of a Bovada quote whose player, game and prop type are
    present, under the key of that quote. *)
Definition bovada_entry (q : Quote.t) : option (ProjectionSnapshots.Key * Q) :=
  if Py.truthy_str (Quote.player_id q)
     && Py.truthy_str (Quote.game_id q)
     && Py.truthy_str (Quote.prop_type q)
  then
    match Quote.book q, Quote.line q with
    | Some b, Some l =>
        if decide (b = "Bovada")
        then Some ((Py.or_empty (Quote.player_id q),
                    Py.or_empty (Quote.game_id q),
                    Py.or_empty (Quote.prop_type q)), l)
        else None
    | _, _ => None
    end
  else None.

(** [l] is the line of the last quote of [props] that stands for a Bovada
    line under [key]. *)
Definition last_bovada (key : ProjectionSnapshots.Key) (props : list Quote.t) (l : Q)
  : Prop :=
  exists before q after,
    props = before ++ q :: after
    /\ bovada_entry q = Some (key, l)
    /\ forall q' l', q' ∈ after -> bovada_entry q' <> Some (key, l').

(** The key of a quote in the projection snapshot builder, or [None] when
    its loop skips the quote. *)
Definition projection_key_of (q : Quote.t) : option ProjectionSnapshots.Key :=
  if Py.truthy_str (Quote.player_id q)
     && Py.truthy_str (Quote.game_id q)
     && Py.truthy_str (Quote.prop_type q)
  then Some (Py.or_empty (Quote.player_id q),
             Py.or_empty (Quote.game_id q),
             Py.or_empty (Quote.prop_type q))
  else None.

(** [p] is the quote of [props] with key [key], under the key function
    [key_of], whose timestamp is lexicographically greatest; among several
    greatest ones, the first. *)
Definition greatest_by {K} (key_of : Quote.t -> option K)
    (key : K) (props : list Quote.t) (p : Quote.t) : Prop :=
  exists before after,
    props = before ++ p :: after
    /\ key_of p = Some key
    /\ (forall q, q ∈ before -> key_of q = Some key ->
          strict String.le (timestamp q) (timestamp p))
    /\ (forall q, q ∈ after -> key_of q = Some key ->
          String.le (timestamp q) (timestamp p)).

End Spec.

(** ** Concrete inputs used by the examples *)

Module Examples.

(** A game log row that records points only. *)
Definition game_log (player opponent : string) (date : Z) (pts : option Q)
  : Stat.t :=
  {| Stat.player_id := player;
     Stat.opponent := Some opponent;
     Stat.home := Some true;
     Stat.date := date;
     Stat.points := pts;
     Stat.rebounds := None;
     Stat.assists := None;
     Stat.three_pointers_made := None;
     Stat.steals := None;
     Stat.blocks := None;
     Stat.turnovers := None;
     Stat.headshots := None;
     Stat.first_kills := None;
     Stat.passing_yards := None;
     Stat.rushing_yards := None;
     Stat.receptions := None;
     Stat.receiving_yards := None;
     Stat.passing_touchdowns := None;
     Stat.rushing_touchdowns := None |}.

(** A points quote of player [p1] in game [g1]. *)
Definition quote (id book : string) (line : Q) (price : Z) (created_at : string)
  : Quote.t :=
  {| Quote.id := id;
     Quote.player_id := Some "p1";
     Quote.game_id := Some "g1";
     Quote.prop_type := Some "points";
     Quote.line := Some line;
     Quote.over_price := Some price;
     Quote.under_price := Some price;
     Quote.book := Some book;
     Quote.created_at := Some created_at |}.

(** Historical values 30, 25, 28, 22, 31, most recent first. *)
Definition last_five : list Stat.t :=
  [game_log "p1" "BOS" 5 (Some 30%Q); game_log "p1" "NYK" 4 (Some 25%Q);
   game_log "p1" "MIA" 3 (Some 28%Q); game_log "p1" "LAL" 2 (Some 22%Q);
   game_log "p1" "CHI" 1 (Some 31%Q)].

(** Line 27.5 at -110 on both sides. *)
Definition quote_27_5 : Quote.t :=
  quote "q1" "Bovada" (55 # 2)%Q (-110)%Z "2024-01-02T10:00:00".

(** Line 25 at -110 on both sides. *)
Definition quote_25 : Quote.t :=
  quote "q2" "Bovada" 25%Q (-110)%Z "2024-01-02T10:00:00".

(** Two games over the line 25, one game on it (a push) and one game
    under it. *)
Definition with_push : list Stat.t :=
  [game_log "p1" "BOS" 4 (Some 30%Q); game_log "p1" "NYK" 3 (Some 30%Q);
   game_log "p1" "MIA" 2 (Some 25%Q); game_log "p1" "LAL" 1 (Some 20%Q)].

(** Two games over and one game under the line 25, which is quoted at
    +120 for the over and at +320 for the under. *)
Definition two_over_one_under : list Stat.t :=
  [game_log "p1" "BOS" 3 (Some 30%Q); game_log "p1" "NYK" 2 (Some 30%Q);
   game_log "p1" "MIA" 1 (Some 20%Q)].

Definition quote_120_320 : Quote.t :=
  {| Quote.id := "q3";
     Quote.player_id := Some "p1";
     Quote.game_id := Some "g1";
     Quote.prop_type := Some "points";
     Quote.line := Some 25%Q;
     Quote.over_price := Some 120%Z;
     Quote.under_price := Some 320%Z;
     Quote.book := Some "Bovada";
     Quote.created_at := Some "2024-01-02T10:00:00" |}.

(** One game over the line 25, two games on it and two games under it;
    the line is quoted at +200 for the over and at -175 for the under. *)
Definition one_over_two_under : list Stat.t :=
  [game_log "p1" "BOS" 5 (Some 30%Q); game_log "p1" "NYK" 4 (Some 25%Q);
   game_log "p1" "MIA" 3 (Some 25%Q); game_log "p1" "LAL" 2 (Some 20%Q);
   game_log "p1" "CHI" 1 (Some 20%Q)].

Definition quote_200_175 : Quote.t :=
  {| Quote.id := "q7";
     Quote.player_id := Some "p1";
     Quote.game_id := Some "g1";
     Quote.prop_type := Some "points";
     Quote.line := Some 25%Q;
     Quote.over_price := Some 200%Z;
     Quote.under_price := Some (-175)%Z;
     Quote.book := Some "Bovada";
     Quote.created_at := Some "2024-01-02T10:00:00" |}.

(** A single game with 10 points. *)
Definition one_game : list Stat.t :=
  [game_log "p1" "BOS" 1 (Some 10%Q)].

(** A store that holds game logs only. *)
Definition store_of_stats (rows : list Stat.t) : Store :=
{| player_game_stats := Some rows;
   player_injuries := Some [];
   player_prop_odds := Some [];
   games := Some [] |}.

(** Five games against BOS, 24 points in each. *)
Definition five_vs_bos : list Stat.t :=
[game_log "p1" "BOS" 5 (Some 24%Q); game_log "p2" "BOS" 4 (Some 24%Q);
 game_log "p3" "BOS" 3 (Some 24%Q); game_log "p4" "BOS" 2 (Some 24%Q);
 game_log "p5" "BOS" 1 (Some 24%Q)].

(** Three games against BOS, 24 points in each. *)
Definition three_vs_bos : list Stat.t :=
[game_log "p1" "BOS" 3 (Some 24%Q); game_log "p2" "BOS" 2 (Some 24%Q);
 game_log "p3" "BOS" 1 (Some 24%Q)].

(** Ten games against BOS, 13.2 points on average. *)
Definition ten_vs_bos : list Stat.t :=
[game_log "p1" "BOS" 10 (Some 14%Q); game_log "p2" "BOS" 9 (Some 12%Q);
 game_log "p3" "BOS" 8 (Some 13%Q); game_log "p4" "BOS" 7 (Some 15%Q);
 game_log "p5" "BOS" 6 (Some 11%Q); game_log "p1" "BOS" 5 (Some 14%Q);
 game_log "p2" "BOS" 4 (Some 12%Q); game_log "p3" "BOS" 3 (Some 13%Q);
 game_log "p4" "BOS" 2 (Some 15%Q); game_log "p5" "BOS" 1 (Some 13%Q)].

(** A stand-in for [x ** 0.5]: the square root truncated to three
  decimals. *)
Definition pow_half (x : Q) : Q :=
inject_Z (Z.sqrt (Qfloor (x * 1000000))) / 1000.

(** A store with no row at all. *)
Definition empty_store : Store := store_of_stats [].

(** An active injury of player [p1], severity "Questionable", without an
  explicit impact percentage. *)
Definition questionable : Injury.t :=
{| Injury.player_id := "p1";
   Injury.status := Some "active";
   Injury.severity := Some "Questionable";
   Injury.impact_percentage := None;
   Injury.reported_date := 10;
   Injury.injury_type := Some "ankle";
   Injury.notes := None |}.

(** The last five games of [p1] and the injury above. *)
Definition injured_store : Store :=
{| player_game_stats := Some last_five;
   player_injuries := Some [questionable];
   player_prop_odds := Some [];
   games := Some [] |}.

(** Two Bovada quotes of the same prop, in the order the fetch returns
  them: most recent first. *)
Definition bovada_new : Quote.t :=
quote "b2" "Bovada" (51 # 2)%Q (-110)%Z "2024-01-02T10:00:00".

Definition bovada_old : Quote.t :=
quote "b1" "Bovada" (49 # 2)%Q (-115)%Z "2024-01-01T10:00:00".

Definition bovada_quotes : list Quote.t := [bovada_new; bovada_old].

(** Two quotes with the same player, game, prop, line and book, observed
  one day apart. *)
Definition first_quote : Quote.t :=
quote "q1" "Bovada" (55 # 2)%Q (-110)%Z "2024-01-01T10:00:00".

Definition second_quote : Quote.t :=
quote "q3" "Bovada" (55 # 2)%Q (-120)%Z "2024-01-02T10:00:00".

(** The same prop quoted by another book, a later quote that names no
    book, and a third Bovada quote that carries the timestamp of the
    second one. *)
Definition fanduel_quote : Quote.t :=
  quote "q4" "FanDuel" (55 # 2)%Q (-105)%Z "2024-01-01T09:00:00".

Definition no_book_quote : Quote.t :=
  {| Quote.id := "q6";
     Quote.player_id := Some "p1";
     Quote.game_id := Some "g1";
     Quote.prop_type := Some "points";
     Quote.line := Some (55 # 2)%Q;
     Quote.over_price := Some (-110)%Z;
     Quote.under_price := Some (-110)%Z;
     Quote.book := None;
     Quote.created_at := Some "2024-01-03T10:00:00" |}.

Definition second_again : Quote.t :=
  quote "q5" "Bovada" (55 # 2)%Q (-125)%Z "2024-01-02T10:00:00".

Definition feed_quotes : list Quote.t :=
  [first_quote; second_quote; fanduel_quote; no_book_quote; second_again].

(** Reference data that knows player [p1] and game [g1]. *)
Definition hydrated : PropFeed.Hydrated :=
{| PropFeed.players_map :=
     {[ "p1" := {| Player.id := "p1"; Player.name := Some "Player One";
                   Player.team := Some "LAL"; Player.position := Some "G";
                   Player.sport := Some "NBA" |} ]};
   PropFeed.games_map :=
     {[ "g1" := {| Game.id := "g1"; Game.home_team := Some "LAL";
                   Game.away_team := Some "BOS"; Game.start_time := Some 20%Z |} ]};
   PropFeed.stats_map := ∅;
   PropFeed.projection_map := ∅;
   PropFeed.get_scraped_dfs_line := fun _ _ _ _ => None |}.

Definition no_sport : Args.t :=
{| Args.sport := None; Args.hours := 48; Args.limit := 800;
   Args.verbose := false |}.

(** The feed table after a first run that sees the first quote, and after a
  second run that sees both. *)
Definition table_after_first_run : list PropFeed.Row.t :=
PropFeed.build_snapshots no_sport [first_quote] hydrated "2024-01-01T12:00:00" [].

Definition table_after_second_run : list PropFeed.Row.t :=
PropFeed.build_snapshots no_sport [second_quote; first_quote] hydrated
  "2024-01-02T12:00:00" table_after_first_run.

(** An active injury of player [p1] with the given severity and explicit
  impact percentage. *)
Definition injury (severity : option string) (impact : option Q) : Injury.t :=
{| Injury.player_id := "p1";
   Injury.status := Some "active";
   Injury.severity := severity;
   Injury.impact_percentage := impact;
   Injury.reported_date := 10;
   Injury.injury_type := None;
   Injury.notes := None |}.

Definition store_of_injury (r : Injury.t) : Store :=
{| player_game_stats := Some last_five;
   player_injuries := Some [r];
   player_prop_odds := Some [];
   games := Some [] |}.

End Examples.

(** * Properties *)

Local Open Scope Q_scope.
Local Open Scope list_scope.

(** ** Numbers *)

Lemma Qltb_lt (x y : Q) : Py.Qltb x y = true <-> x < y.
Proof.
unfold Py.Qltb. rewrite negb_true_iff.
destruct (Qle_bool y x) eqn:E.
- apply Qle_bool_iff in E. split; [discriminate | intros; lra].
- split; [intros _ | reflexivity].
  assert (~ y <= x) by (rewrite <- Qle_bool_iff; congruence). lra.
Qed.

Lemma Qltb_ge (x y : Q) : Py.Qltb x y = false <-> y <= x.
Proof.
unfold Py.Qltb. rewrite negb_false_iff. apply Qle_bool_iff.
Qed.

Lemma len_nonneg {A} (l : list A) : (0 <= Py.len l)%Z.
Proof. unfold Py.len. lia. Qed.

Lemma len_pos {A} (l : list A) : l <> [] -> (0 < Py.len l)%Z.
Proof. destruct l; [congruence | unfold Py.len; simpl; lia]. Qed.

Lemma inject_Z_nonneg (z : Z) : (0 <= z)%Z -> 0 <= inject_Z z.
Proof. intros H. change 0 with (inject_Z 0). now rewrite <- Zle_Qle. Qed.

Lemma inject_Z_pos (z : Z) : (0 < z)%Z -> 0 < inject_Z z.
Proof. intros H. change 0 with (inject_Z 0). now rewrite <- Zlt_Qlt. Qed.

(** ** Edge and hit-rate calculator *)

Section Edge.

Import PropFeed.

Lemma smoothed_prob_pos (hits total_games : Z) :
  (0 <= hits)%Z -> (0 < total_games)%Z -> 0 < smoothed_prob hits total_games.
Proof.
  intros Hh Ht. unfold smoothed_prob, smoothing.
  apply inject_Z_nonneg in Hh. apply inject_Z_pos in Ht.
  apply Qlt_shift_div_l; lra.
Qed.

(** After the normalisation the pair is the smoothed pair divided by its
    sum, whenever the counts are those of a non-empty sample. *)
Lemma win_probabilities_normalised (ho hu n : Z) :
  (0 <= ho)%Z -> (0 <= hu)%Z -> (0 < n)%Z ->
  win_probabilities ho hu n =
    (smoothed_prob ho n / (smoothed_prob ho n + smoothed_prob hu n),
     smoothed_prob hu n / (smoothed_prob ho n + smoothed_prob hu n)).
Proof.
  intros Ho Hu Hn. unfold win_probabilities.
  pose proof (smoothed_prob_pos ho n Ho Hn).
  pose proof (smoothed_prob_pos hu n Hu Hn).
  assert (Py.Qltb 0 (smoothed_prob ho n + smoothed_prob hu n) = true) as ->
    by (apply Qltb_lt; lra).
  reflexivity.
Qed.

Lemma win_probabilities_sum (ho hu n : Z) :
  (0 <= ho)%Z -> (0 <= hu)%Z -> (0 < n)%Z ->
  fst (win_probabilities ho hu n) + snd (win_probabilities ho hu n) == 1.
Proof.
  intros Ho Hu Hn. rewrite win_probabilities_normalised by assumption.
  pose proof (smoothed_prob_pos ho n Ho Hn).
  pose proof (smoothed_prob_pos hu n Hu Hn).
  simpl. field. lra.
Qed.

End Edge.

Section EdgeClaims.

Import PropFeed.

(** What [_calculate_edge_and_hitrate] returns on a defined line and a
    non-empty list of extracted values, in terms of the counts and of
    the normalised pair. *)
Lemma calculate_edge_and_hitrate_unfold (prop : Quote.t) (stats : list Stat.t) (line : Q) :
  Quote.line prop = Some line ->
  extracted_values stats (Quote.prop_type prop) <> [] ->
  let values := extracted_values stats (Quote.prop_type prop) in
  let n := Py.len values in
  let ho := hits_over line values in
  let hu := hits_under line values in
  let p := win_probabilities ho hu n in
  let over_ev := side_ev (fst p) (Quote.over_price prop) in
  let under_ev := side_ev (snd p) (Quote.under_price prop) in
  let over_edge o :=
    {| Edge.edge := o; Edge.side := "over"; Edge.prob := fst p;
       Edge.odds := Quote.over_price prop |} in
  let under_edge u :=
    {| Edge.edge := u; Edge.side := "under"; Edge.prob := snd p;
       Edge.odds := Quote.under_price prop |} in
  _calculate_edge_and_hitrate prop stats =
    (match over_ev, under_ev with
     | Some o, None => Some (over_edge o)
     | Some o, Some u =>
         if Qle_bool u o then Some (over_edge o) else Some (under_edge u)
     | None, Some u => Some (under_edge u)
     | None, None => None
     end,
     Some {| HitRate.total_games := n;
             HitRate.over_pct := Py.round (inject_Z ho / inject_Z n * 100) 1;
             HitRate.under_pct := Py.round (inject_Z hu / inject_Z n * 100) 1;
             HitRate.pushes := (n - ho - hu)%Z;
             HitRate.over_count := ho;
             HitRate.under_count := hu |}).
Proof.
  intros Hline Hne. cbv zeta. unfold _calculate_edge_and_hitrate.
  destruct stats as [|s stats]; [now elim Hne|].
  rewrite Hline.
  destruct (extracted_values (s :: stats) (Quote.prop_type prop)) as [|v vs] eqn:Hv;
    [now elim Hne|].
  destruct (win_probabilities _ _ _) as [po pu]. reflexivity.
Qed.

(** The calculator's counts are the numbers of values above and below the
    line. *)
Lemma hits_over_games_over (line : Q) (values : list Q) :
  hits_over line values = Spec.games_over line values.
Proof.
  unfold hits_over, Py.len. induction values as [|v values IH]; [reflexivity|].
  cbn [List.filter Spec.games_over]. rewrite <- IH.
  destruct (Py.Qltb line v) eqn:E; destruct (Qlt_le_dec line v) as [Hlt|Hle].
  - cbn [length]. lia.
  - apply Qltb_lt in E. lra.
  - apply Qltb_ge in E. lra.
  - lia.
Qed.

Lemma hits_under_games_under (line : Q) (values : list Q) :
  hits_under line values = Spec.games_under line values.
Proof.
  unfold hits_under, Py.len. induction values as [|v values IH]; [reflexivity|].
  cbn [List.filter Spec.games_under]. rewrite <- IH.
  destruct (Py.Qltb v line) eqn:E; destruct (Qlt_le_dec v line) as [Hlt|Hle].
  - cbn [length]. lia.
  - apply Qltb_lt in E. lra.
  - apply Qltb_ge in E. lra.
  - lia.
Qed.

(** The expected value depends on the probability as a number. *)
Lemma ev_compat (p q : Q) (odds : Z) : p == q -> Ev.ev p odds == Ev.ev q odds.
Proof. intros H. unfold Ev.ev. now rewrite H. Qed.

(** A price yields an expected value exactly when it is present and not
    zero. *)
Lemma side_ev_some (prob : Q) (price : option Z) (v : Q) :
  side_ev prob price = Some v <->
  exists z, price = Some z /\ z <> 0%Z /\ v = Ev.ev prob z.
Proof.
  unfold side_ev, Py.truthy_int. destruct price as [z|].
  - destruct (z =? 0)%Z eqn:E; cbn [negb].
    + apply Z.eqb_eq in E. split; [discriminate|].
      intros (z' & Hz & Hne & _). congruence.
    + apply Z.eqb_neq in E. split.
      * intros H. exists z. repeat split; congruence.
      * intros (z' & Hz & _ & ->). congruence.
  - split; [discriminate|]. intros (z' & Hz & _). discriminate.
Qed.

(** C1. For every defined line and every non-empty list of extracted
    historical values, with [ho] values above the line and [hu] below it
    among the [N] values: the calculator's smoothed probabilities are
    [(ho + 0.1) / (N + 0.2)] and [(hu + 0.1) / (N + 0.2)]; the pair it
    works with after the normalisation is that pair divided by its sum,
    and adds up to exactly 1; the hit rate it returns carries the counts
    and the pushes; an edge is returned as soon as a price is present; and
    every edge it returns carries the normalised probability of its side
    and the expected value of that probability at the price of that
    side. *)
Theorem C1_probabilities_sum_to_one (prop : Quote.t) (stats : list Stat.t) (line : Q) :
  Quote.line prop = Some line ->
  extracted_values stats (Quote.prop_type prop) <> [] ->
  let values := extracted_values stats (Quote.prop_type prop) in
  let n := Py.len values in
  let ho := Spec.games_over line values in
  let hu := Spec.games_under line values in
  let s_over := (inject_Z ho + (1 # 10)) / (inject_Z n + (2 # 10)) in
  let s_under := (inject_Z hu + (1 # 10)) / (inject_Z n + (2 # 10)) in
  let p_over := s_over / (s_over + s_under) in
  let p_under := s_under / (s_over + s_under) in
  let p := win_probabilities (hits_over line values) (hits_under line values) n in
  let result := _calculate_edge_and_hitrate prop stats in
  smoothed_prob (hits_over line values) n == s_over
  /\ smoothed_prob (hits_under line values) n == s_under
  /\ fst p == p_over
  /\ snd p == p_under
  /\ p_over + p_under == 1
  /\ (exists hr,
        snd result = Some hr
        /\ HitRate.total_games hr = n
        /\ HitRate.over_count hr = ho
        /\ HitRate.under_count hr = hu
        /\ HitRate.pushes hr = (n - ho - hu)%Z)
  /\ (forall price,
        (Quote.over_price prop = Some price \/ Quote.under_price prop = Some price) ->
        price <> 0%Z -> exists e, fst result = Some e)
  /\ (forall e, fst result = Some e ->
        (Edge.side e = "over"
         /\ Edge.prob e == p_over
         /\ exists price, Quote.over_price prop = Some price /\ price <> 0%Z
                          /\ Edge.odds e = Some price
                          /\ Edge.edge e == Ev.ev p_over price)
        \/ (Edge.side e = "under"
            /\ Edge.prob e == p_under
            /\ exists price, Quote.under_price prop = Some price /\ price <> 0%Z
                             /\ Edge.odds e = Some price
                             /\ Edge.edge e == Ev.ev p_under price)).
Proof.
  intros Hline Hne values n ho hu s_over s_under p_over p_under p result.
  assert (Hn : (0 < n)%Z) by (apply len_pos; exact Hne).
  assert (Ho : (0 <= hits_over line values)%Z) by apply len_nonneg.
  assert (Hu : (0 <= hits_under line values)%Z) by apply len_nonneg.
  assert (Eo : smoothed_prob (hits_over line values) n == s_over).
  { unfold smoothed_prob, smoothing, s_over, ho.
    rewrite hits_over_games_over.
    apply inject_Z_pos in Hn. field. lra. }
  assert (Eu : smoothed_prob (hits_under line values) n == s_under).
  { unfold smoothed_prob, smoothing, s_under, hu.
    rewrite hits_under_games_under.
    apply inject_Z_pos in Hn. field. lra. }
  pose proof (smoothed_prob_pos _ n Ho Hn) as Po.
  pose proof (smoothed_prob_pos _ n Hu Hn) as Pu.
  assert (Hp : p = (smoothed_prob (hits_over line values) n
                      / (smoothed_prob (hits_over line values) n
                         + smoothed_prob (hits_under line values) n),
                    smoothed_prob (hits_under line values) n
                      / (smoothed_prob (hits_over line values) n
                         + smoothed_prob (hits_under line values) n)))
    by (apply win_probabilities_normalised; assumption).
  assert (Hpo : fst p == p_over)
    by (rewrite Hp; unfold p_over; cbn [fst]; rewrite Eo, Eu; reflexivity).
  assert (Hpu : snd p == p_under)
    by (rewrite Hp; unfold p_under; cbn [snd]; rewrite Eo, Eu; reflexivity).
  split; [exact Eo|]. split; [exact Eu|].
  split; [exact Hpo|]. split; [exact Hpu|].
  split.
  { rewrite <- Hpo, <- Hpu. apply win_probabilities_sum; assumption. }
  unfold result.
  rewrite (calculate_edge_and_hitrate_unfold prop stats line Hline Hne).
  cbv zeta. fold values n p. cbn [fst snd].
  split.
  { eexists. split; [reflexivity|]. cbn.
    unfold ho, hu. rewrite hits_over_games_over, hits_under_games_under.
    repeat split; reflexivity. }
  split.
  - intros price Hprice Hnz.
    destruct (side_ev (fst p) (Quote.over_price prop)) as [o|] eqn:So;
      destruct (side_ev (snd p) (Quote.under_price prop)) as [u|] eqn:Su;
      try destruct (Qle_bool u o); eauto.
    exfalso. destruct Hprice as [Hprice|Hprice].
    + assert (H : side_ev (fst p) (Quote.over_price prop) = Some (Ev.ev (fst p) price))
        by (apply side_ev_some; eauto).
      congruence.
    + assert (H : side_ev (snd p) (Quote.under_price prop) = Some (Ev.ev (snd p) price))
        by (apply side_ev_some; eauto).
      congruence.
  - intros e He.
    assert (Hover : forall o, side_ev (fst p) (Quote.over_price prop) = Some o ->
              exists price, Quote.over_price prop = Some price /\ price <> 0%Z
                            /\ Quote.over_price prop = Some price
                            /\ o == Ev.ev p_over price).
    { intros o So. apply side_ev_some in So as (z & Hz & Hnz & ->).
      exists z. repeat split; try assumption. now apply ev_compat. }
    assert (Hunder : forall u, side_ev (snd p) (Quote.under_price prop) = Some u ->
              exists price, Quote.under_price prop = Some price /\ price <> 0%Z
                            /\ Quote.under_price prop = Some price
                            /\ u == Ev.ev p_under price).
    { intros u Su. apply side_ev_some in Su as (z & Hz & Hnz & ->).
      exists z. repeat split; try assumption. now apply ev_compat. }
    destruct (side_ev (fst p) (Quote.over_price prop)) as [o|] eqn:So;
      destruct (side_ev (snd p) (Quote.under_price prop)) as [u|] eqn:Su;
      try destruct (Qle_bool u o); inversion He; subst e; cbn;
      solve [ left; split; [reflexivity|]; split; [exact Hpo|]; now apply Hover
            | right; split; [reflexivity|]; split; [exact Hpu|]; now apply Hunder ].
Qed.

End EdgeClaims.

Section EdgeExamples.

Import PropFeed.

(** C2. On the historical values 30, 25, 28, 22, 31 (most recent first),
    the line 27.5 and the price -110 on both sides, the calculator counts
    3 games over, 2 under and no push, works with the probabilities
    3.1/5.2 and 2.1/5.2, and reports the over side with the expected value
    (3.1/5.2)*(100/110) - 2.1/5.2, which lies between 0.138 and 0.139. *)
Theorem C2_example_scenario :
  exists e hr,
    _calculate_edge_and_hitrate Examples.quote_27_5 Examples.last_five
      = (Some e, Some hr) /\
    HitRate.over_count hr = 3%Z /\
    HitRate.under_count hr = 2%Z /\
    HitRate.pushes hr = 0%Z /\
    fst (win_probabilities 3 2 5) == (31 # 10) / (52 # 10) /\
    snd (win_probabilities 3 2 5) == (21 # 10) / (52 # 10) /\
    Edge.side e = "over" /\
    Edge.prob e == (31 # 10) / (52 # 10) /\
    Edge.edge e == (31 # 10) / (52 # 10) * (100 / 110) - (21 # 10) / (52 # 10) /\
    (138 # 1000) <= Edge.edge e /\ Edge.edge e < (139 # 1000).
Proof.
  eexists. eexists. split; [vm_compute; reflexivity|].
  repeat split; vm_compute; congruence.
Qed.

End EdgeExamples.

(** ** Edge selection in binary64 *)

Section EdgeSelection.

Import PropFeed64.

Lemma SFcompare_Eq_sym (x y : spec_float) :
  SFcompare x y = Some Eq -> SFcompare y x = Some Eq.
Proof.
  destruct x as [sx|sx| |sx mx ex], y as [sy|sy| |sy my ey]; cbn;
    try discriminate; try reflexivity;
    try destruct sx; try destruct sy; try discriminate; try reflexivity;
    destruct (ex ?= ey)%Z eqn:Ee; try discriminate;
    apply Z.compare_eq in Ee; subst ey; rewrite Z.compare_refl;
    intros H; injection H as H.
  - apply (f_equal CompOpp) in H. rewrite CompOpp_involutive in H. cbn in H.
    apply Pos.compare_eq in H. subst my. now rewrite Pos.compare_cont_refl.
  - apply Pos.compare_eq in H. subst my. now rewrite Pos.compare_cont_refl.
Qed.

(** Two floats that compare equal with [==] compare with [>=]. *)
Lemma float_eq_ge (x y : float) :
  (x =? y)%float = true -> (y <=? x)%float = true.
Proof.
  rewrite FloatAxioms.eqb_spec, FloatAxioms.leb_spec. unfold SFeqb, SFleb.
  destruct (SFcompare (Prim2SF x) (Prim2SF y)) as [[| |]|] eqn:E; try discriminate.
  intros _. now rewrite (SFcompare_Eq_sym _ _ E).
Qed.

(** C10. In binary64, as the interpreter computes: when both prices are
    present and the two expected values the calculator computes are equal,
    the calculator reports the over side, with the expected value, the
    probability and the price of the over side. *)
Theorem C10_tie_reports_over
    (prop : Quote.t) (stats : list Stat.t) (line : Q) (over_price under_price : Z) :
  Quote.line prop = Some line ->
  extracted_values stats (Quote.prop_type prop) <> [] ->
  Quote.over_price prop = Some over_price -> over_price <> 0%Z ->
  Quote.under_price prop = Some under_price -> under_price <> 0%Z ->
  let values := extracted_values stats (Quote.prop_type prop) in
  let p := win_probabilities (hits_over (Py64.to_float line) values)
                             (hits_under (Py64.to_float line) values)
                             (Py.len values) in
  let over_ev := Ev64.ev (fst p) over_price in
  let under_ev := Ev64.ev (snd p) under_price in
  (over_ev =? under_ev)%float = true ->
  exists e hr,
    _calculate_edge_and_hitrate prop stats = (Some e, Some hr)
    /\ Edge.side e = "over"
    /\ Edge.edge e = over_ev
    /\ Edge.prob e = fst p
    /\ Edge.odds e = Some over_price.
Proof.
  intros Hline Hne Hover Hoz Hunder Huz values p over_ev under_ev Htie.
  unfold _calculate_edge_and_hitrate.
  destruct stats as [|s stats]; [now elim Hne|].
  rewrite Hline. fold values.
  destruct values as [|v vs] eqn:Hv; [now elim Hne|].
  fold p. destruct p as [po pu] eqn:Hp.
  rewrite Hover, Hunder. unfold side_ev, Py.truthy_int.
  apply Z.eqb_neq in Hoz, Huz. rewrite Hoz, Huz. cbn [negb].
  cbn [fst snd] in over_ev, under_ev.
  fold over_ev under_ev. rewrite (float_eq_ge _ _ Htie).
  eexists. eexists. repeat split.
Qed.

(** A tie of the exact expected values need not be a tie of the computed
    ones.  With two games over and one game under the line 25, quoted at
    +120 for the over and +320 for the under, both expected values are
    71/160 exactly; in binary64 the calculator computes
    0.44374999999999998 for the over and 0.44375000000000009 for the
    under, and reports the under side, with an over percentage of 66.7. *)
Example exact_tie_computed_apart :
  let p := PropFeed.win_probabilities 2 1 3 in
  Ev.ev (fst p) 120 == 71 # 160
  /\ Ev.ev (snd p) 320 == 71 # 160
  /\ exists e hr,
       _calculate_edge_and_hitrate Examples.quote_120_320 Examples.two_over_one_under
         = (Some e, Some hr)
       /\ Edge.side e = "under"
       /\ Edge.edge e = 0x1.c666666666668p-2%float
       /\ Ev64.ev (fst (win_probabilities 2 1 3)) 120 = 0x1.c666666666666p-2%float
       /\ HitRate.over_pct hr = 0x1.0accccccccccdp+6%float.
Proof.
  cbv zeta. split; [vm_compute; reflexivity|]. split; [vm_compute; reflexivity|].
  eexists. eexists. split; [vm_compute; reflexivity|].
  repeat split; vm_compute; reflexivity.
Qed.

End EdgeSelection.

(** ** Weighted average calculator *)

Section WeightedAverage.

Import Projections.

Variables (n : nat) (prop_type : string) (recency_weight : Q).

(** The loop adds, to both accumulators, the sums the specification
    writes. *)
Lemma extracted_cons (i : nat) (s : Stat.t) (records : list (nat * Stat.t)) :
  Spec.extracted prop_type ((i, s) :: records) =
    match get_prop_value_from_stat s prop_type with
    | Some v => (i, v) :: Spec.extracted prop_type records
    | None => Spec.extracted prop_type records
    end.
Proof.
  unfold Spec.extracted. simpl.
  destruct (get_prop_value_from_stat s prop_type); reflexivity.
Qed.

Lemma foldl_weighted_step (records : list (nat * Stat.t)) (acc : Q * Q) :
  fst (foldl (weighted_step n prop_type recency_weight) acc records) ==
    fst acc
    + Spec.Qsum (map (fun iv => snd iv * Spec.weight n (fst iv) recency_weight)
                     (Spec.extracted prop_type records))
  /\ snd (foldl (weighted_step n prop_type recency_weight) acc records) ==
    snd acc
    + Spec.Qsum (map (fun iv => Spec.weight n (fst iv) recency_weight)
                     (Spec.extracted prop_type records)).
Proof.
  revert acc. induction records as [|[i s] records IH]; intros acc.
  - simpl. split; ring.
  - cbn [foldl].
    destruct (IH (weighted_step n prop_type recency_weight acc (i, s)))
      as [IH1 IH2].
    rewrite IH1, IH2, extracted_cons. clear IH IH1 IH2.
    unfold weighted_step. cbn [fst snd].
    destruct (get_prop_value_from_stat s prop_type) as [v|];
      cbn [map Spec.Qsum fst snd]; unfold Spec.weight; split; ring.
Qed.

End WeightedAverage.

Section WeightedAverageClaims.

Import Projections.

Lemma enumerate_snd {A} (l : list A) : snd <$> enumerate l = l.
Proof.
  unfold enumerate. rewrite fmap_imap.
  rewrite (imap_ext _ (const id) l) by reflexivity.
  rewrite imap_const. apply list_fmap_id.
Qed.

Lemma enumerate_bound {A} (l : list A) (i : nat) (x : A) :
  (i, x) ∈ enumerate l -> (i < length l)%nat.
Proof.
  unfold enumerate. intros H.
  apply elem_of_lookup_imap in H as (j & y & Heq & Hj).
  inversion Heq; subst. eapply lookup_lt_Some; eassumption.
Qed.

Lemma extracted_nil_iff (prop_type : string) (records : list (nat * Stat.t)) :
  Spec.extracted prop_type records = []
  <-> Forall (fun s => get_prop_value_from_stat s prop_type = None) (snd <$> records).
Proof.
  induction records as [|[i s] records IH].
  - simpl. split; [constructor | reflexivity].
  - rewrite extracted_cons. cbn [fmap list_fmap snd].
    destruct (get_prop_value_from_stat s prop_type) as [v|] eqn:E.
    + split; [discriminate | intros H; inversion H; congruence].
    + rewrite IH. split; [now constructor | intros H; now inversion H].
Qed.

Lemma Qsum_pos (l : list Q) :
  Forall (fun x => 1 <= x) l -> l <> [] -> 0 < Spec.Qsum l.
Proof.
  intros Hall Hne.
  assert (Hnn : forall l', Forall (fun x => 1 <= x) l' -> 0 <= Spec.Qsum l').
  { induction 1 as [|x l' Hx _ IH]; simpl; lra. }
  destruct Hall as [|x l' Hx Hl']; [congruence|].
  simpl. specialize (Hnn l' Hl'). lra.
Qed.

(** With a non-negative recency weight every weight the loop uses is at
    least 1. *)
Lemma weights_at_least_one
    (stats : list Stat.t) (prop_type : string) (recency_weight : Q) :
  0 <= recency_weight ->
  Forall (fun x => 1 <= x)
    (map (fun iv => Spec.weight (length stats) (fst iv) recency_weight)
         (Spec.extracted prop_type (enumerate stats))).
Proof.
  intros Hrw. apply Forall_forall. intros w Hw.
  apply list_elem_of_In, in_map_iff in Hw as ([i v] & <- & Hiv).
  apply list_elem_of_In, list_elem_of_omap in Hiv as ([j s] & Hjs & Hv).
  cbn [fst snd] in Hv.
  destruct (get_prop_value_from_stat s prop_type); inversion Hv; subst.
  apply enumerate_bound in Hjs. unfold Spec.weight. cbn [fst].
  assert (0 <= inject_Z (Z.of_nat (length stats) - Z.of_nat i))
    by (apply inject_Z_nonneg; lia).
  assert (0 <= inject_Z (Z.of_nat (length stats) - Z.of_nat i) * recency_weight)
    by (apply Qmult_le_0_compat; assumption).
  lra.
Qed.

(** The function returns [None] exactly when the list is empty or the
    total weight of the extracted values is zero; otherwise it returns
    the quotient of the two sums.  This holds for every recency weight. *)
Lemma calculate_weighted_average_spec
    (stats : list Stat.t) (prop_type : string) (recency_weight : Q) :
  let total_weight :=
    Spec.Qsum (map (fun iv => Spec.weight (length stats) (fst iv) recency_weight)
                   (Spec.extracted prop_type (enumerate stats))) in
  match calculate_weighted_average stats prop_type recency_weight with
  | None => stats = [] \/ total_weight == 0
  | Some r =>
      stats <> [] /\ ~ total_weight == 0
      /\ r == Spec.weighted_average stats prop_type recency_weight
  end.
Proof.
  cbv zeta. unfold calculate_weighted_average.
  destruct stats as [|s stats]; [now left|].
  set (l := s :: stats).
  destruct (foldl_weighted_step (length l) prop_type recency_weight
              (enumerate l) (0, 0)) as [H1 H2].
  cbn [fst snd] in H1, H2. rewrite Qplus_0_l in H1, H2.
  destruct (Qeq_bool _ 0) eqn:E.
  - right. apply Qeq_bool_iff in E. rewrite <- H2. exact E.
  - assert (~ snd (foldl (weighted_step (length l) prop_type recency_weight)
                         (0, 0) (enumerate l)) == 0) as Hnz
      by (rewrite <- Qeq_bool_iff; congruence).
    split; [discriminate|]. split; [now rewrite <- H2|].
    unfold Spec.weighted_average. fold l. rewrite <- H1, <- H2. reflexivity.
Qed.

(** C4, as amended.  For a non-negative recency weight,
    [calculate_weighted_average] returns [None] exactly when the list is
    empty or no value can be extracted from any record; otherwise it
    returns [sum(v_i * w_i) / sum(w_i)], where the value extracted from
    the record at position [i] (from the front, [N] records) has weight
    [1 + (N - i) * recency_weight]; for a positive recency weight the
    weights decrease strictly with the position, so the most recent
    record has the highest one. *)
Theorem C4_weighted_average
    (stats : list Stat.t) (prop_type : string) (recency_weight : Q) :
  0 <= recency_weight ->
  (calculate_weighted_average stats prop_type recency_weight = None
   <-> stats = []
       \/ Forall (fun s => get_prop_value_from_stat s prop_type = None) stats)
  /\ (calculate_weighted_average stats prop_type recency_weight <> None ->
      exists r,
        calculate_weighted_average stats prop_type recency_weight = Some r
        /\ r == Spec.weighted_average stats prop_type recency_weight)
  /\ (0 < recency_weight ->
      forall i j : nat, (i < j)%nat ->
        Spec.weight (length stats) j recency_weight
        < Spec.weight (length stats) i recency_weight).
Proof.
  intros Hrw.
  pose proof (calculate_weighted_average_spec stats prop_type recency_weight) as Hs.
  pose proof (weights_at_least_one stats prop_type recency_weight Hrw) as Hw.
  pose proof (extracted_nil_iff prop_type (enumerate stats)) as Hnil.
  rewrite enumerate_snd in Hnil. cbv zeta in Hs.
  split; [|split].
  - destruct (calculate_weighted_average stats prop_type recency_weight) as [r|].
    + destruct Hs as (Hne & Hnz & _). split; [discriminate|].
      intros [He|Hall]; [contradiction|].
      apply Hnil in Hall. rewrite Hall in Hnz. now elim Hnz.
    + split; [|reflexivity]. intros _.
      destruct Hs as [He|Hz]; [now left|]. right. apply Hnil.
      destruct (Spec.extracted prop_type (enumerate stats)) as [|iv ivs] eqn:E;
        [reflexivity|].
      apply Qsum_pos in Hw; [|discriminate]. rewrite Hz in Hw.
      now apply Qlt_irrefl in Hw.
  - destruct (calculate_weighted_average stats prop_type recency_weight) as [r|];
      [|congruence].
    intros _. exists r. split; [reflexivity|]. apply Hs.
  - intros Hpos i j Hij. unfold Spec.weight.
    assert (inject_Z (Z.of_nat (length stats) - Z.of_nat j)
            < inject_Z (Z.of_nat (length stats) - Z.of_nat i))
      by (rewrite <- Zlt_Qlt; lia).
    assert (inject_Z (Z.of_nat (length stats) - Z.of_nat j) * recency_weight
            < inject_Z (Z.of_nat (length stats) - Z.of_nat i) * recency_weight)
      by (apply Qmult_lt_compat_r; assumption).
    lra.
Qed.

(** With the recency weight -1 the single weight of a one-game list is
    zero: the function returns [None] although a value is extracted. *)
Lemma C4_counterexample :
  ~ (calculate_weighted_average Examples.one_game "points" (-1) = None
     <-> Examples.one_game = []
         \/ Forall (fun s => get_prop_value_from_stat s "points" = None)
                   Examples.one_game).
Proof.
  intros [H _].
  destruct (H ltac:(vm_compute; reflexivity)) as [E|E]; [discriminate|].
  inversion E as [|s l Hs Hl]; subst. vm_compute in Hs. discriminate.
Qed.

End WeightedAverageClaims.


(** ** Opponent defense rating *)

Section DefenseRating.

Import Projections.

Lemma foldl_Qplus (l : list Q) (a : Q) : foldl Qplus a l == a + Spec.Qsum l.
Proof.
  revert a. induction l as [|x l IH]; intros a; simpl.
  - ring.
  - rewrite IH. ring.
Qed.

Lemma sum_Qsum (l : list Q) : Py.sum l == Spec.Qsum l.
Proof. unfold Py.sum. rewrite foldl_Qplus. ring. Qed.

(** [max(lo, min(hi, x))] is the clamp of [x], up to equality of numbers. *)
Lemma max_min_clamp (lo hi x y : Q) :
  lo <= hi -> x == y -> Py.max lo (Py.min hi x) == Spec.clamp lo hi y.
Proof.
  intros Hlh Hxy. unfold Py.max, Py.min, Spec.clamp.
  destruct (Py.Qltb x hi) eqn:E1; destruct (Py.Qltb y lo) eqn:E2;
    destruct (Py.Qltb hi y) eqn:E3;
    repeat match goal with
           | H : Py.Qltb _ _ = true |- _ => apply Qltb_lt in H
           | H : Py.Qltb _ _ = false |- _ => apply Qltb_ge in H
           end;
    match goal with
    | |- (if ?b then _ else _) == _ =>
        destruct b eqn:E4;
        [apply Qltb_lt in E4 | apply Qltb_ge in E4]; lra
    end.
Qed.

Lemma max_min_bounds (lo hi x : Q) :
  lo <= hi -> lo <= Py.max lo (Py.min hi x) /\ Py.max lo (Py.min hi x) <= hi.
Proof.
  intros Hlh. unfold Py.max, Py.min.
  destruct (Py.Qltb x hi) eqn:E1;
    match goal with
    | |- _ <= (if ?b then _ else _) /\ _ =>
        destruct b eqn:E2
    end;
    repeat match goal with
           | H : Py.Qltb _ _ = true |- _ => apply Qltb_lt in H
           | H : Py.Qltb _ _ = false |- _ => apply Qltb_ge in H
           end; split; lra.
Qed.

Lemma league_averages_pos (prop_type : string) : 0 < league_averages prop_type.
Proof.
  unfold league_averages.
  repeat match goal with
         | |- 0 < (if ?b then _ else _) => destruct b; [reflexivity|]
         end.
  reflexivity.
Qed.

(** C5, as amended.  [calculate_opponent_defense_rating] always returns a
    value between 0.85 and 1.15; it returns exactly 1 when fewer than 5 of
    the fetched games qualify; and when at least 10 games against the
    opponent were fetched and at least 5 of them qualify, it returns the
    average qualifying value divided by the league average of the prop
    type, clamped to the interval from 0.85 to 1.15. *)
Theorem C5_opponent_defense_rating (db : Store) (opponent_team prop_type : string) :
  (17 # 20) <= calculate_opponent_defense_rating db opponent_team prop_type
  /\ calculate_opponent_defense_rating db opponent_team prop_type <= (23 # 20)
  /\ forall rows, player_game_stats db = Some rows ->
       let games := opponent_games rows opponent_team in
       let values := qualifying_values games prop_type in
       ((length values < 5)%nat ->
        calculate_opponent_defense_rating db opponent_team prop_type = 1)
       /\ ((10 <= length games)%nat -> (5 <= length values)%nat ->
           calculate_opponent_defense_rating db opponent_team prop_type ==
             Spec.clamp (17 # 20) (23 # 20)
               (Spec.Qsum values / inject_Z (Z.of_nat (length values))
                / league_averages prop_type)).
Proof.
  unfold calculate_opponent_defense_rating.
  destruct (player_game_stats db) as [rows|].
  2:{ split; [|split]; [lra | lra | intros rows H; discriminate]. }
  set (games := opponent_games rows opponent_team).
  set (values := qualifying_values games prop_type).
  assert (Hla : Py.Qltb 0 (league_averages prop_type) = true)
    by (apply Qltb_lt, league_averages_pos).
  rewrite Hla.
  assert (Hb : (17 # 20) <= (23 # 20)) by lra.
  split; [|split].
  - destruct (length games <? 10)%nat; [lra|].
    destruct (length values <? 5)%nat; [lra|].
    apply max_min_bounds, Hb.
  - destruct (length games <? 10)%nat; [lra|].
    destruct (length values <? 5)%nat; [lra|].
    apply max_min_bounds, Hb.
  - intros rows' Hrows. inversion Hrows; subst rows'. cbv zeta.
    fold games. fold values. split.
    + intros Hlt. apply Nat.ltb_lt in Hlt. rewrite Hlt.
      destruct (length games <? 10)%nat; reflexivity.
    + intros Hg Hv.
      apply Nat.ltb_ge in Hg. apply Nat.ltb_ge in Hv. rewrite Hg, Hv.
      apply max_min_clamp; [exact Hb|].
      unfold Py.len. rewrite sum_Qsum. reflexivity.
Qed.

(** Five qualifying games, all with 24 points, but fewer than 10 fetched
    games: the rating is 1, not the clamped quotient 1.15. *)
Lemma C5_counterexample :
  let db := Examples.store_of_stats Examples.five_vs_bos in
  let values := qualifying_values (opponent_games Examples.five_vs_bos "BOS") "points" in
  (5 <= length values)%nat
  /\ calculate_opponent_defense_rating db "BOS" "points" == 1
  /\ Spec.clamp (17 # 20) (23 # 20)
       (Spec.Qsum values / inject_Z (Z.of_nat (length values)) / league_averages "points")
     == 23 # 20
  /\ ~ calculate_opponent_defense_rating db "BOS" "points" ==
        Spec.clamp (17 # 20) (23 # 20)
          (Spec.Qsum values / inject_Z (Z.of_nat (length values))
           / league_averages "points").
Proof.
  cbv zeta. split; [vm_compute; lia|].
  split; [vm_compute; reflexivity|].
  split; [vm_compute; reflexivity|].
  vm_compute. discriminate.
Qed.

End DefenseRating.


(** ** Injury adjustment and projection builder *)

Section ProjectionFacts.

Import Projections.

Variable pow_half : Q -> Q.

Lemma filter_nil_of_none {A} (P : A -> Prop) `{forall x, Decision (P x)} (l : list A) :
  (forall x, x ∈ l -> ~ P x) -> filter P l = [].
Proof.
  induction l as [|x l IH]; intros Hl; [reflexivity|].
  rewrite filter_cons. destruct (decide (P x)) as [Hx|Hx].
  - exfalso. apply (Hl x); [left | exact Hx].
  - apply IH. intros y Hy. apply Hl. now right.
Qed.

Lemma get_injury_status_healthy (db : Store) (player_id : string) :
  Spec.no_active_injury db player_id -> get_injury_status db player_id = healthy.
Proof.
  intros Hno. unfold get_injury_status.
  destruct (player_injuries db) as [rows|] eqn:E; [|reflexivity].
  unfold active_injuries.
  rewrite filter_nil_of_none by (apply (Hno rows E)).
  reflexivity.
Qed.


(** The fields of a projection that has a baseline. *)
Lemma calculate_projection_with_baseline
    (db : Store) (player_id prop_type : string) (opponent_team : option string)
    (is_home : bool) (game_id : option string) (bovada_line : option Q)
    (b : Q) (source : string) :
  select_baseline
    (resolve_bovada_line db player_id prop_type game_id bovada_line)
    (player_average (load_player_recent_stats db player_id prop_type 15) prop_type)
    = Some (b, source) ->
  let r := calculate_projection pow_half db player_id prop_type opponent_team
             is_home game_id bovada_line in
  Projection.baseline_source r = Some source
  /\ Projection.bovada_line r
     = resolve_bovada_line db player_id prop_type game_id bovada_line
  /\ Projection.injury_status r = Some (status (get_injury_status db player_id))
  /\ Projection.projected_line r <> None
  /\ exists f, Projection.factors r = Some f
               /\ Factors.baseline f = b
               /\ Factors.baseline_source f = source
               /\ Factors.injury_adjustment f
                  = impact_multiplier (get_injury_status db player_id).
Proof.
  intros Hsel. cbv zeta. unfold calculate_projection. rewrite Hsel.
  cbn [Projection.baseline_source Projection.bovada_line Projection.injury_status
       Projection.projected_line Projection.factors].
  split; [reflexivity|]. split; [reflexivity|]. split; [reflexivity|].
  split; [discriminate|].
  eexists. split; [reflexivity|]. repeat split.
Qed.

(** The projection without a baseline. *)
Lemma calculate_projection_without_baseline
    (db : Store) (player_id prop_type : string) (opponent_team : option string)
    (is_home : bool) (game_id : option string) (bovada_line : option Q) :
  select_baseline
    (resolve_bovada_line db player_id prop_type game_id bovada_line)
    (player_average (load_player_recent_stats db player_id prop_type 15) prop_type)
    = None ->
  calculate_projection pow_half db player_id prop_type opponent_team
    is_home game_id bovada_line = null_projection.
Proof.
  intros Hsel. unfold calculate_projection. rewrite Hsel. reflexivity.
Qed.

(** The multiplier of an active record with a severity. *)
Lemma get_injury_status_active
    (db : Store) (player_id : string) (rows rest : list Injury.t)
    (injury : Injury.t) (sev : string) :
  player_injuries db = Some rows ->
  active_injuries rows player_id = injury :: rest ->
  Injury.severity injury = Some sev ->
  impact_multiplier (get_injury_status db player_id)
  == Spec.clamp 0 1 (1 - Spec.impact_percentage injury / 100).
Proof.
  intros Hrows Hact Hsev. unfold get_injury_status.
  rewrite Hrows, Hact, Hsev. cbn [impact_multiplier].
  apply max_min_clamp; [lra|].
  unfold Spec.impact_percentage. rewrite Hsev. cbn [Py.or_empty].
  assert (Hd : forall p, p == 0 ->
            severity_default (Py.lower sev) p == Spec.severity_impact (Py.lower sev)).
  { intros p Hp. unfold severity_default, Spec.severity_impact.
    repeat match goal with
           | |- (if ?c then _ else _) == _ => destruct c; [reflexivity|]
           end.
    exact Hp. }
  destruct (Injury.impact_percentage injury) as [p|]; cbn [Py.or_zero].
  - destruct (Qeq_bool p 0) eqn:E; [|reflexivity].
    apply Qeq_bool_iff in E. rewrite (Hd p E). reflexivity.
  - change (Qeq_bool 0 0) with true. cbv iota.
    rewrite (Hd 0 (Qeq_refl 0)). reflexivity.
Qed.

(** C6, as amended.  When a player has no active injury record, the injury
    multiplier is exactly 1 and [calculate_projection], whenever it
    produces a projected line, reports the injury status "healthy" and the
    injury factor 1.  When the query returns an active record that has a
    severity, the multiplier is [1 - impact_percentage / 100] clamped to the
    interval from 0 to 1, the impact percentage being the explicit one when
    it is set (present and not zero) and the heuristic of the severity
    (out=100, doubtful=50, questionable=25, probable=10) otherwise. *)
Theorem C6_injury_adjustment
    (db : Store) (player_id prop_type : string) (opponent_team : option string)
    (is_home : bool) (game_id : option string) (bovada_line : option Q) :
  let r := calculate_projection pow_half db player_id prop_type opponent_team
             is_home game_id bovada_line in
  (Spec.no_active_injury db player_id ->
     impact_multiplier (get_injury_status db player_id) = 1
     /\ status (get_injury_status db player_id) = "healthy"
     /\ (Projection.projected_line r <> None ->
         Projection.injury_status r = Some "healthy"
         /\ exists f, Projection.factors r = Some f
                      /\ Factors.injury_adjustment f = 1))
  /\ (forall rows rest injury sev,
        player_injuries db = Some rows ->
        active_injuries rows player_id = injury :: rest ->
        Injury.severity injury = Some sev ->
        impact_multiplier (get_injury_status db player_id)
        == Spec.clamp 0 1 (1 - Spec.impact_percentage injury / 100)).
Proof.
  cbv zeta. split.
  - intros Hno. rewrite (get_injury_status_healthy db player_id Hno).
    split; [reflexivity|]. split; [reflexivity|].
    intros Hline.
    destruct (select_baseline
                (resolve_bovada_line db player_id prop_type game_id bovada_line)
                (player_average (load_player_recent_stats db player_id prop_type 15)
                                prop_type)) as [[b source]|] eqn:Hsel.
    + destruct (calculate_projection_with_baseline db player_id prop_type
                  opponent_team is_home game_id bovada_line b source Hsel)
        as (_ & _ & Hst & _ & f & Hf & _ & _ & Hadj).
      rewrite (get_injury_status_healthy db player_id Hno) in Hst, Hadj.
      split; [exact Hst|]. exists f. split; [exact Hf | exact Hadj].
    + rewrite (calculate_projection_without_baseline db player_id prop_type
                 opponent_team is_home game_id bovada_line Hsel) in Hline.
      now elim Hline.
  - intros rows rest injury sev. apply get_injury_status_active.
Qed.

(** A snapshot is emitted for a key only from a projection with a
    projected line. *)
Lemma snapshot_of_some
    (db : Store) (players_map : gmap string Player.t)
    (games_map : gmap string Game.t)
    (bovada_lines : gmap ProjectionSnapshots.Key Q) (now_iso : string)
    (key : ProjectionSnapshots.Key) (prop : Quote.t)
    (s : ProjectionSnapshots.Snapshot.t) :
  ProjectionSnapshots.snapshot_of pow_half db players_map games_map
    bovada_lines now_iso (key, prop) = Some s ->
  ProjectionSnapshots.Snapshot.key s = key
  /\ exists player game,
      players_map !! ProjectionSnapshots.Snapshot.player_id s = Some player
      /\ games_map !! ProjectionSnapshots.Snapshot.game_id s = Some game
      /\ let matchup :=
           ProjectionSnapshots._resolve_matchup (Player.team player) (Some game) in
         Projection.projected_line
           (calculate_projection pow_half db
              (ProjectionSnapshots.Snapshot.player_id s)
              (ProjectionSnapshots.Snapshot.prop_type s)
              (fst matchup) (default true (snd matchup))
              (Some (ProjectionSnapshots.Snapshot.game_id s))
              (bovada_lines !! key))
         = Some (ProjectionSnapshots.Snapshot.projected_line s).
Proof.
  destruct key as [[pid gid] pt]. unfold ProjectionSnapshots.snapshot_of.
  destruct (players_map !! pid) as [player|] eqn:Hp; [|discriminate].
  destruct (games_map !! gid) as [game|] eqn:Hg; [|discriminate].
  destruct (ProjectionSnapshots._resolve_matchup (Player.team player) (Some game))
    as [opponent is_home] eqn:Hm.
  destruct (Projection.projected_line _) as [pl|] eqn:Hpl; [|discriminate].
  intros Hs. inversion Hs; subst s; clear Hs.
  unfold ProjectionSnapshots.Snapshot.key.
  cbn [ProjectionSnapshots.Snapshot.player_id ProjectionSnapshots.Snapshot.game_id
       ProjectionSnapshots.Snapshot.prop_type
       ProjectionSnapshots.Snapshot.projected_line].
  split; [reflexivity|]. exists player, game.
  split; [exact Hp|]. split; [exact Hg|].
  cbv zeta. rewrite Hm. exact Hpl.
Qed.


End ProjectionFacts.

(** A player without an active injury, without game logs and without a
    Bovada line: the projection is the null result, which reports no
    injury status at all. *)
Lemma C6_counterexample :
  Spec.no_active_injury Examples.empty_store "p1"
  /\ Projections.Projection.injury_status
       (Projections.calculate_projection Examples.pow_half Examples.empty_store
          "p1" "points" None true None None)
     <> Some "healthy".
Proof.
  split.
  - intros rows Hrows r Hr. inversion Hrows; subst. inversion Hr.
  - vm_compute. discriminate.
Qed.

(** An explicit percentage of zero counts as not set: the severity decides. *)
Example explicit_zero_percentage_is_not_set :
  Projections.impact_multiplier
    (Projections.get_injury_status
       (Examples.store_of_injury (Examples.injury (Some "out") (Some 0))) "p1")
  == 0.
Proof. vm_compute. reflexivity. Qed.

(** A record without a severity makes [get_injury_status] fall into its
    exception handler, which answers "healthy". *)
Example missing_severity_is_healthy :
  Projections.get_injury_status
    (Examples.store_of_injury (Examples.injury None (Some 50))) "p1"
  = Projections.healthy.
Proof. reflexivity. Qed.

(** Three qualifying games against the opponent: the rating is 1. *)
Example three_games_rating :
  Projections.calculate_opponent_defense_rating
    (Examples.store_of_stats Examples.three_vs_bos) "BOS" "points" = 1.
Proof. reflexivity. Qed.

(** ** Deduplication of the prop feed *)

Section Dedupe.

Import PropFeed.

(** [a > b] on strings is the strict lexicographic order. *)
Lemma str_gt_strict (a b : string) :
  Py.str_gt a b = true <-> strict String.le b a.
Proof.
  unfold Py.str_gt, String.ltb, strict, String.le, String.leb.
  rewrite (String.compare_antisym a b).
  destruct (String.compare b a); simpl; intuition congruence.
Qed.

Lemma str_gt_le (a b : string) :
  Py.str_gt a b = false <-> String.le a b.
Proof.
  unfold Py.str_gt, String.ltb, String.le, String.leb.
  rewrite (String.compare_antisym b a).
  destruct (String.compare a b); simpl; intuition congruence.
Qed.

Lemma greatest_for_snoc_other (key : Key) (props : list Quote.t) (p x : Quote.t) :
  key_of x <> Some key ->
  Spec.greatest_for key props p -> Spec.greatest_for key (props ++ [x]) p.
Proof.
  intros Hx (before & after & -> & Hk & Hb & Ha).
  exists before, (after ++ [x]). split; [now rewrite <- app_assoc|].
  split; [exact Hk|]. split; [exact Hb|].
  intros q Hq Hqk. apply elem_of_app in Hq as [Hq|Hq]; [now apply Ha|].
  apply list_elem_of_singleton in Hq as ->. contradiction.
Qed.

Lemma greatest_for_snoc_le (key : Key) (props : list Quote.t) (p x : Quote.t) :
  String.le (Spec.timestamp x) (Spec.timestamp p) ->
  Spec.greatest_for key props p -> Spec.greatest_for key (props ++ [x]) p.
Proof.
  intros Hx (before & after & -> & Hk & Hb & Ha).
  exists before, (after ++ [x]). split; [now rewrite <- app_assoc|].
  split; [exact Hk|]. split; [exact Hb|].
  intros q Hq Hqk. apply elem_of_app in Hq as [Hq|Hq]; [now apply Ha|].
  apply list_elem_of_singleton in Hq as ->. exact Hx.
Qed.

Lemma greatest_for_snoc_new (key : Key) (props : list Quote.t) (old x : Quote.t) :
  key_of x = Some key ->
  strict String.le (Spec.timestamp old) (Spec.timestamp x) ->
  Spec.greatest_for key props old -> Spec.greatest_for key (props ++ [x]) x.
Proof.
  intros Hx Hlt (before & after & -> & Hk & Hb & Ha).
  exists (before ++ old :: after), []. split; [reflexivity|].
  split; [exact Hx|]. split; [|intros q Hq; inversion Hq].
  intros q Hq Hqk. apply elem_of_app in Hq as [Hq|Hq].
  - exact (strict_trans_l _ _ _ (Hb q Hq Hqk) (strict_include _ _ Hlt)).
  - apply elem_of_cons in Hq as [->|Hq]; [exact Hlt|].
    exact (strict_trans_r _ _ _ (Ha q Hq Hqk) Hlt).
Qed.

Lemma greatest_for_snoc_first (key : Key) (props : list Quote.t) (x : Quote.t) :
  key_of x = Some key ->
  (forall q, q ∈ props -> key_of q <> Some key) ->
  Spec.greatest_for key (props ++ [x]) x.
Proof.
  intros Hx Hnone. exists props, []. split; [reflexivity|].
  split; [exact Hx|]. split; [|intros q Hq; inversion Hq].
  intros q Hq Hqk. now elim (Hnone q Hq).
Qed.

Lemma dedupe_step_invariant (props : list Quote.t) (latest : gmap Key Quote.t)
    (x : Quote.t) :
  Spec.dedupe_invariant props latest ->
  Spec.dedupe_invariant (props ++ [x]) (dedupe_step latest x).
Proof.
  intros Hinv key. unfold dedupe_step.
  assert (Hkeep : key_of x <> Some key ->
            match latest !! key with
            | Some p => Spec.greatest_for key (props ++ [x]) p
            | None => forall q, q ∈ props ++ [x] -> key_of q <> Some key
            end).
  { intros Hne. specialize (Hinv key). destruct (latest !! key) as [p|].
    - now apply greatest_for_snoc_other.
    - intros q Hq. apply elem_of_app in Hq as [Hq|Hq]; [now apply Hinv|].
      now apply list_elem_of_singleton in Hq as ->. }
  destruct (key_of x) as [k|] eqn:Hk; [|apply Hkeep; discriminate].
  destruct (decide (k = key)) as [->|Hne].
  - pose proof (Hinv key) as Hkey.
    destruct (latest !! key) as [old|] eqn:Hold.
    + destruct (Py.str_gt _ _) eqn:Hgt.
      * rewrite lookup_insert_eq.
        apply str_gt_strict in Hgt.
        eapply greatest_for_snoc_new; eassumption.
      * rewrite Hold. apply str_gt_le in Hgt.
        now apply greatest_for_snoc_le.
    + rewrite lookup_insert_eq. now apply greatest_for_snoc_first.
  - assert (Hx : Some k <> Some key) by congruence.
    specialize (Hkeep Hx).
    destruct (latest !! k) as [old|]; [destruct (Py.str_gt _ _)|];
      try rewrite lookup_insert_ne by exact Hne; exact Hkeep.
Qed.

Lemma latest_of_invariant (props : list Quote.t) :
  Spec.dedupe_invariant props (latest_of props).
Proof.
  unfold latest_of. induction props as [|x props IH] using rev_ind.
  - intros key. simpl. rewrite lookup_empty. intros q Hq. inversion Hq.
  - rewrite foldl_app. simpl. now apply dedupe_step_invariant.
Qed.

(** A kept quote is the entry of its key in [latest]. *)
Lemma dedupe_props_member (props : list Quote.t) (p : Quote.t) :
  p ∈ _dedupe_props props ->
  exists key, latest_of props !! key = Some p
              /\ Spec.greatest_for key props p.
Proof.
  pose proof (latest_of_invariant props) as Hinv.
  intros Hp. unfold _dedupe_props in Hp.
  apply list_elem_of_fmap in Hp as ([key p'] & -> & Hp).
  apply elem_of_map_to_list in Hp. exists key. split; [exact Hp|].
  specialize (Hinv key). cbn [snd]. now rewrite Hp in Hinv.
Qed.

(** The key under which the loop files a quote is the quote's
    (player, game, prop-category, line, book) key, and the loop skips
    exactly the quotes that have none. *)
Lemma key_of_feed_key (q : Quote.t) : key_of q = Spec.feed_key_of q.
Proof.
  unfold key_of, Spec.feed_key_of, Py.truthy_str, Py.or_empty.
  destruct (Quote.line q) as [line|];
    destruct (Quote.player_id q) as [player|];
    destruct (Quote.game_id q) as [game|];
    destruct (Quote.prop_type q) as [category|];
    destruct (Quote.book q) as [book|];
    cbn [andb negb]; try reflexivity;
    repeat match goal with
           | |- context [String.eqb ?s ""] =>
               destruct (String.eqb_spec s ""); [subst s|]
           end;
    cbn [andb negb];
    try (rewrite decide_True by (repeat split; assumption); reflexivity);
    try (rewrite decide_False by (intros (? & ? & ? & ?); congruence); reflexivity);
    try reflexivity.
Qed.

Lemma greatest_for_greatest_by (key : Key) (props : list Quote.t) (p : Quote.t) :
  Spec.greatest_for key props p <-> Spec.greatest_by Spec.feed_key_of key props p.
Proof.
  unfold Spec.greatest_for, Spec.greatest_by.
  split; intros (before & after & Hsplit & Hk & Hb & Ha);
    exists before, after; (split; [exact Hsplit|]).
  - rewrite <- key_of_feed_key. split; [exact Hk|].
    split; intros q Hq Hqk; [apply Hb | apply Ha];
      try assumption; now rewrite key_of_feed_key.
  - rewrite key_of_feed_key. split; [exact Hk|].
    split; intros q Hq Hqk; [apply Hb | apply Ha];
      try assumption; now rewrite <- key_of_feed_key.
Qed.

(** A key has at most one greatest quote. *)
Lemma greatest_for_unique (key : Key) (props : list Quote.t) (p p' : Quote.t) :
  Spec.greatest_for key props p -> Spec.greatest_for key props p' -> p = p'.
Proof.
  intros (b1 & a1 & E1 & K1 & B1 & A1) (b2 & a2 & E2 & K2 & B2 & A2).
  rewrite E1 in E2. apply List.app_eq_app in E2 as (l & [[Hb Ha]|[Hb Ha]]).
  - destruct l as [|x l]; [now injection Ha|].
    injection Ha as <- Ha. exfalso.
    assert (Hp' : p' ∈ b1) by (rewrite Hb; apply elem_of_app; right; left).
    assert (Hp : p ∈ a2) by (rewrite Ha; apply elem_of_app; right; left).
    destruct (B1 p' Hp' K2) as [_ Hn]. exact (Hn (A2 p Hp K1)).
  - destruct l as [|x l]; [now injection Ha|].
    injection Ha as <- Ha. exfalso.
    assert (Hp : p ∈ b2) by (rewrite Hb; apply elem_of_app; right; left).
    assert (Hp' : p' ∈ a1) by (rewrite Ha; apply elem_of_app; right; left).
    destruct (B2 p Hp K1) as [_ Hn]. exact (Hn (A1 p' Hp' K2)).
Qed.

(** The greatest quote of a key is not older than any quote of the key. *)
Lemma greatest_for_le (key : Key) (props : list Quote.t) (p q : Quote.t) :
  Spec.greatest_for key props p -> q ∈ props -> key_of q = Some key ->
  String.le (Spec.timestamp q) (Spec.timestamp p).
Proof.
  intros (before & after & -> & Hk & Hb & Ha) Hq Hqk.
  apply elem_of_app in Hq as [Hq|Hq].
  - exact (proj1 (Hb q Hq Hqk)).
  - apply elem_of_cons in Hq as [->|Hq]; [reflexivity | exact (Ha q Hq Hqk)].
Qed.

(** The entry of a key in [latest] is kept. *)
Lemma latest_of_kept (props : list Quote.t) (key : Key) (p : Quote.t) :
  latest_of props !! key = Some p -> p ∈ _dedupe_props props.
Proof.
  intros Hl. unfold _dedupe_props. apply list_elem_of_fmap.
  exists (key, p). split; [reflexivity|]. now apply elem_of_map_to_list.
Qed.

(** The keys of the kept quotes are the keys of [latest]. *)
Lemma dedupe_props_keys (props : list Quote.t) :
  key_of <$> _dedupe_props props = Some <$> (map_to_list (latest_of props)).*1.
Proof.
  pose proof (latest_of_invariant props) as Hinv.
  unfold _dedupe_props.
  assert (Hall : forall kp, kp ∈ map_to_list (latest_of props) ->
                            key_of (snd kp) = Some (fst kp)).
  { intros [k p] Hkp. apply elem_of_map_to_list in Hkp.
    specialize (Hinv k). rewrite Hkp in Hinv.
    destruct Hinv as (_ & _ & _ & Hk & _). exact Hk. }
  induction (map_to_list (latest_of props)) as [|kp l IH]; [reflexivity|].
  rewrite !fmap_cons. f_equal.
  - apply Hall. left.
  - apply IH. intros kp' Hkp'. apply Hall. now right.
Qed.

(** C8.  For every list of quotes, the quotes the deduplication keeps are
    exactly the quotes that are, for some (player, game, prop-category,
    line, book) key, the quote of that key with the lexicographically
    greatest timestamp (the first of them when several are greatest, a
    missing timestamp being the empty string), each kept once.  So for
    every quote that has a key, a quote of that key is kept, it is the
    greatest of the key and not older than the quote, and it is the only
    kept quote of the key; a quote without a key is not kept. *)
Theorem C8_dedupe_keeps_greatest (props : list Quote.t) :
  NoDup (_dedupe_props props)
  /\ (forall p, p ∈ _dedupe_props props <->
        exists key, Spec.greatest_by Spec.feed_key_of key props p)
  /\ (forall q key, q ∈ props -> Spec.feed_key_of q = Some key ->
        exists p, p ∈ _dedupe_props props
                  /\ Spec.greatest_by Spec.feed_key_of key props p
                  /\ String.le (Spec.timestamp q) (Spec.timestamp p)
                  /\ forall p', p' ∈ _dedupe_props props ->
                                Spec.feed_key_of p' = Some key -> p' = p).
Proof.
  pose proof (latest_of_invariant props) as Hinv.
  pose proof (dedupe_props_member props) as Hmem.
  assert (Hkept : forall key p, Spec.greatest_for key props p ->
                                latest_of props !! key = Some p).
  { intros key p Hg. pose proof (Hinv key) as Hkey.
    destruct (latest_of props !! key) as [p'|] eqn:Hl.
    - f_equal. exact (greatest_for_unique key props p' p Hkey Hg).
    - exfalso. destruct Hg as (before & after & -> & Hk & _).
      apply (Hkey p); [apply elem_of_app; right; left | exact Hk]. }
  split; [|split].
  - apply (NoDup_fmap_1 key_of). rewrite dedupe_props_keys.
    apply (NoDup_fmap_2 Some). apply NoDup_fst_map_to_list.
  - intros p. split.
    + intros Hp. destruct (Hmem p Hp) as (key & _ & Hg).
      exists key. now apply greatest_for_greatest_by.
    + intros (key & Hg). apply greatest_for_greatest_by in Hg.
      exact (latest_of_kept props key p (Hkept key p Hg)).
  - intros q key Hq Hk. rewrite <- key_of_feed_key in Hk.
    pose proof (Hinv key) as Hkey.
    match type of Hkey with
    | match ?entry with _ => _ end => destruct entry as [p|] eqn:Hl
    end; [|now elim (Hkey q Hq)].
    exists p. split; [exact (latest_of_kept props key p Hl)|].
    split; [now apply greatest_for_greatest_by|].
    split; [exact (greatest_for_le key props p q Hkey Hq Hk)|].
    intros p' Hp' Hk'. rewrite <- key_of_feed_key in Hk'.
    destruct (Hmem p' Hp') as (key' & Hl' & (_ & _ & _ & Hkp' & _)).
    assert (key' = key) by congruence. subst key'. congruence.
Qed.

End Dedupe.


(** ** Deduplication of the projection snapshot builder *)

(** C9, on the quotes the fetch returns most recent first: the dictionary
    [latest] holds the most recent Bovada quote, whose line is 25.5, but the
    Bovada baseline recorded for the key is 24.5, the line of the oldest
    quote, because every Bovada quote overwrites the entry. *)
Theorem C9_bovada_line_is_last_iterated :
  let result := ProjectionSnapshots._dedupe_props Examples.bovada_quotes in
  let key : ProjectionSnapshots.Key := ("p1", "g1", "points") in
  fst result !! key = Some Examples.bovada_new
  /\ Quote.line Examples.bovada_new = Some (51 # 2)
  /\ snd result !! key = Some (49 # 2).
Proof. vm_compute. repeat split. Qed.


(** ** Upsert of the prop feed snapshots *)

Section Upsert.

Context {A K : Type} `{EqDecision K} (on_conflict : A -> K).

Lemma foldl_preserves {B} (P : list A -> Prop) (f : list A -> B -> list A)
    (l : list B) (table : list A) :
  (forall t x, P t -> P (f t x)) -> P table -> P (foldl f table l).
Proof.
  intros Hf. revert table. induction l as [|x l IH]; intros table Ht; simpl.
  - exact Ht.
  - apply IH, Hf, Ht.
Qed.

(** The conflict keys after the upsert of one row: unchanged when the key
    is already stored, extended by the key of the row otherwise. *)
Lemma upsert_row_keys (row : A) (table : list A) :
  on_conflict <$> Storage.upsert_row on_conflict row table =
    if decide (on_conflict row ∈ on_conflict <$> table)
    then on_conflict <$> table
    else (on_conflict <$> table) ++ [on_conflict row].
Proof.
  induction table as [|r table IH].
  - cbn [Storage.upsert_row]. rewrite decide_False; [reflexivity|].
    intros Hin. inversion Hin.
  - cbn [Storage.upsert_row].
    destruct (decide (on_conflict r = on_conflict row)) as [Heq|Hne].
    + rewrite decide_True by (rewrite fmap_cons, Heq; left).
      rewrite !fmap_cons. now rewrite Heq.
    + rewrite (fmap_cons on_conflict r), IH.
      destruct (decide (on_conflict row ∈ on_conflict <$> table)) as [Hin|Hnin].
      * rewrite decide_True by (rewrite fmap_cons; now right). reflexivity.
      * rewrite decide_False; [now rewrite fmap_cons|].
        rewrite fmap_cons. intros Hin.
        apply elem_of_cons in Hin as [Heq|Hin]; [congruence | contradiction].
Qed.

Lemma upsert_row_NoDup (row : A) (table : list A) :
  NoDup (on_conflict <$> table) ->
  NoDup (on_conflict <$> Storage.upsert_row on_conflict row table).
Proof.
  intros Hnd. rewrite upsert_row_keys.
  destruct (decide (on_conflict row ∈ on_conflict <$> table)) as [Hin|Hnin];
    [exact Hnd|].
  apply NoDup_app. split; [exact Hnd|]. split.
  - intros k Hk Hk'. apply list_elem_of_singleton in Hk' as ->. contradiction.
  - apply NoDup_singleton.
Qed.

(** The fuel [length rows] is enough: the chunks cover all the rows. *)
Lemma chunked_concat (fuel size : nat) (rows : list A) :
  (0 < size)%nat -> (length rows <= fuel)%nat ->
  concat (Storage.chunked fuel size rows) = rows.
Proof.
  intros Hsize. revert rows.
  induction fuel as [|fuel IH]; intros rows Hlen.
  - destruct rows; [reflexivity | simpl in Hlen; lia].
  - destruct rows as [|r rows]; [reflexivity|].
    cbn [Storage.chunked concat]. rewrite IH.
    + apply take_drop.
    + rewrite length_drop. simpl in Hlen |- *. lia.
Qed.

Lemma upsert_chunks_NoDup (rows table : list A) :
  NoDup (on_conflict <$> table) ->
  NoDup (on_conflict <$> Storage.upsert_chunks on_conflict rows table).
Proof.
  unfold Storage.upsert_chunks.
  apply (foldl_preserves (fun t => NoDup (on_conflict <$> t))).
  intros t chunk. unfold Storage.upsert.
  apply (foldl_preserves (fun t => NoDup (on_conflict <$> t))).
  intros t' row. apply upsert_row_NoDup.
Qed.

End Upsert.

Section FeedRows.

Import PropFeed.

Lemma row_of_natural_key (h : Hydrated) (now_iso : string) (p : Quote.t)
    (r : Row.t) (key : Key) :
  row_of h now_iso p = Some r -> key_of p = Some key ->
  Row.natural_key r = Some key.
Proof.
  unfold row_of, key_of.
  destruct (Quote.line p) as [l|] eqn:Hl; [|intros _ Hk; discriminate].
  destruct (Py.truthy_str (Quote.player_id p) && Py.truthy_str (Quote.game_id p)
            && Py.truthy_str (Quote.prop_type p)); [|intros Hr; discriminate].
  cbn [andb].
  destruct (Quote.book p) as [b|] eqn:Hb; [|intros _ Hk; discriminate].
  destruct (Py.truthy_str (Some b)); [|intros _ Hk; discriminate].
  destruct (players_map h !! _) as [player|]; [|intros Hr; discriminate].
  destruct (games_map h !! _) as [game|]; [|intros Hr; discriminate].
  destruct (_calculate_edge_and_hitrate p _) as [edge_data hit_rate].
  destruct (_resolve_matchup _ _) as [opponent is_home].
  intros Hr Hk.
  inversion Hr; subst r; clear Hr. inversion Hk; subst key; clear Hk.
  unfold Row.natural_key. cbn [Row.line Row.book Row.player_id Row.game_id Row.prop_type].
  reflexivity.
Qed.

Lemma rows_sublist (h : Hydrated) (now_iso : string) (l : list Quote.t) :
  (forall p, p ∈ l -> exists key, key_of p = Some key) ->
  sublist (Row.natural_key <$> omap (row_of h now_iso) l) (key_of <$> l).
Proof.
  induction l as [|p l IH]; intros Hl; [constructor|].
  simpl. destruct (row_of h now_iso p) as [r|] eqn:Hr.
  - destruct (Hl p) as [key Hk]; [left|].
    rewrite fmap_cons, (row_of_natural_key h now_iso p r key Hr Hk), Hk.
    constructor. apply IH. intros q Hq. apply Hl. now right.
  - constructor. apply IH. intros q Hq. apply Hl. now right.
Qed.

(** C3, as amended.  The builder's upsert is keyed on [prop_id], the id of
    the source quote: a run keeps the table at one row per [prop_id]; and
    the rows emitted by one run have pairwise distinct
    (player, game, prop-category, line, book) keys. *)
Theorem C3_one_row_per_prop_id
    (args : Args.t) (props : list Quote.t) (h : Hydrated) (now_iso : string)
    (table : list Row.t) :
  NoDup (Row.prop_id <$> table) ->
  NoDup (Row.prop_id <$> build_snapshots args props h now_iso table)
  /\ NoDup (Row.natural_key <$> rows_of args props h now_iso).
Proof.
  intros Hnd. split.
  - unfold build_snapshots. now apply upsert_chunks_NoDup.
  - unfold rows_of.
    set (l := ProjectionSnapshots.filter_by_sport args (players_map h) props).
    assert (Hsub : sublist (Row.natural_key <$> omap (row_of h now_iso) (_dedupe_props l))
                           (key_of <$> _dedupe_props l)).
    { apply rows_sublist. intros p Hp.
      destruct (dedupe_props_member l p Hp) as (key & _ & _ & _ & _ & Hk & _).
      now exists key. }
    assert (Hkeys : NoDup (key_of <$> _dedupe_props l)).
    { rewrite dedupe_props_keys. apply (NoDup_fmap_2 Some).
      apply NoDup_fst_map_to_list. }
    exact (sublist_NoDup _ _ Hkeys Hsub).
Qed.

(** After a first run that stores the row of a quote and a second run that
    sees a newer quote with the same key, the table holds two rows with
    that key: the upsert matches rows by [prop_id] only. *)
Lemma C3_counterexample :
  ~ NoDup (Row.natural_key <$> Examples.table_after_second_run).
Proof.
  assert (E : Row.natural_key <$> Examples.table_after_second_run
              = [Some ("p1", "g1", "points", Q2Qc (55 # 2), "Bovada");
                 Some ("p1", "g1", "points", Q2Qc (55 # 2), "Bovada")])
    by (vm_compute; reflexivity).
  rewrite E. intros H. apply NoDup_cons in H as [Hn _]. apply Hn. left.
Qed.

End FeedRows.


(** * The theorems at concrete inputs *)

Lemma C1_witness :
  Quote.line Examples.quote_25 = Some 25
  /\ PropFeed.extracted_values Examples.with_push
       (Quote.prop_type Examples.quote_25) <> []
  /\ PropFeed.smoothed_prob 2 4 + PropFeed.smoothed_prob 1 4 == 16 # 21
  /\ exists e hr,
       PropFeed._calculate_edge_and_hitrate Examples.quote_25 Examples.with_push
         = (Some e, Some hr)
       /\ PropFeed.HitRate.pushes hr = 1%Z
       /\ PropFeed.Edge.side e = "over"
       /\ PropFeed.Edge.prob e == 21 # 32.
Proof.
  split; [reflexivity|]. split; [vm_compute; discriminate|].
  pose proof (C1_probabilities_sum_to_one Examples.quote_25 Examples.with_push
                25 eq_refl ltac:(vm_compute; discriminate)) as H.
  cbv zeta in H.
  destruct H as (Eo & Eu & _ & _ & _ & (hr & Hhr & _ & _ & _ & Hpush) & Hex & Hedge).
  split.
  { change (PropFeed.smoothed_prob 2 4 == (inject_Z 2 + (1 # 10)) / (inject_Z 4 + (2 # 10)))
      in Eo.
    change (PropFeed.smoothed_prob 1 4 == (inject_Z 1 + (1 # 10)) / (inject_Z 4 + (2 # 10)))
      in Eu.
    rewrite Eo, Eu. vm_compute. reflexivity. }
  destruct (Hex (-110)%Z (or_introl eq_refl) ltac:(discriminate)) as [e He].
  exists e, hr. split.
  { rewrite (surjective_pairing (PropFeed._calculate_edge_and_hitrate _ _)).
    now rewrite He, Hhr. }
  split; [rewrite Hpush; reflexivity|].
  destruct (Hedge e He) as [(Hs & Hp & _) | (Hs & _)].
  - split; [exact Hs|]. rewrite Hp. vm_compute. reflexivity.
  - exfalso. vm_compute in He. injection He as <-. discriminate Hs.
Defined.

Lemma C10_witness :
  Quote.line Examples.quote_200_175 = Some 25
  /\ PropFeed64.extracted_values Examples.one_over_two_under
       (Quote.prop_type Examples.quote_200_175) <> []
  /\ exists e hr,
       PropFeed64._calculate_edge_and_hitrate
         Examples.quote_200_175 Examples.one_over_two_under
         = (Some e, Some hr)
       /\ PropFeed64.Edge.side e = "over"
       /\ PropFeed64.Edge.prob e = 0.34375%float
       /\ PropFeed64.Edge.edge e = 0.03125%float
       /\ Ev64.ev 0.65625 (-175) = 0.03125%float
       /\ PropFeed64.Edge.odds e = Some 200%Z
       /\ PropFeed64.HitRate.pushes hr = 2%Z.
Proof.
  split; [reflexivity|]. split; [vm_compute; discriminate|].
  destruct (C10_tie_reports_over
              Examples.quote_200_175 Examples.one_over_two_under 25 200 (-175)
              eq_refl ltac:(vm_compute; discriminate)
              eq_refl ltac:(discriminate) eq_refl ltac:(discriminate)
              ltac:(vm_compute; reflexivity))
    as (e & hr & He & Hside & Hedge & Hprob & Hodds).
  exists e, hr. split; [exact He|]. split; [exact Hside|].
  split; [rewrite Hprob; vm_compute; reflexivity|].
  split; [rewrite Hedge; vm_compute; reflexivity|].
  split; [vm_compute; reflexivity|]. split; [exact Hodds|].
  vm_compute in He. injection He as _ <-. reflexivity.
Defined.

Lemma C8_witness :
  let kept := PropFeed._dedupe_props Examples.feed_quotes in
  let bovada : PropFeed.Key := ("p1", "g1", "points", Q2Qc (55 # 2), "Bovada") in
  Spec.feed_key_of Examples.second_quote = Some bovada
  /\ Examples.second_quote ∈ kept
  /\ Examples.fanduel_quote ∈ kept
  /\ (Examples.first_quote ∉ kept)
  /\ (Examples.second_again ∉ kept)
  /\ (Examples.no_book_quote ∉ kept).
Proof.
  cbv zeta.
  destruct (C8_dedupe_keeps_greatest Examples.feed_quotes) as (_ & Hiff & Hkey).
  assert (Hsecond : Examples.second_quote ∈ PropFeed._dedupe_props Examples.feed_quotes).
  { apply Hiff. exists ("p1", "g1", "points", Q2Qc (55 # 2), "Bovada").
    exists [Examples.first_quote],
           [Examples.fanduel_quote; Examples.no_book_quote; Examples.second_again].
    split; [reflexivity|]. split; [reflexivity|]. split.
    - intros q Hq _. apply list_elem_of_singleton in Hq as ->.
      split; vm_compute; tauto.
    - intros q Hq Hk.
      repeat (apply elem_of_cons in Hq as [->|Hq];
              [first [vm_compute; tauto | vm_compute in Hk; discriminate Hk]|]).
      inversion Hq. }
  assert (Hin : forall q, q ∈ Examples.feed_quotes ->
            Spec.feed_key_of q
              = Some ("p1", "g1", "points", Q2Qc (55 # 2), "Bovada") ->
            q ∈ PropFeed._dedupe_props Examples.feed_quotes ->
            q = Examples.second_quote).
  { intros q Hq Hk Hkept.
    destruct (Hkey q _ Hq Hk) as (p & _ & _ & _ & Hunique).
    rewrite (Hunique q Hkept Hk). symmetry. now apply Hunique. }
  split; [reflexivity|]. split; [exact Hsecond|]. split.
  { apply Hiff. exists ("p1", "g1", "points", Q2Qc (55 # 2), "FanDuel").
    exists [Examples.first_quote; Examples.second_quote],
           [Examples.no_book_quote; Examples.second_again].
    split; [reflexivity|]. split; [reflexivity|]. split.
    - intros q Hq Hk.
      repeat (apply elem_of_cons in Hq as [->|Hq];
              [vm_compute in Hk; discriminate Hk|]).
      inversion Hq.
    - intros q Hq Hk.
      repeat (apply elem_of_cons in Hq as [->|Hq];
              [vm_compute in Hk; discriminate Hk|]).
      inversion Hq. }
  split; [|split].
  - intros H. apply Hin in H; [discriminate H | left | reflexivity].
  - intros H. apply Hin in H; [discriminate H | do 4 right; left | reflexivity].
  - intros H. apply Hiff in H as (key & _ & _ & _ & Hk & _).
    vm_compute in Hk. discriminate Hk.
Defined.

Lemma C4_witness :
  0 <= 3 # 20
  /\ exists r,
       Projections.calculate_weighted_average Examples.last_five "points" (3 # 20)
         = Some r
       /\ r == Spec.weighted_average Examples.last_five "points" (3 # 20).
Proof.
  split; [vm_compute; discriminate|].
  destruct (C4_weighted_average Examples.last_five "points" (3 # 20)
              ltac:(vm_compute; discriminate)) as (_ & H & _).
  apply H. vm_compute. discriminate.
Defined.

Lemma C5_witness :
  let db := Examples.store_of_stats Examples.ten_vs_bos in
  let games := Projections.opponent_games Examples.ten_vs_bos "BOS" in
  let values := Projections.qualifying_values games "points" in
  player_game_stats db = Some Examples.ten_vs_bos
  /\ (10 <= length games)%nat /\ (5 <= length values)%nat
  /\ Projections.calculate_opponent_defense_rating db "BOS" "points" ==
       Spec.clamp (17 # 20) (23 # 20)
         (Spec.Qsum values / inject_Z (Z.of_nat (length values))
          / Projections.league_averages "points").
Proof.
  cbv zeta. split; [reflexivity|].
  split; [vm_compute; lia|]. split; [vm_compute; lia|].
  destruct (C5_opponent_defense_rating
              (Examples.store_of_stats Examples.ten_vs_bos) "BOS" "points")
    as (_ & _ & H).
  destruct (H Examples.ten_vs_bos eq_refl) as (_ & H').
  apply H'; vm_compute; lia.
Defined.

Lemma C6_witness :
  Spec.no_active_injury (Examples.store_of_stats Examples.last_five) "p1"
  /\ Projections.Projection.injury_status
       (Projections.calculate_projection Examples.pow_half
          (Examples.store_of_stats Examples.last_five)
          "p1" "points" None true None None) = Some "healthy"
  /\ Projections.impact_multiplier
       (Projections.get_injury_status Examples.injured_store "p1")
     == Spec.clamp 0 1 (1 - Spec.impact_percentage Examples.questionable / 100).
Proof.
  assert (Hno : Spec.no_active_injury (Examples.store_of_stats Examples.last_five) "p1").
  { intros rows Hrows r Hr. inversion Hrows; subst. inversion Hr. }
  split; [exact Hno|]. split.
  - destruct (C6_injury_adjustment Examples.pow_half
                (Examples.store_of_stats Examples.last_five)
                "p1" "points" None true None None) as (H & _).
    destruct (H Hno) as (_ & _ & H').
    apply H'. vm_compute. discriminate.
  - destruct (C6_injury_adjustment Examples.pow_half Examples.injured_store
                "p1" "points" None true None None) as (_ & H).
    exact (H [Examples.questionable] [] Examples.questionable "Questionable"
             eq_refl eq_refl eq_refl).
Defined.


Lemma C3_witness :
  NoDup (PropFeed.Row.prop_id <$> Examples.table_after_first_run)
  /\ NoDup (PropFeed.Row.prop_id <$> Examples.table_after_second_run).
Proof.
  assert (H1 : NoDup (PropFeed.Row.prop_id <$> Examples.table_after_first_run)).
  { exact (proj1 (C3_one_row_per_prop_id Examples.no_sport [Examples.first_quote]
                    Examples.hydrated "2024-01-01T12:00:00" [] NoDup_nil_2)). }
  split; [exact H1|].
  exact (proj1 (C3_one_row_per_prop_id Examples.no_sport
                  [Examples.second_quote; Examples.first_quote]
                  Examples.hydrated "2024-01-02T12:00:00"
                  Examples.table_after_first_run H1)).
Defined.

(** * Further properties of the engine *)

(** ** Odds, implied probabilities and expected value *)

Section Odds.

Lemma div_pos (a b : Q) : 0 < a -> 0 < b -> 0 < a / b.
Proof. intros Ha Hb. apply Qlt_shift_div_l; lra. Qed.

Lemma div_lt_one (a b : Q) : 0 < b -> a < b -> a / b < 1.
Proof. intros Hb Hab. apply Qlt_shift_div_r; lra. Qed.

(** The range of the implied probability of an American price. *)
Lemma american_to_prob_range (odds : Z) :
  0 < Ev.american_to_prob odds
  /\ Ev.american_to_prob odds <= 1
  /\ (odds <> 0%Z -> Ev.american_to_prob odds < 1).
Proof.
  unfold Ev.american_to_prob.
  destruct (odds <? 0)%Z eqn:E.
  - apply Z.ltb_lt in E.
    assert (Ha : 0 < inject_Z (- odds)) by (apply inject_Z_pos; lia).
    assert (Hlt : inject_Z (- odds) / (inject_Z (- odds) + 100) < 1)
      by (apply div_lt_one; lra).
    split; [apply div_pos; lra|]. split; [lra | intros _; exact Hlt].
  - apply Z.ltb_ge in E.
    assert (Ha : 0 <= inject_Z odds) by (apply inject_Z_nonneg; lia).
    split; [apply div_pos; lra|]. split.
    + apply Qle_shift_div_r; lra.
    + intros Hne. assert (0 < inject_Z odds) by (apply inject_Z_pos; lia).
      apply div_lt_one; lra.
Qed.

(** X1.  The implied probability of any American price lies in the
    interval from 0 (excluded) to 1, and is below 1 for every price
    except 0. *)
Theorem american_to_prob_bounds (odds : Z) :
  0 < Ev.american_to_prob odds
  /\ Ev.american_to_prob odds <= 1
  /\ (odds <> 0%Z -> Ev.american_to_prob odds < 1).
Proof. exact (american_to_prob_range odds). Qed.

(** X4.  The expected value grows strictly with the win probability, and
    a bet that cannot win loses the whole stake. *)
Theorem ev_increasing (odds : Z) (p q : Q) :
  odds <> 0%Z -> p < q ->
  Ev.ev p odds < Ev.ev q odds /\ Ev.ev 0 odds == -1.
Proof.
  intros Hne Hpq. unfold Ev.ev.
  assert (Hpay : 0 < (if (0 <? odds)%Z then inject_Z odds / 100
                      else 100 / inject_Z (- odds))).
  { destruct (0 <? odds)%Z eqn:Epos.
    - apply Z.ltb_lt in Epos.
      assert (0 < inject_Z odds) by (apply inject_Z_pos; lia).
      apply div_pos; lra.
    - apply Z.ltb_ge in Epos.
      assert (0 < inject_Z (- odds)) by (apply inject_Z_pos; lia).
      apply div_pos; lra. }
  set (payout := if (0 <? odds)%Z then inject_Z odds / 100
                 else 100 / inject_Z (- odds)) in *.
  split; [|ring].
  assert (p * payout < q * payout) by (apply Qmult_lt_compat_r; assumption).
  lra.
Qed.

End Odds.

(** ** Adjustment calculators *)

Section Adjustments.

Import Projections.

(** X8.  The injury multiplier lies between 0 and 1, whatever the store
    holds. *)
Theorem injury_multiplier_bounds (db : Store) (player_id : string) :
  0 <= impact_multiplier (get_injury_status db player_id)
  /\ impact_multiplier (get_injury_status db player_id) <= 1.
Proof.
  unfold get_injury_status.
  destruct (player_injuries db) as [rows|]; [|simpl; lra].
  destruct (active_injuries rows player_id) as [|injury rest]; [simpl; lra|].
  destruct (Injury.severity injury) as [sev|]; [|simpl; lra].
  cbn [impact_multiplier]. apply max_min_bounds. lra.
Qed.

(** X9.  The rest adjustment lies between 0.95 and 1.02, and for rest days
    that are not negative more rest never lowers it. *)
Theorem rest_adjustment_monotone (d1 d2 : Z) :
  (0 <= d1)%Z -> (d1 <= d2)%Z ->
  calculate_rest_adjustment d1 <= calculate_rest_adjustment d2
  /\ (19 # 20) <= calculate_rest_adjustment d1
  /\ calculate_rest_adjustment d2 <= (51 # 50).
Proof.
  intros H0 H12. unfold calculate_rest_adjustment.
  destruct (d1 =? 0)%Z eqn:A1; destruct (d1 =? 1)%Z eqn:B1;
    destruct (3 <=? d1)%Z eqn:C1;
    destruct (d2 =? 0)%Z eqn:A2; destruct (d2 =? 1)%Z eqn:B2;
    destruct (3 <=? d2)%Z eqn:C2;
    rewrite ?Z.eqb_eq, ?Z.eqb_neq, ?Z.leb_le, ?Z.leb_gt in *;
    try lia; repeat split; lra.
Qed.

End Adjustments.

(** ** Queries: most recent rows first *)

Section Queries.

Import Projections.

Context {A : Type} (col : A -> Z).

Lemma desc_by_total : Total (desc_by col).
Proof. intros x y. unfold desc_by. lia. Qed.

Lemma desc_by_transitive : Transitive (desc_by col).
Proof. intros x y z. unfold desc_by. lia. Qed.

Lemma order_desc_sorted (rows : list A) :
  StronglySorted (desc_by col) (order_desc col rows).
Proof.
  unfold order_desc.
  apply (@StronglySorted_merge_sort _ _ _ desc_by_transitive desc_by_total).
Qed.

Lemma order_desc_permutation (rows : list A) : order_desc col rows ≡ₚ rows.
Proof. unfold order_desc. apply merge_sort_Permutation. Qed.

(** [.order(col, desc=True).limit(n)] returns the [n] rows with the
    greatest values of the column, greatest first. *)
Lemma limit_order_desc (n : nat) (rows : list A) :
  let result := limit n (order_desc col rows) in
  length result = Nat.min n (length rows)
  /\ StronglySorted (desc_by col) result
  /\ exists omitted,
       result ++ omitted ≡ₚ rows
       /\ forall x y, x ∈ result -> y ∈ omitted -> (col y <= col x)%Z.
Proof.
  cbv zeta. unfold limit.
  pose proof (order_desc_sorted rows) as Hs.
  pose proof (order_desc_permutation rows) as Hp.
  rewrite <- (take_drop n (order_desc col rows)) in Hs.
  split; [|split].
  - rewrite length_take, (Permutation_length Hp). reflexivity.
  - apply StronglySorted_app_1_l in Hs. exact Hs.
  - exists (drop n (order_desc col rows)). split.
    + rewrite take_drop. exact Hp.
    + intros x y Hx Hy.
      apply (StronglySorted_app_1_elem_of _ _ _ x y Hs Hx Hy).
Qed.

(** The first row of [.order(col, desc=True)] has the greatest value. *)
Lemma order_desc_head (rows : list A) :
  match limit 1 (order_desc col rows) with
  | [] => rows = []
  | x :: _ => x ∈ rows /\ forall y, y ∈ rows -> (col y <= col x)%Z
  end.
Proof.
  pose proof (order_desc_sorted rows) as Hs.
  pose proof (order_desc_permutation rows) as Hp.
  unfold limit. destruct (order_desc col rows) as [|x sorted]; cbn [take].
  - symmetry in Hp. now apply Permutation_nil_r in Hp.
  - split.
    + rewrite <- Hp. left.
    + intros y Hy. rewrite <- Hp in Hy.
      apply elem_of_cons in Hy as [->|Hy]; [unfold desc_by; lia|].
      apply StronglySorted_inv in Hs as [_ Hall].
      rewrite Forall_forall in Hall. apply (Hall y Hy).
Qed.

End Queries.

Section Loaders.

Import Projections.

(** X10.  [load_player_recent_stats] returns the most recent games of the
    player, most recent first: as many as asked for when the player has
    that many, only rows of the player, and no omitted row of the player is
    more recent than a returned one. *)
Theorem load_player_recent_stats_most_recent
    (db : Store) (player_id prop_type : string) (games : nat)
    (rows : list Stat.t) :
  player_game_stats db = Some rows ->
  let mine := filter (fun s => Stat.player_id s = player_id) rows in
  let result := load_player_recent_stats db player_id prop_type games in
  length result = Nat.min games (length mine)
  /\ (forall s, s ∈ result -> s ∈ rows /\ Stat.player_id s = player_id)
  /\ StronglySorted (desc_by Stat.date) result
  /\ exists omitted,
       result ++ omitted ≡ₚ mine
       /\ forall x y, x ∈ result -> y ∈ omitted ->
            (Stat.date y <= Stat.date x)%Z.
Proof.
  intros Hrows. cbv zeta. unfold load_player_recent_stats. rewrite Hrows.
  destruct (limit_order_desc Stat.date games
              (filter (fun s => Stat.player_id s = player_id) rows))
    as (Hlen & Hsorted & omitted & Hperm & Hrecent).
  split; [exact Hlen|]. split; [|split; [exact Hsorted|]].
  - intros s Hs.
    assert (Hin : s ∈ filter (fun s => Stat.player_id s = player_id) rows).
    { rewrite <- Hperm. apply elem_of_app. now left. }
    apply list_elem_of_filter in Hin as [Hp Hin]. split; assumption.
  - exists omitted. split; assumption.
Qed.

(** X11.  The rest days before a game are the days since the latest
    earlier game of the player, and 2 when the player has no earlier game
    on record or the query fails; they are never negative. *)
Theorem get_player_rest_days_gap (db : Store) (player_id : string) (game_date : Z) :
  (0 <= get_player_rest_days db player_id game_date)%Z
  /\ (player_game_stats db = None ->
      get_player_rest_days db player_id game_date = 2%Z)
  /\ forall rows, player_game_stats db = Some rows ->
       let earlier :=
         filter (fun s => Stat.player_id s = player_id
                          /\ (Stat.date s < game_date)%Z) rows in
       (earlier = [] -> get_player_rest_days db player_id game_date = 2%Z)
       /\ (forall last, last ∈ earlier ->
             (forall s, s ∈ earlier -> (Stat.date s <= Stat.date last)%Z) ->
             get_player_rest_days db player_id game_date
             = (game_date - Stat.date last)%Z).
Proof.
  unfold get_player_rest_days.
  destruct (player_game_stats db) as [rows|];
    [|split; [lia | split; [reflexivity | discriminate]]].
  pose proof (order_desc_head Stat.date
                (filter (fun s => Stat.player_id s = player_id
                                  /\ (Stat.date s < game_date)%Z) rows)) as Hhead.
  destruct (limit 1 (order_desc Stat.date _)) as [|x rest] eqn:E.
  - split; [lia|]. split; [discriminate|].
    intros rows' Hr. inversion Hr; subst rows'. cbv zeta.
    split; [reflexivity|]. intros last Hlast _.
    rewrite Hhead in Hlast. inversion Hlast.
  - destruct Hhead as [Hx Hmax]. split; [lia|]. split; [discriminate|].
    intros rows' Hr. inversion Hr; subst rows'. cbv zeta. split.
    + intros Hnil. rewrite Hnil in Hx. inversion Hx.
    + intros last Hlast Hlatest.
      pose proof (Hmax last Hlast). pose proof (Hlatest x Hx).
      apply list_elem_of_filter in Hx as [[_ Hlt] _]. lia.
Qed.

End Loaders.

(** ** Bounds of the confidence *)

Section Bounds.

Import Projections.

(** Rounding to the nearest integer stays between integer bounds. *)
Lemma round_half_even_between (x : Q) (lo hi : Z) :
  inject_Z lo <= x -> x <= inject_Z hi ->
  (lo <= Py.round_half_even x <= hi)%Z.
Proof.
  intros Hlo Hhi. unfold Py.round_half_even.
  pose proof (Qfloor_le x) as Hfl. pose proof (Qlt_floor x) as Hfu.
  assert (Hf1 : (lo <= Qfloor x)%Z).
  { apply Qfloor_resp_le in Hlo. now rewrite Qfloor_Z in Hlo. }
  assert (Hf2 : (Qfloor x <= hi)%Z).
  { apply Qfloor_resp_le in Hhi. now rewrite Qfloor_Z in Hhi. }
  assert (Hup : inject_Z (Qfloor x) < x -> (Qfloor x + 1 <= hi)%Z).
  { intros Hlt. assert (inject_Z (Qfloor x) < inject_Z hi) by lra.
    rewrite <- Zlt_Qlt in H. lia. }
  destruct (Py.Qltb (x - inject_Z (Qfloor x)) (1 # 2)) eqn:E1; [lia|].
  apply Qltb_ge in E1.
  assert ((Qfloor x + 1 <= hi)%Z) by (apply Hup; lra).
  destruct (Py.Qltb (1 # 2) _); [lia|]. destruct (Z.even _); lia.
Qed.

Lemma round_unit_interval (x : Q) (ndigits : nat) :
  0 <= x -> x <= 1 -> 0 <= Py.round x ndigits /\ Py.round x ndigits <= 1.
Proof.
  intros H0 H1. unfold Py.round.
  set (scale := (10 ^ Z.of_nat ndigits)%Z).
  assert (Hs : (0 < scale)%Z) by (apply Z.pow_pos_nonneg; lia).
  assert (Hsq : 0 < inject_Z scale) by (apply inject_Z_pos; exact Hs).
  destruct (round_half_even_between (x * inject_Z scale) 0 scale) as [Ha Hb].
  - change (inject_Z 0) with 0. nra.
  - nra.
  - rewrite Zle_Qle in Ha, Hb. change (inject_Z 0) with 0 in Ha.
    split; [apply Qle_shift_div_l | apply Qle_shift_div_r]; lra.
Qed.

(** X13.  With a square root that is never negative, the confidence of a
    projection lies between 0 and 1. *)
Theorem projection_confidence_bounds
    (pow_half : Q -> Q) (db : Store) (player_id prop_type : string)
    (opponent_team : option string) (is_home : bool) (game_id : option string)
    (bovada_line : option Q) :
  (forall x, 0 <= pow_half x) ->
  let r := calculate_projection pow_half db player_id prop_type opponent_team
             is_home game_id bovada_line in
  0 <= Projection.confidence r /\ Projection.confidence r <= 1.
Proof.
  intros Hsqrt. cbv zeta.
  assert (Hconf : forall recent_stats,
             0 <= confidence_of pow_half recent_stats prop_type
             /\ confidence_of pow_half recent_stats prop_type <= 1).
  { intros recent_stats. unfold confidence_of.
    set (n := Py.len recent_stats).
    assert (Hn : 0 <= inject_Z n) by (apply inject_Z_nonneg, len_nonneg).
    assert (Hbase : 0 <= Py.min 1 (inject_Z n / 15)
                    /\ Py.min 1 (inject_Z n / 15) <= 1).
    { unfold Py.min. destruct (Py.Qltb (inject_Z n / 15) 1) eqn:E.
      - apply Qltb_lt in E. split; [apply Qle_shift_div_l; lra | lra].
      - lra. }
    destruct (5 <=? n)%Z; [|exact Hbase].
    set (values := omap _ _).
    destruct (3 <=? Py.len values)%Z; [|exact Hbase].
    set (avg := Py.sum values / inject_Z (Py.len values)).
    set (variance := Py.sum _ / _).
    destruct (Py.Qltb 0 avg) eqn:Eavg; [|exact Hbase].
    apply Qltb_lt in Eavg.
    assert (Hcv : 0 <= pow_half variance / avg)
      by (apply Qle_shift_div_l; [exact Eavg | specialize (Hsqrt variance); lra]).
    assert (Hfac : (1 # 2) <= Py.max (1 # 2) (1 - pow_half variance / avg * (1 # 2))
                   /\ Py.max (1 # 2) (1 - pow_half variance / avg * (1 # 2)) <= 1).
    { unfold Py.max. destruct (Py.Qltb (1 # 2) _) eqn:E.
      - apply Qltb_lt in E. lra.
      - lra. }
    nra. }
  unfold calculate_projection.
  destruct (select_baseline _ _) as [[b source]|]; [|simpl; lra].
  cbn [Projection.confidence].
  destruct (Hconf (load_player_recent_stats db player_id prop_type 15)).
  now apply round_unit_interval.
Qed.

End Bounds.

(** ** Projections without history *)

Section NoHistory.

Import Projections.

Lemma loaders_empty (db : Store) (player_id prop_type : string) :
  Spec.no_game_log db player_id ->
  (forall n, load_player_recent_stats db player_id prop_type n = [])
  /\ (forall opponent, load_matchup_stats db player_id opponent prop_type = [])
  /\ (forall home, load_home_away_stats db player_id prop_type home = []).
Proof.
  intros Hno.
  unfold load_player_recent_stats, load_matchup_stats, load_home_away_stats.
  destruct (player_game_stats db) as [rows|] eqn:E; [|auto].
  specialize (Hno rows E).
  split; [|split].
  - intros n. rewrite filter_nil_of_none by exact Hno. now destruct n.
  - intros opponent.
    rewrite filter_nil_of_none by (intros s Hs [Hp _]; now apply (Hno s Hs)).
    reflexivity.
  - intros home.
    rewrite filter_nil_of_none by (intros s Hs [Hp _]; now apply (Hno s Hs)).
    reflexivity.
Qed.

(** The matchup and home/away adjustments of a player without game logs. *)
Lemma adjustments_without_history
    (db : Store) (player_id opponent_team prop_type : string) (is_home : bool) :
  Spec.no_game_log db player_id ->
  calculate_opponent_adjustment db player_id opponent_team prop_type = 1
  /\ calculate_home_away_adjustment db player_id prop_type is_home = 1.
Proof.
  intros Hno.
  destruct (loaders_empty db player_id prop_type Hno) as (H1 & H2 & H3).
  unfold calculate_opponent_adjustment, calculate_home_away_adjustment.
  rewrite H1, !H3. split; reflexivity.
Qed.

(** X14.  For a player without any game log in the store, the matchup
    adjustment and the home/away adjustment are exactly 1. *)
Theorem adjustments_neutral_without_history
    (db : Store) (player_id opponent_team prop_type : string) (is_home : bool) :
  Spec.no_game_log db player_id ->
  calculate_opponent_adjustment db player_id opponent_team prop_type = 1
  /\ calculate_home_away_adjustment db player_id prop_type is_home = 1.
Proof. exact (adjustments_without_history db player_id opponent_team prop_type is_home). Qed.

End NoHistory.

(** ** Hit rates and edges of the prop feed *)

Section HitRates.

Import PropFeed.

(** A sample splits into the values over, under and on the line. *)
Lemma hits_partition (line : Q) (values : list Q) :
  Py.len values
  = (hits_over line values + hits_under line values
     + Py.len (List.filter (fun v => Qeq_bool v line) values))%Z.
Proof.
  unfold hits_over, hits_under, Py.len.
  induction values as [|v values IH]; [reflexivity|].
  cbn [List.filter].
  destruct (Py.Qltb line v) eqn:E1; destruct (Py.Qltb v line) eqn:E2;
    destruct (Qeq_bool v line) eqn:E3;
    rewrite ?Qltb_lt, ?Qltb_ge in *;
    try (apply Qeq_bool_iff in E3);
    try (assert (~ v == line) by (rewrite <- Qeq_bool_iff; congruence));
    cbn [length]; try lia; exfalso; lra.
Qed.

(** When the calculator reports a hit rate and an edge. *)
Lemma edge_and_hitrate_available (prop : Quote.t) (stats : list Stat.t) :
  (snd (_calculate_edge_and_hitrate prop stats) = None
   <-> Quote.line prop = None
       \/ extracted_values stats (Quote.prop_type prop) = [])
  /\ (fst (_calculate_edge_and_hitrate prop stats) = None
      <-> snd (_calculate_edge_and_hitrate prop stats) = None
          \/ (Py.truthy_int (Quote.over_price prop) = false
              /\ Py.truthy_int (Quote.under_price prop) = false)).
Proof.
  destruct (Quote.line prop) as [line|] eqn:Hline.
  - destruct (extracted_values stats (Quote.prop_type prop)) as [|v vs] eqn:Hv.
    + assert (Hnone : _calculate_edge_and_hitrate prop stats = (None, None)).
      { unfold _calculate_edge_and_hitrate. rewrite Hline, Hv.
        now destruct stats. }
      rewrite Hnone. cbn [fst snd]. split; split; auto.
    + assert (Hne : extracted_values stats (Quote.prop_type prop) <> [])
        by (rewrite Hv; discriminate).
      rewrite (calculate_edge_and_hitrate_unfold prop stats line Hline Hne).
      cbv zeta. cbn [fst snd]. rewrite Hv.
      split; [split; [discriminate | intros [H|H]; discriminate]|].
      unfold side_ev.
      destruct (Quote.over_price prop) as [o|]; destruct (Quote.under_price prop) as [u|];
        cbn [Py.truthy_int];
        try destruct (negb (o =? 0)%Z); try destruct (negb (u =? 0)%Z);
        try destruct (Qle_bool _ _);
        split; try discriminate; try tauto;
        intros [H|[H1 H2]]; discriminate.
  - assert (Hnone : _calculate_edge_and_hitrate prop stats = (None, None)).
    { unfold _calculate_edge_and_hitrate. rewrite Hline. now destruct stats. }
    rewrite Hnone. cbn [fst snd]. split; split; auto.
Qed.

(** X17.  A hit rate is reported exactly when the line is defined and at
    least one value can be extracted; an edge is reported exactly when, in
    addition, a price is present. *)
Theorem calculate_edge_and_hitrate_availability (prop : Quote.t) (stats : list Stat.t) :
  (snd (_calculate_edge_and_hitrate prop stats) = None
   <-> Quote.line prop = None
       \/ extracted_values stats (Quote.prop_type prop) = [])
  /\ (fst (_calculate_edge_and_hitrate prop stats) = None
      <-> snd (_calculate_edge_and_hitrate prop stats) = None
          \/ (Py.truthy_int (Quote.over_price prop) = false
              /\ Py.truthy_int (Quote.under_price prop) = false)).
Proof. exact (edge_and_hitrate_available prop stats). Qed.

(** X18.  In a reported hit rate the games over the line, the games under
    it and the pushes add up to the number of games; the pushes are the
    games that landed exactly on the line; and there is at least one
    game. *)
Theorem hit_rate_counts (prop : Quote.t) (stats : list Stat.t) (hr : HitRate.t) :
  snd (_calculate_edge_and_hitrate prop stats) = Some hr ->
  exists line,
    Quote.line prop = Some line
    /\ let values := extracted_values stats (Quote.prop_type prop) in
       HitRate.total_games hr = Py.len values
       /\ (0 < HitRate.total_games hr)%Z
       /\ HitRate.over_count hr = hits_over line values
       /\ HitRate.under_count hr = hits_under line values
       /\ HitRate.pushes hr
          = Py.len (List.filter (fun v => Qeq_bool v line) values)
       /\ (HitRate.over_count hr + HitRate.under_count hr + HitRate.pushes hr
           = HitRate.total_games hr)%Z.
Proof.
  intros Hhr.
  destruct (edge_and_hitrate_available prop stats) as [[_ Hnone] _].
  destruct (Quote.line prop) as [line|] eqn:Hline;
    [|rewrite Hnone in Hhr by (now left); discriminate Hhr].
  destruct (extracted_values stats (Quote.prop_type prop)) as [|v vs] eqn:Hv;
    [rewrite Hnone in Hhr by (now right); discriminate Hhr|].
  assert (Hne : extracted_values stats (Quote.prop_type prop) <> [])
    by (rewrite Hv; discriminate).
  rewrite (calculate_edge_and_hitrate_unfold prop stats line Hline Hne) in Hhr.
  cbv zeta in Hhr. cbn [snd] in Hhr. inversion Hhr; subst hr; clear Hhr.
  exists line. split; [reflexivity|]. cbv zeta.
  cbn [HitRate.total_games HitRate.over_count HitRate.under_count HitRate.pushes].
  rewrite <- Hv.
  pose proof (hits_partition line (extracted_values stats (Quote.prop_type prop))) as Hp.
  pose proof (len_pos _ Hne).
  repeat split; lia.
Qed.

(** X19.  A reported edge is the greater of the expected values of the
    sides that have a price, and the probability reported with it lies
    strictly between 0 and 1. *)
Theorem reported_edge_is_best (prop : Quote.t) (stats : list Stat.t) (e : Edge.t) :
  fst (_calculate_edge_and_hitrate prop stats) = Some e ->
  exists line,
    Quote.line prop = Some line
    /\ let values := extracted_values stats (Quote.prop_type prop) in
       let p := win_probabilities (hits_over line values) (hits_under line values)
                                  (Py.len values) in
       (forall o, side_ev (fst p) (Quote.over_price prop) = Some o -> o <= Edge.edge e)
       /\ (forall u, side_ev (snd p) (Quote.under_price prop) = Some u ->
            u <= Edge.edge e)
       /\ (side_ev (fst p) (Quote.over_price prop) = Some (Edge.edge e)
           \/ side_ev (snd p) (Quote.under_price prop) = Some (Edge.edge e))
       /\ 0 < Edge.prob e /\ Edge.prob e < 1.
Proof.
  intros He.
  destruct (edge_and_hitrate_available prop stats) as [[_ Hnone] [_ Hedge]].
  destruct (Quote.line prop) as [line|] eqn:Hline;
    [|rewrite Hedge in He by (left; apply Hnone; now left); discriminate He].
  destruct (extracted_values stats (Quote.prop_type prop)) as [|v vs] eqn:Hv;
    [rewrite Hedge in He by (left; apply Hnone; now right); discriminate He|].
  assert (Hne : extracted_values stats (Quote.prop_type prop) <> [])
    by (rewrite Hv; discriminate).
  rewrite (calculate_edge_and_hitrate_unfold prop stats line Hline Hne) in He.
  cbv zeta in He. cbn [fst] in He. clear Hnone Hedge. rewrite <- Hv in *. clear Hv v vs.
  exists line. split; [reflexivity|]. cbv zeta.
  set (values := extracted_values stats (Quote.prop_type prop)) in *.
  assert (Hn : (0 < Py.len values)%Z) by (apply len_pos; exact Hne).
  assert (Ho : (0 <= hits_over line values)%Z) by apply len_nonneg.
  assert (Hu : (0 <= hits_under line values)%Z) by apply len_nonneg.
  pose proof (smoothed_prob_pos _ _ Ho Hn) as Pso.
  pose proof (smoothed_prob_pos _ _ Hu Hn) as Psu.
  rewrite (win_probabilities_normalised _ _ _ Ho Hu Hn) in *.
  cbn [fst snd] in *.
  set (so := smoothed_prob (hits_over line values) (Py.len values)) in *.
  set (su := smoothed_prob (hits_under line values) (Py.len values)) in *.
  assert (Hpo : 0 < so / (so + su) /\ so / (so + su) < 1)
    by (split; [apply div_pos | apply div_lt_one]; lra).
  assert (Hpu : 0 < su / (so + su) /\ su / (so + su) < 1)
    by (split; [apply div_pos | apply div_lt_one]; lra).
  destruct (side_ev (so / (so + su)) (Quote.over_price prop)) as [o|];
    destruct (side_ev (su / (so + su)) (Quote.under_price prop)) as [u|];
    [destruct (Qle_bool u o) eqn:E| | |discriminate];
    inversion He; subst e; clear He; cbn [Edge.edge Edge.prob].
  - apply Qle_bool_iff in E.
    split; [intros ? [= <-]; lra|]. split; [intros ? [= <-]; exact E|].
    split; [now left | exact Hpo].
  - assert (~ u <= o) by (rewrite <- Qle_bool_iff; congruence).
    split; [intros ? [= <-]; lra|]. split; [intros ? [= <-]; lra|].
    split; [now right | exact Hpu].
  - split; [intros ? [= <-]; lra|]. split; [discriminate|].
    split; [now left | exact Hpo].
  - split; [discriminate|]. split; [intros ? [= <-]; lra|].
    split; [now right | exact Hpu].
Qed.

Lemma omap_reverse {A B} (f : A -> option B) (l : list A) :
  omap f (reverse l) = reverse (omap f l).
Proof.
  induction l as [|x l IH]; [reflexivity|].
  rewrite reverse_cons, omap_app, IH.
  change (omap f [x]) with (match f x with Some y => [y] | None => [] end).
  change (omap f (x :: l))
    with (match f x with Some y => y :: omap f l | None => omap f l end).
  destruct (f x); [now rewrite reverse_cons | now rewrite app_nil_r].
Qed.

(** X20.  The sparkline holds the values of the most recent [limit] games
    in chronological order: it is the reversal of the values extracted
    from the first [limit] records, and never longer than [limit]. *)
Theorem build_sparkline_values_chronological
    (stats : list Stat.t) (prop_type : option string) (limit : nat) :
  _build_sparkline_values stats prop_type limit
  = reverse (extracted_values (take limit stats) prop_type)
  /\ (length (_build_sparkline_values stats prop_type limit) <= limit)%nat.
Proof.
  unfold _build_sparkline_values, extracted_values. rewrite omap_reverse.
  split; [reflexivity|].
  rewrite length_reverse.
  transitivity (length (take limit stats)).
  - generalize (take limit stats). intros l.
    induction l as [|x l IH]; [reflexivity|].
    cbn [omap list_omap]. destruct (prop_value x prop_type); cbn [length]; lia.
  - rewrite length_take. lia.
Qed.

End HitRates.

(** ** Matchup resolution, deduplication and DFS lines *)

Section FeedHelpers.

Import PropFeed.

(** X21.  [_resolve_matchup], which both workers define alike, answers
    nothing without a game; with a game it always decides the venue and
    names one of the two teams of the game as opponent; a player of the
    home team meets the away team at home, and a player of the away team
    meets the home team away. *)
Theorem resolve_matchup_sides (player_team : option string) (game : Game.t) :
  ProjectionSnapshots._resolve_matchup player_team (Some game)
    = _resolve_matchup player_team (Some game)
  /\ _resolve_matchup player_team None = (None, None)
  /\ snd (_resolve_matchup player_team (Some game)) <> None
  /\ (fst (_resolve_matchup player_team (Some game)) = Game.home_team game
      \/ fst (_resolve_matchup player_team (Some game)) = Game.away_team game)
  /\ (forall away, Py.truthy_str player_team = true ->
        player_team = Game.home_team game -> Game.away_team game = Some away ->
        _resolve_matchup player_team (Some game) = (Some away, Some true))
  /\ (forall home, Py.truthy_str player_team = true ->
        player_team <> Game.home_team game ->
        player_team = Game.away_team game -> Game.home_team game = Some home ->
        _resolve_matchup player_team (Some game) = (Some home, Some false)).
Proof.
  split; [reflexivity|]. split; [reflexivity|].
  unfold _resolve_matchup.
  split; [|split; [|split]].
  - destruct (Py.truthy_str player_team);
      [destruct (decide (player_team = Game.home_team game));
       [|destruct (decide (player_team = Game.away_team game))]|];
      cbn [fst snd];
      try destruct (Game.away_team game); try destruct (Game.home_team game);
      cbn [fst snd]; discriminate.
  - destruct (Py.truthy_str player_team);
      [destruct (decide (player_team = Game.home_team game));
       [|destruct (decide (player_team = Game.away_team game))]|];
      cbn [fst snd];
      destruct (Game.away_team game) as [a|]; destruct (Game.home_team game) as [h|];
      cbn [fst snd Py.truthy_str];
      try destruct (negb (String.eqb a "")); cbn [fst snd]; auto.
  - intros away Ht Hh Ha. rewrite Ht, Ha.
    destruct (decide (player_team = Game.home_team game)); [reflexivity | contradiction].
  - intros home Ht Hnh Ha Hh. rewrite Ht, Hh.
    destruct (decide (player_team = Some home)) as [Heq|_];
      [rewrite Hh in Hnh; contradiction|].
    destruct (decide (player_team = Game.away_team game)); [reflexivity | contradiction].
Qed.

(** X22.  Deduplication is idempotent: the quotes it keeps are kept again,
    and no others, when it runs on its own result. *)
Theorem dedupe_props_idempotent (props : list Quote.t) :
  latest_of (_dedupe_props props) = latest_of props
  /\ _dedupe_props (_dedupe_props props) = _dedupe_props props.
Proof.
  assert (Hmap : latest_of (_dedupe_props props) = latest_of props).
  { apply map_eq. intros key.
    pose proof (latest_of_invariant (_dedupe_props props) key) as Hinv.
    pose proof (latest_of_invariant props key) as Hinv0.
    destruct (latest_of (_dedupe_props props) !! key) as [p|] eqn:E.
    - destruct Hinv as (before & after & Hsplit & Hk & _ & _).
      assert (Hp : p ∈ _dedupe_props props)
        by (rewrite Hsplit; apply elem_of_app; right; left).
      destruct (dedupe_props_member props p Hp) as (key' & Hl & (_ & _ & _ & Hk' & _)).
      assert (key' = key) by congruence. subst key'. now rewrite Hl.
    - destruct (latest_of props !! key) as [p|] eqn:E0; [|reflexivity].
      exfalso. apply (Hinv p).
      + unfold _dedupe_props. apply list_elem_of_fmap. exists (key, p).
        split; [reflexivity|]. now apply elem_of_map_to_list.
      + now destruct Hinv0 as (_ & _ & _ & Hk & _). }
  split; [exact Hmap|]. unfold _dedupe_props at 1 3. now rewrite Hmap.
Qed.

(** Rounding to the nearest integer moves a number by at most one half. *)
Lemma round_half_even_near (x : Q) :
  x - (1 # 2) <= inject_Z (Py.round_half_even x)
  /\ inject_Z (Py.round_half_even x) <= x + (1 # 2).
Proof.
  unfold Py.round_half_even.
  pose proof (Qfloor_le x) as Hfl. pose proof (Qlt_floor x) as Hfu.
  rewrite inject_Z_plus in Hfu. change (inject_Z 1) with 1 in Hfu.
  destruct (Py.Qltb (x - inject_Z (Qfloor x)) (1 # 2)) eqn:E1.
  - apply Qltb_lt in E1. lra.
  - apply Qltb_ge in E1.
    assert (Hup : x - (1 # 2) <= inject_Z (Qfloor x + 1)
                  /\ inject_Z (Qfloor x + 1) <= x + (1 # 2))
      by (rewrite inject_Z_plus; change (inject_Z 1) with 1; lra).
    destruct (Py.Qltb (1 # 2) _) eqn:E2; [exact Hup|].
    apply Qltb_ge in E2. destruct (Z.even _); [lra | exact Hup].
Qed.

(** X23.  The heuristic DFS line is a multiple of one half, and lies above
    the book line by at least 0.25 and at most 2.75. *)
Theorem adjust_for_dfs_line_bounds (book_line : Q) (prop_type : string) :
  (exists k : Z, adjust_for_dfs_line book_line prop_type * 2 == inject_Z k)
  /\ book_line + (1 # 4) <= adjust_for_dfs_line book_line prop_type
  /\ adjust_for_dfs_line book_line prop_type <= book_line + (11 # 4).
Proof.
  unfold adjust_for_dfs_line.
  set (adjustment := if String.eqb prop_type "points" then 3 # 2 else _).
  assert (Ha : (1 # 2) <= adjustment /\ adjustment <= (5 # 2)).
  { unfold adjustment.
    repeat match goal with
           | |- context [if ?c then _ else _] => destruct c
           end; lra. }
  destruct (round_half_even_near ((book_line + adjustment) * 2)) as [H1 H2].
  split; [exists (Py.round_half_even ((book_line + adjustment) * 2)); field|].
  set (r := inject_Z (Py.round_half_even ((book_line + adjustment) * 2))) in *.
  assert (Hr : r / 2 == r * (1 # 2)) by field.
  rewrite Hr. split; lra.
Qed.

End FeedHelpers.

(** ** What the upsert stores *)

Section UpsertContent.

Context {A K : Type} `{EqDecision K} (on_conflict : A -> K).

(** X24.  The chunks of the upsert loop cover the rows in order, and each
    holds at least one and at most [size] rows. *)
Theorem chunked_cover (size : nat) (rows : list A) :
  (0 < size)%nat ->
  concat (Storage.chunked (length rows) size rows) = rows
  /\ Forall (fun chunk => (0 < length chunk <= size)%nat)
            (Storage.chunked (length rows) size rows).
Proof.
  intros Hsize. split; [apply chunked_concat; [exact Hsize | lia]|].
  generalize (length rows) at 1. intros fuel. revert rows.
  induction fuel as [|fuel IH]; intros rows.
  - destruct rows; constructor.
  - destruct rows as [|r rows]; [constructor|].
    cbn [Storage.chunked]. constructor; [|apply IH].
    rewrite length_take. cbn [length]. lia.
Qed.

Lemma foldl_concat {B} (f : list A -> B -> list A) (chunks : list (list B))
    (table : list A) :
  foldl (fun t chunk => foldl f t chunk) table chunks = foldl f table (concat chunks).
Proof.
  revert table. induction chunks as [|c chunks IH]; intros table; [reflexivity|].
  cbn [foldl concat]. now rewrite foldl_app, IH.
Qed.

(** Chunking does not change what the upsert stores. *)
Lemma upsert_chunks_upsert (rows table : list A) :
  Storage.upsert_chunks on_conflict rows table
  = Storage.upsert on_conflict rows table.
Proof.
  unfold Storage.upsert_chunks, Storage.upsert.
  rewrite (foldl_concat (fun t row => Storage.upsert_row on_conflict row t)).
  rewrite chunked_concat; [reflexivity | lia | lia].
Qed.

Lemma upsert_row_elem (row : A) (table : list A) :
  row ∈ Storage.upsert_row on_conflict row table.
Proof.
  induction table as [|r table IH]; cbn [Storage.upsert_row]; [left|].
  destruct (decide (on_conflict r = on_conflict row)); [left | now right].
Qed.

Lemma upsert_row_other (row r : A) (table : list A) :
  r ∈ table -> on_conflict r <> on_conflict row ->
  r ∈ Storage.upsert_row on_conflict row table.
Proof.
  intros Hr Hne. induction table as [|x table IH]; [inversion Hr|].
  cbn [Storage.upsert_row].
  destruct (decide (on_conflict x = on_conflict row)) as [Heq|_].
  - apply elem_of_cons in Hr as [->|Hr]; [contradiction | now right].
  - apply elem_of_cons in Hr as [->|Hr]; [left | right; now apply IH].
Qed.

Lemma upsert_other (chunk : list A) (r : A) (table : list A) :
  r ∈ table -> on_conflict r ∉ on_conflict <$> chunk ->
  r ∈ Storage.upsert on_conflict chunk table.
Proof.
  unfold Storage.upsert. revert table.
  induction chunk as [|row chunk IH]; intros table Hr Hnin; [exact Hr|].
  cbn [foldl]. rewrite fmap_cons in Hnin.
  apply not_elem_of_cons in Hnin as [Hne Hnin].
  apply IH; [|exact Hnin]. now apply upsert_row_other.
Qed.

Lemma upsert_elem (chunk : list A) (r : A) (table : list A) :
  NoDup (on_conflict <$> chunk) -> r ∈ chunk ->
  r ∈ Storage.upsert on_conflict chunk table.
Proof.
  revert table. induction chunk as [|row chunk IH]; intros table Hnd Hr;
    [inversion Hr|].
  rewrite fmap_cons in Hnd. apply NoDup_cons in Hnd as [Hnin Hnd].
  apply elem_of_cons in Hr as [->|Hr].
  - change (Storage.upsert on_conflict (row :: chunk) table)
      with (Storage.upsert on_conflict chunk
              (Storage.upsert_row on_conflict row table)).
    apply upsert_other; [apply upsert_row_elem | exact Hnin].
  - change (Storage.upsert on_conflict (row :: chunk) table)
      with (Storage.upsert on_conflict chunk
              (Storage.upsert_row on_conflict row table)).
    now apply IH.
Qed.

(** When the rows have pairwise distinct conflict keys, the upsert in
    chunks stores every one of them, and it leaves alone every stored row
    whose key none of them has. *)
Lemma upsert_chunks_stores (rows table : list A) :
  NoDup (on_conflict <$> rows) ->
  (forall r, r ∈ rows -> r ∈ Storage.upsert_chunks on_conflict rows table)
  /\ (forall r, r ∈ table -> on_conflict r ∉ on_conflict <$> rows ->
        r ∈ Storage.upsert_chunks on_conflict rows table).
Proof.
  intros Hnd. rewrite upsert_chunks_upsert. split.
  - intros r Hr. now apply upsert_elem.
  - intros r Hr Hnin. now apply upsert_other.
Qed.

End UpsertContent.

(** ** What the builders emit and store *)

Section Builders.

Import PropFeed.

Lemma filter_by_sport_subset (args : Args.t) (players_map : gmap string Player.t)
    (props : list Quote.t) (q : Quote.t) :
  q ∈ ProjectionSnapshots.filter_by_sport args players_map props -> q ∈ props.
Proof.
  unfold ProjectionSnapshots.filter_by_sport.
  destruct (Py.truthy_str (Args.sport args)); [|auto].
  intros Hq. apply list_elem_of_In, filter_In in Hq as [Hq _].
  now apply list_elem_of_In.
Qed.

(** X25.  Every row the prop feed builder emits comes from a fetched quote
    with a complete key, whose player and game are known: it carries the
    id, line, prices, book and timestamp of that quote unchanged. *)
Theorem rows_come_from_quotes
    (args : Args.t) (props : list Quote.t) (h : Hydrated) (now_iso : string)
    (r : Row.t) :
  r ∈ rows_of args props h now_iso ->
  exists q key,
    q ∈ props
    /\ key_of q = Some key
    /\ Row.natural_key r = Some key
    /\ Row.prop_id r = Quote.id q
    /\ Row.line r = Quote.line q
    /\ Row.over_price r = Quote.over_price q
    /\ Row.under_price r = Quote.under_price q
    /\ Row.book r = Quote.book q
    /\ Row.source_prop_created_at r = Quote.created_at q
    /\ is_Some (players_map h !! Row.player_id r)
    /\ is_Some (games_map h !! Row.game_id r).
Proof.
  unfold rows_of. intros Hr.
  apply list_elem_of_omap in Hr as (q & Hq & Hrow).
  destruct (dedupe_props_member _ q Hq) as (key & _ & Hg).
  destruct Hg as (before & after & Hsplit & Hk & _ & _).
  exists q, key. split.
  { apply (filter_by_sport_subset args (players_map h)).
    rewrite Hsplit. apply elem_of_app. right. left. }
  split; [exact Hk|].
  split; [exact (row_of_natural_key h now_iso q r key Hrow Hk)|].
  unfold row_of in Hrow.
  destruct (Py.truthy_str (Quote.player_id q) && Py.truthy_str (Quote.game_id q)
            && Py.truthy_str (Quote.prop_type q)); [|discriminate].
  destruct (players_map h !! _) as [player|] eqn:Hp; [|discriminate].
  destruct (games_map h !! _) as [game|] eqn:Hgm; [|discriminate].
  destruct (_calculate_edge_and_hitrate q _) as [edge_data hit_rate].
  destruct (_resolve_matchup _ _) as [opponent is_home].
  inversion Hrow; subst r; clear Hrow.
  cbn [Row.prop_id Row.line Row.over_price Row.under_price Row.book
       Row.source_prop_created_at Row.player_id Row.game_id].
  rewrite Hp, Hgm. repeat split; eauto.
Qed.

(** X26.  When the rows of a run have pairwise distinct [prop_id]s, the
    prop feed table holds every one of them after the run, and every row
    stored before under another [prop_id] is still there. *)
Theorem feed_build_snapshots_stores
    (args : Args.t) (props : list Quote.t) (h : Hydrated) (now_iso : string)
    (table : list Row.t) :
  NoDup (Row.prop_id <$> rows_of args props h now_iso) ->
  (forall r, r ∈ rows_of args props h now_iso ->
             r ∈ build_snapshots args props h now_iso table)
  /\ (forall r, r ∈ table ->
        Row.prop_id r ∉ Row.prop_id <$> rows_of args props h now_iso ->
        r ∈ build_snapshots args props h now_iso table).
Proof.
  intros Hnd. unfold build_snapshots. now apply upsert_chunks_stores.
Qed.

Lemma snapshots_sublist (pow_half : Q -> Q) (db : Store)
    (players_map : gmap string Player.t) (games_map : gmap string Game.t)
    (bovada_lines : gmap ProjectionSnapshots.Key Q) (now_iso : string)
    (items : list (ProjectionSnapshots.Key * Quote.t)) :
  sublist
    (ProjectionSnapshots.Snapshot.key
       <$> omap (ProjectionSnapshots.snapshot_of pow_half db players_map
                   games_map bovada_lines now_iso) items)
    (fst <$> items).
Proof.
  induction items as [|[key prop] items IH]; [constructor|].
  cbn [omap list_omap].
  destruct (ProjectionSnapshots.snapshot_of _ _ _ _ _ _ (key, prop)) as [s|] eqn:Hs.
  - apply snapshot_of_some in Hs as [Hkey _].
    rewrite !fmap_cons, Hkey. cbn [fst]. now constructor.
  - rewrite fmap_cons. now constructor.
Qed.

(** X27.  The projection snapshot builder emits at most one snapshot per
    (player, game, prop-category) key; a table with one row per key has one
    row per key after the run, holds every emitted snapshot, and keeps
    every row whose key the run did not emit. *)
Theorem projection_build_snapshots_table
    (pow_half : Q -> Q) (args : Args.t) (db : Store) (props : list Quote.t)
    (players_map : gmap string Player.t) (games_map : gmap string Game.t)
    (now_iso : string) (table : list ProjectionSnapshots.Snapshot.t) :
  let emitted :=
    ProjectionSnapshots.snapshots_to_upsert pow_half args db props players_map
      games_map now_iso in
  let table' :=
    ProjectionSnapshots.build_snapshots pow_half args db props players_map
      games_map now_iso table in
  NoDup (ProjectionSnapshots.Snapshot.key <$> emitted)
  /\ (forall s, s ∈ emitted -> s ∈ table')
  /\ (forall s, s ∈ table ->
        ProjectionSnapshots.Snapshot.key s
          ∉ ProjectionSnapshots.Snapshot.key <$> emitted ->
        s ∈ table')
  /\ (NoDup (ProjectionSnapshots.Snapshot.key <$> table) ->
      NoDup (ProjectionSnapshots.Snapshot.key <$> table')).
Proof.
  cbv zeta.
  assert (Hnd : NoDup (ProjectionSnapshots.Snapshot.key
                         <$> ProjectionSnapshots.snapshots_to_upsert pow_half
                               args db props players_map games_map now_iso)).
  { unfold ProjectionSnapshots.snapshots_to_upsert.
    destruct (ProjectionSnapshots._dedupe_props _) as [latest bovada_lines].
    eapply sublist_NoDup; [|apply snapshots_sublist].
    apply NoDup_fst_map_to_list. }
  unfold ProjectionSnapshots.build_snapshots.
  destruct (upsert_chunks_stores ProjectionSnapshots.Snapshot.key _ table Hnd)
    as [Hin Hkeep].
  split; [exact Hnd|]. split; [exact Hin|]. split; [exact Hkeep|].
  apply upsert_chunks_NoDup.
Qed.

End Builders.

(** ** The Bovada baseline of the projection snapshot builder *)

Section BovadaLines.

Import ProjectionSnapshots.

Lemma dedupe_step_bovada (acc : gmap Key Quote.t * gmap Key Q) (x : Quote.t) :
  snd (dedupe_step acc x)
  = match Spec.bovada_entry x with
    | Some (key, l) => <[key := l]> (snd acc)
    | None => snd acc
    end.
Proof.
  destruct acc as [latest bovada_lines]. unfold dedupe_step, Spec.bovada_entry.
  destruct (Py.truthy_str (Quote.player_id x) && Py.truthy_str (Quote.game_id x)
            && Py.truthy_str (Quote.prop_type x)); [|reflexivity].
  cbn [snd].
  destruct (Quote.book x) as [b|]; [|reflexivity].
  destruct (Quote.line x) as [l|]; [|reflexivity].
  destruct (String.eqb_spec b "Bovada") as [->|Hne].
  - now rewrite decide_True by reflexivity.
  - now rewrite decide_False by exact Hne.
Qed.

(** X28.  The Bovada baseline the projection snapshot builder records for
    a key is the line of the last Bovada quote of that key in the order of
    the input, whatever the timestamps; no baseline is recorded exactly
    when the input has no Bovada quote with a line for the key. *)
Theorem dedupe_props_bovada_last (props : list Quote.t) (key : Key) :
  match snd (_dedupe_props props) !! key with
  | Some l => Spec.last_bovada key props l
  | None => forall q l, q ∈ props -> Spec.bovada_entry q <> Some (key, l)
  end.
Proof.
  unfold _dedupe_props. induction props as [|x props IH] using rev_ind.
  - cbn. rewrite lookup_empty. intros q l Hq. inversion Hq.
  - rewrite foldl_app. cbn [foldl]. rewrite dedupe_step_bovada.
    set (acc := foldl dedupe_step (∅, ∅) props) in *.
    assert (Hkeep : (forall l, Spec.bovada_entry x <> Some (key, l)) ->
              match snd acc !! key with
              | Some l => Spec.last_bovada key (props ++ [x]) l
              | None => forall q l, q ∈ props ++ [x] ->
                                    Spec.bovada_entry q <> Some (key, l)
              end).
    { intros Hx. destruct (snd acc !! key) as [l|].
      - destruct IH as (before & q & after & -> & Hq & Hafter).
        exists before, q, (after ++ [x]). split; [now rewrite <- app_assoc|].
        split; [exact Hq|]. intros q' l' Hq'.
        apply elem_of_app in Hq' as [Hq'|Hq']; [now apply Hafter|].
        apply list_elem_of_singleton in Hq' as ->. apply Hx.
      - intros q l Hq. apply elem_of_app in Hq as [Hq|Hq]; [now apply IH|].
        apply list_elem_of_singleton in Hq as ->. apply Hx. }
    destruct (Spec.bovada_entry x) as [[k l]|] eqn:Ex; [|apply Hkeep; discriminate].
    destruct (decide (k = key)) as [->|Hne].
    + rewrite lookup_insert_eq. exists props, x, [].
      split; [reflexivity|]. split; [exact Ex|]. intros q' l' Hq'. inversion Hq'.
    + rewrite lookup_insert_ne by exact Hne. apply Hkeep. congruence.
Qed.

End BovadaLines.

(** ** The most recent quote *)

Section MostRecent.

Import Projections.

Lemma created_desc_total : Total created_desc.
Proof. intros x y. unfold created_desc. apply (total String.le). Qed.

Lemma created_desc_transitive : Transitive created_desc.
Proof.
  intros x y z Hxy Hyz. unfold created_desc in *.
  now apply (transitivity (R := String.le)) with (Py.or_empty (Quote.created_at y)).
Qed.

(** The first row of [.order("created_at", desc=True)] has the greatest
    timestamp. *)
Lemma order_created_desc_head (rows : list Quote.t) :
  match limit 1 (order_created_desc rows) with
  | [] => rows = []
  | q :: _ =>
      q ∈ rows
      /\ forall q', q' ∈ rows -> String.le (Spec.timestamp q') (Spec.timestamp q)
  end.
Proof.
  unfold order_created_desc, limit.
  pose proof (@StronglySorted_merge_sort _ created_desc _
                created_desc_transitive created_desc_total rows) as Hs.
  pose proof (merge_sort_Permutation created_desc rows) as Hp.
  destruct (merge_sort created_desc rows) as [|q sorted]; cbn [take].
  - symmetry in Hp. now apply Permutation_nil_r in Hp.
  - split.
    + rewrite <- Hp. left.
    + intros q' Hq'. rewrite <- Hp in Hq'.
      apply elem_of_cons in Hq' as [->|Hq']; [reflexivity|].
      apply StronglySorted_inv in Hs as [_ Hall].
      rewrite Forall_forall in Hall. apply (Hall q' Hq').
Qed.

(** X29.  [get_bovada_line] answers with the line of a Bovada quote of the
    player, game and prop type whose timestamp is the greatest among those
    quotes; it answers nothing when there is no such quote or the query
    fails. *)
Theorem get_bovada_line_most_recent (db : Store) (player_id game_id prop_type : string) :
  (player_prop_odds db = None ->
   get_bovada_line db player_id game_id prop_type = None)
  /\ forall rows, player_prop_odds db = Some rows ->
       let matching :=
         filter (fun q => Quote.player_id q = Some player_id
                          /\ Quote.game_id q = Some game_id
                          /\ Quote.prop_type q = Some prop_type
                          /\ Quote.book q = Some "Bovada") rows in
       (matching = [] -> get_bovada_line db player_id game_id prop_type = None)
       /\ (matching <> [] ->
           exists q, q ∈ matching
                     /\ (forall q', q' ∈ matching ->
                           String.le (Spec.timestamp q') (Spec.timestamp q))
                     /\ get_bovada_line db player_id game_id prop_type
                        = Quote.line q).
Proof.
  unfold get_bovada_line.
  destruct (player_prop_odds db) as [rows|]; [|split; [reflexivity | discriminate]].
  split; [discriminate|]. intros rows' Hr. inversion Hr; subst rows'. cbv zeta.
  set (matching := filter _ rows).
  pose proof (order_created_desc_head matching) as Hhead.
  destruct (limit 1 (order_created_desc matching)) as [|q rest].
  - split; [reflexivity | intros Hne; contradiction].
  - destruct Hhead as [Hq Hmax]. split.
    + intros Hnil. rewrite Hnil in Hq. inversion Hq.
    + intros _. exists q. split; [exact Hq|]. split; [exact Hmax | reflexivity].
Qed.

End MostRecent.

(** ** The latest quote per key, for any key function *)

Section GreatestBy.

Context {K : Type} `{Countable K} (key_of : Quote.t -> option K).

(** A loop body that keeps, per key, the quote with the greater timestamp. *)
Variable step : gmap K Quote.t -> Quote.t -> gmap K Quote.t.

Hypothesis step_eq : forall latest x,
  step latest x =
    match key_of x with
    | None => latest
    | Some key =>
        match latest !! key with
        | None => <[key := x]> latest
        | Some old =>
            if Py.str_gt (Spec.timestamp x) (Spec.timestamp old)
            then <[key := x]> latest
            else latest
        end
    end.

Lemma greatest_by_snoc_keep (key : K) (props : list Quote.t) (p x : Quote.t) :
  (key_of x = Some key -> String.le (Spec.timestamp x) (Spec.timestamp p)) ->
  Spec.greatest_by key_of key props p ->
  Spec.greatest_by key_of key (props ++ [x]) p.
Proof.
  intros Hx (before & after & -> & Hk & Hb & Ha).
  exists before, (after ++ [x]). split; [now rewrite <- app_assoc|].
  split; [exact Hk|]. split; [exact Hb|].
  intros q Hq Hqk. apply elem_of_app in Hq as [Hq|Hq]; [now apply Ha|].
  apply list_elem_of_singleton in Hq as ->. now apply Hx.
Qed.

Lemma greatest_by_snoc_new (key : K) (props : list Quote.t) (x : Quote.t) :
  key_of x = Some key ->
  (forall q, q ∈ props -> key_of q = Some key ->
             strict String.le (Spec.timestamp q) (Spec.timestamp x)) ->
  Spec.greatest_by key_of key (props ++ [x]) x.
Proof.
  intros Hx Hlt. exists props, []. split; [reflexivity|].
  split; [exact Hx|]. split; [exact Hlt | intros q Hq; inversion Hq].
Qed.

Lemma greatest_by_all_below (key : K) (props : list Quote.t) (old x : Quote.t) :
  strict String.le (Spec.timestamp old) (Spec.timestamp x) ->
  Spec.greatest_by key_of key props old ->
  forall q, q ∈ props -> key_of q = Some key ->
            strict String.le (Spec.timestamp q) (Spec.timestamp x).
Proof.
  intros Hlt (before & after & -> & Hk & Hb & Ha) q Hq Hqk.
  apply elem_of_app in Hq as [Hq|Hq].
  - exact (strict_trans_l _ _ _ (Hb q Hq Hqk) (strict_include _ _ Hlt)).
  - apply elem_of_cons in Hq as [->|Hq]; [exact Hlt|].
    exact (strict_trans_r _ _ _ (Ha q Hq Hqk) Hlt).
Qed.

Lemma fold_keeps_greatest (props : list Quote.t) (key : K) :
  match foldl step ∅ props !! key with
  | Some p => Spec.greatest_by key_of key props p
  | None => forall q, q ∈ props -> key_of q <> Some key
  end.
Proof.
  revert key. induction props as [|x props IH] using rev_ind; intros key.
  - cbn. rewrite lookup_empty. intros q Hq. inversion Hq.
  - rewrite foldl_app. cbn [foldl]. rewrite step_eq.
    set (latest := foldl step ∅ props) in *.
    assert (Hkeep : key_of x <> Some key ->
              match latest !! key with
              | Some p => Spec.greatest_by key_of key (props ++ [x]) p
              | None => forall q, q ∈ props ++ [x] -> key_of q <> Some key
              end).
    { intros Hne. specialize (IH key). destruct (latest !! key) as [p|].
      - apply greatest_by_snoc_keep; [intros; contradiction | exact IH].
      - intros q Hq. apply elem_of_app in Hq as [Hq|Hq]; [now apply IH|].
        now apply list_elem_of_singleton in Hq as ->. }
    destruct (key_of x) as [k|] eqn:Hk; [|apply Hkeep; discriminate].
    destruct (decide (k = key)) as [->|Hne].
    + pose proof (IH key) as Hkey.
      destruct (latest !! key) as [old|] eqn:Hold.
      * destruct (Py.str_gt _ _) eqn:Hgt.
        -- rewrite lookup_insert_eq. apply str_gt_strict in Hgt.
           apply greatest_by_snoc_new; [exact Hk|].
           now apply (greatest_by_all_below key props old x).
        -- rewrite Hold. apply str_gt_le in Hgt.
           apply greatest_by_snoc_keep; [intros _; exact Hgt | exact Hkey].
      * rewrite lookup_insert_eq. apply greatest_by_snoc_new; [exact Hk|].
        intros q Hq Hqk. now elim (Hkey q Hq).
    + assert (Hx : Some k <> Some key) by congruence.
      specialize (Hkeep Hx).
      destruct (latest !! k) as [old|]; [destruct (Py.str_gt _ _)|];
        try rewrite lookup_insert_ne by exact Hne; exact Hkeep.
Qed.

End GreatestBy.

Section ProjectionLatest.

Import ProjectionSnapshots.

Lemma dedupe_step_latest (acc : gmap Key Quote.t * gmap Key Q) (x : Quote.t) :
  fst (dedupe_step acc x)
  = match Spec.projection_key_of x with
    | None => fst acc
    | Some key =>
        match fst acc !! key with
        | None => <[key := x]> (fst acc)
        | Some old =>
            if Py.str_gt (Spec.timestamp x) (Spec.timestamp old)
            then <[key := x]> (fst acc)
            else fst acc
        end
    end.
Proof.
  destruct acc as [latest bovada_lines].
  unfold dedupe_step, Spec.projection_key_of, Spec.timestamp.
  destruct (Py.truthy_str (Quote.player_id x) && Py.truthy_str (Quote.game_id x)
            && Py.truthy_str (Quote.prop_type x)); reflexivity.
Qed.

Lemma fold_dedupe_step_latest (props : list Quote.t)
    (acc : gmap Key Quote.t * gmap Key Q) :
  fst (foldl dedupe_step acc props)
  = foldl (fun latest x => fst (dedupe_step (latest, ∅) x)) (fst acc) props.
Proof.
  revert acc. induction props as [|x props IH]; intros acc; [reflexivity|].
  cbn [foldl]. rewrite IH. f_equal.
  rewrite !dedupe_step_latest. reflexivity.
Qed.

(** X30.  In the projection snapshot builder the quote kept for a
    (player, game, prop-category) key is the quote of that key with the
    lexicographically greatest timestamp, the first of them when several
    are greatest; a key has no quote exactly when no input quote has it. *)
Theorem projection_dedupe_keeps_greatest (props : list Quote.t) (key : Key) :
  match fst (_dedupe_props props) !! key with
  | Some p => Spec.greatest_by Spec.projection_key_of key props p
  | None => forall q, q ∈ props -> Spec.projection_key_of q <> Some key
  end.
Proof.
  unfold _dedupe_props. rewrite fold_dedupe_step_latest. cbn [fst].
  apply fold_keeps_greatest.
  intros latest x. now rewrite dedupe_step_latest.
Qed.

End ProjectionLatest.

(** * The further properties at concrete inputs *)

Lemma example_pow_half_nonneg (x : Q) : 0 <= Examples.pow_half x.
Proof.
  unfold Examples.pow_half. apply Qle_shift_div_l; [reflexivity|].
  rewrite Qmult_0_l. apply inject_Z_nonneg, Z.sqrt_nonneg.
Qed.

Lemma ev_increasing_witness :
  (1 # 2) < (3 # 5)
  /\ Ev.ev (1 # 2) (-110) < Ev.ev (3 # 5) (-110).
Proof.
  split; [reflexivity|].
  exact (proj1 (ev_increasing (-110) (1 # 2) (3 # 5)
                  ltac:(discriminate) ltac:(reflexivity))).
Defined.

Lemma rest_adjustment_monotone_witness :
  Projections.calculate_rest_adjustment 0 <= Projections.calculate_rest_adjustment 3.
Proof.
  exact (proj1 (rest_adjustment_monotone 0 3 ltac:(lia) ltac:(lia))).
Defined.

Lemma load_player_recent_stats_most_recent_witness :
  length (Projections.load_player_recent_stats
            (Examples.store_of_stats Examples.last_five) "p1" "points" 3)
  = Nat.min 3 (length (filter (fun s => Stat.player_id s = "p1") Examples.last_five)).
Proof.
  exact (proj1 (load_player_recent_stats_most_recent
                  (Examples.store_of_stats Examples.last_five) "p1" "points" 3
                  Examples.last_five eq_refl)).
Defined.

Lemma projection_confidence_bounds_witness :
  let r := Projections.calculate_projection Examples.pow_half
             (Examples.store_of_stats Examples.last_five)
             "p1" "points" None true None None in
  0 <= Projections.Projection.confidence r
  /\ Projections.Projection.confidence r <= 1.
Proof.
  exact (projection_confidence_bounds Examples.pow_half
           (Examples.store_of_stats Examples.last_five)
           "p1" "points" None true None None example_pow_half_nonneg).
Defined.

Lemma example_no_game_log : Spec.no_game_log Examples.empty_store "p1".
Proof. intros rows Hrows s Hs. inversion Hrows; subst. inversion Hs. Qed.

Lemma example_no_active_injury : Spec.no_active_injury Examples.empty_store "p1".
Proof. intros rows Hrows r Hr. inversion Hrows; subst. inversion Hr. Qed.

Lemma adjustments_neutral_without_history_witness :
  Projections.calculate_opponent_adjustment Examples.empty_store "p1" "BOS" "points" = 1
  /\ Projections.calculate_home_away_adjustment Examples.empty_store "p1" "points" true = 1.
Proof.
  exact (adjustments_neutral_without_history Examples.empty_store "p1" "BOS"
           "points" true example_no_game_log).
Defined.

Lemma hit_rate_counts_witness :
  exists hr,
    snd (PropFeed._calculate_edge_and_hitrate Examples.quote_27_5 Examples.last_five)
      = Some hr
    /\ (PropFeed.HitRate.over_count hr + PropFeed.HitRate.under_count hr
        + PropFeed.HitRate.pushes hr = PropFeed.HitRate.total_games hr)%Z.
Proof.
  destruct (snd (PropFeed._calculate_edge_and_hitrate Examples.quote_27_5
                   Examples.last_five)) as [hr|] eqn:E;
    [|vm_compute in E; discriminate].
  exists hr. split; [reflexivity|].
  destruct (hit_rate_counts Examples.quote_27_5 Examples.last_five hr E)
    as (line & _ & H).
  apply H.
Defined.

Lemma reported_edge_is_best_witness :
  exists e,
    fst (PropFeed._calculate_edge_and_hitrate Examples.quote_27_5 Examples.last_five)
      = Some e
    /\ 0 < PropFeed.Edge.prob e /\ PropFeed.Edge.prob e < 1.
Proof.
  destruct (fst (PropFeed._calculate_edge_and_hitrate Examples.quote_27_5
                   Examples.last_five)) as [e|] eqn:E;
    [|vm_compute in E; discriminate].
  exists e. split; [reflexivity|].
  destruct (reported_edge_is_best Examples.quote_27_5 Examples.last_five e E)
    as (line & _ & H).
  apply H.
Defined.

Lemma chunked_cover_witness :
  concat (Storage.chunked 5 2 [1; 2; 3; 4; 5]%nat) = [1; 2; 3; 4; 5]%nat.
Proof.
  exact (proj1 (chunked_cover 2 [1; 2; 3; 4; 5]%nat ltac:(lia))).
Defined.

Lemma rows_come_from_quotes_witness :
  exists r q,
    r ∈ PropFeed.rows_of Examples.no_sport [Examples.first_quote]
          Examples.hydrated "2024-01-01T12:00:00"
    /\ q ∈ [Examples.first_quote]
    /\ PropFeed.Row.prop_id r = Quote.id q.
Proof.
  destruct (PropFeed.rows_of Examples.no_sport [Examples.first_quote]
              Examples.hydrated "2024-01-01T12:00:00") as [|r rest] eqn:E;
    [vm_compute in E; discriminate|].
  destruct (rows_come_from_quotes Examples.no_sport [Examples.first_quote]
              Examples.hydrated "2024-01-01T12:00:00" r)
    as (q & key & Hq & _ & _ & Hid & _).
  - rewrite E. left.
  - exists r, q. split; [left|]. split; [exact Hq | exact Hid].
Defined.

Lemma feed_build_snapshots_stores_witness :
  exists r,
    r ∈ PropFeed.rows_of Examples.no_sport
          [Examples.second_quote; Examples.first_quote] Examples.hydrated
          "2024-01-02T12:00:00"
    /\ r ∈ Examples.table_after_second_run.
Proof.
  assert (E : PropFeed.Row.prop_id
                <$> PropFeed.rows_of Examples.no_sport
                      [Examples.second_quote; Examples.first_quote]
                      Examples.hydrated "2024-01-02T12:00:00" = ["q3"])
    by (vm_compute; reflexivity).
  destruct (PropFeed.rows_of Examples.no_sport
              [Examples.second_quote; Examples.first_quote] Examples.hydrated
              "2024-01-02T12:00:00") as [|r rest] eqn:Erows; [discriminate E|].
  exists r. split; [left|].
  apply (proj1 (feed_build_snapshots_stores Examples.no_sport
                  [Examples.second_quote; Examples.first_quote] Examples.hydrated
                  "2024-01-02T12:00:00" Examples.table_after_first_run
                  ltac:(rewrite Erows, E; apply NoDup_singleton))).
  rewrite Erows. left.
Defined.
